(** * Multi-settle authorization ledger and settlement route

    A shallow embedding of the multi-settle data layer
    ([packages/server/src/db/multisettle.ts]) and of the HTTP handlers of
    the multi-settle router ([/authorize], [/settle], [/revoke]).

    - SQLite tables are lists of rows in insertion order; a [SELECT ... WHERE]
      answered by [stmt.get] is the first matching row, an [UPDATE ... WHERE]
      rewrites every matching row.
    - Amounts are decimal strings, compared through [BigInt] exactly as the
      code does; [BigInt] of a malformed string throws.
    - The clock, [nanoid], the signature verifier and the chain are inputs of
      each handler run: a handler is a function of the database and of the
      answers the outside world gives during that run, and it returns the
      new database, the HTTP response and the ordered list of effects. *)

From Stdlib Require Import ZArith List String Ascii Bool Lia.
From Stdlib Require Import Decimal DecimalString DecimalZ DecimalPos.
Import ListNotations.

Local Open Scope string_scope.
Local Open Scope Z_scope.

(* ================================================================== *)
(** ** JavaScript values used by the code *)
(* ================================================================== *)

Module Js.

(** A completion of a JavaScript call: a value or a thrown error. *)
Inductive Completion (A : Type) : Type :=
| Return (a : A)
| Throw (message : string).
Arguments Return {A} a.
Arguments Throw {A} message.

(** Strings are sequences of code units below 256. The white space of
    [StrWhiteSpaceChar] in that range: TAB, LF, VT, FF, CR, SP, NBSP. *)
Definition isStrWhiteSpaceChar (c : ascii) : bool :=
  let n := nat_of_ascii c in
  ((n =? 9) || (n =? 10) || (n =? 11) || (n =? 12) || (n =? 13)
   || (n =? 32) || (n =? 160))%nat.

Fixpoint trimStart (s : string) : string :=
  match s with
  | EmptyString => EmptyString
  | String c s' => if isStrWhiteSpaceChar c then trimStart s' else s
  end.

Fixpoint trimEnd (s : string) : string :=
  match s with
  | EmptyString => EmptyString
  | String c s' =>
      match trimEnd s' with
      | EmptyString =>
          if isStrWhiteSpaceChar c then EmptyString else String c EmptyString
      | t => String c t
      end
  end.

Definition trim (s : string) : string := trimEnd (trimStart s).

(** No character of [s] is white space. *)
Fixpoint noWhiteSpace (s : string) : bool :=
  match s with
  | EmptyString => true
  | String c s' => negb (isStrWhiteSpaceChar c) && noWhiteSpace s'
  end.

(** Value of a digit in radix 16 (and below). *)
Definition digitValue (c : ascii) : option Z :=
  let n := Z.of_nat (nat_of_ascii c) in
  if (48 <=? n) && (n <=? 57) then Some (n - 48)
  else if (97 <=? n) && (n <=? 102) then Some (n - 87)
  else if (65 <=? n) && (n <=? 70) then Some (n - 55)
  else None.

Fixpoint digitsValue (radix acc : Z) (s : string) : option Z :=
  match s with
  | EmptyString => Some acc
  | String c s' =>
      match digitValue c with
      | Some d => if d <? radix then digitsValue radix (acc * radix + d) s'
                  else None
      | None => None
      end
  end.

(** [0x], [0o], [0b] literals: no sign, at least one digit. *)
Definition nonDecimalIntegerLiteral (s : string) : option Z :=
  match s with
  | String "0" (String p (String d ds)) =>
      let body := String d ds in
      if (Ascii.eqb p "x" || Ascii.eqb p "X")%char then digitsValue 16 0 body
      else if (Ascii.eqb p "o" || Ascii.eqb p "O")%char then digitsValue 8 0 body
      else if (Ascii.eqb p "b" || Ascii.eqb p "B")%char then digitsValue 2 0 body
      else None
  | _ => None
  end.

(** Decimal digits with an optional sign, at least one digit. *)
Definition signedInteger (s : string) : option Z :=
  match s with
  | String "+" s' => option_map Z.of_uint (NilZero.uint_of_string s')
  | _ => option_map Z.of_int (NilZero.int_of_string s)
  end.

(** [BigInt(s)] for a string argument ([StringToBigInt]): [None] is the
    thrown [SyntaxError]. *)
Definition BigInt (s : string) : option Z :=
  match trim s with
  | EmptyString => Some 0
  | t =>
      match signedInteger t with
      | Some z => Some z
      | None => nonDecimalIntegerLiteral t
      end
  end.

(** [b.toString()] of a bigint. *)
Definition toString (z : Z) : string := NilZero.string_of_int (Z.to_int z).

(** [s.toLowerCase()] on code units below 256: the letters A-Z and the
    upper-case letters of Latin-1 (192-222 but the multiplication sign). *)
Definition lowerChar (c : ascii) : ascii :=
  let n := nat_of_ascii c in
  if (((65 <=? n) && (n <=? 90))
      || ((192 <=? n) && (n <=? 222) && negb (n =? 215)))%nat
  then ascii_of_nat (n + 32) else c.

Fixpoint toLowerCase (s : string) : string :=
  match s with
  | EmptyString => EmptyString
  | String c s' => String (lowerChar c) (toLowerCase s')
  end.

End Js.
Export Js.


(* ================================================================== *)
(** ** Rows and tables *)
(* ================================================================== *)

(** Status column of [multisettle_signatures]: the four literals the code
    writes and compares. *)
Inductive SignatureStatus : Type := active | exhausted | expired | revoked.

(** Status column of [multisettle_settlements]. *)
Inductive SettlementStatus : Type := pending | success | failed.

Definition SignatureStatus_eqb (a b : SignatureStatus) : bool :=
  match a, b with
  | active, active | exhausted, exhausted
  | expired, expired | revoked, revoked => true
  | _, _ => false
  end.

(** The literal stored in the column, as interpolated into messages. *)
Definition SignatureStatus_literal (s : SignatureStatus) : string :=
  match s with
  | active => "active"
  | exhausted => "exhausted"
  | expired => "expired"
  | revoked => "revoked"
  end.

Module Signature.
(** [MultiSettleSignatureRecord] *)
Record t : Type := mk {
  id : string;
  facilitator_id : string;
  network : string;
  asset : string;
  from_address : string;
  cap_amount : string;
  remaining_amount : string;
  valid_until : Z;
  nonce : string;
  signature : string;
  payment_payload : string;
  status : SignatureStatus;
  deposited : Z
}.

Definition set_status (s : SignatureStatus) (r : t) : t :=
  mk (id r) (facilitator_id r) (network r) (asset r) (from_address r)
     (cap_amount r) (remaining_amount r) (valid_until r) (nonce r)
     (signature r) (payment_payload r) s (deposited r).

Definition set_remaining_amount (v : string) (r : t) : t :=
  mk (id r) (facilitator_id r) (network r) (asset r) (from_address r)
     (cap_amount r) v (valid_until r) (nonce r)
     (signature r) (payment_payload r) (status r) (deposited r).

Definition set_deposited (v : Z) (r : t) : t :=
  mk (id r) (facilitator_id r) (network r) (asset r) (from_address r)
     (cap_amount r) (remaining_amount r) (valid_until r) (nonce r)
     (signature r) (payment_payload r) (status r) v.
End Signature.

Module Settlement.
(** [MultiSettleSettlementRecord] *)
Record t : Type := mk {
  id : string;
  signature_id : string;
  facilitator_id : string;
  pay_to : string;
  amount : string;
  transaction_hash : option string;
  status : SettlementStatus;
  error_message : option string
}.

Definition set_status (s : SettlementStatus) (r : t) : t :=
  mk (id r) (signature_id r) (facilitator_id r) (pay_to r) (amount r)
     (transaction_hash r) s (error_message r).

Definition set_transaction_hash (h : option string) (r : t) : t :=
  mk (id r) (signature_id r) (facilitator_id r) (pay_to r) (amount r)
     h (status r) (error_message r).

Definition set_error_message (e : option string) (r : t) : t :=
  mk (id r) (signature_id r) (facilitator_id r) (pay_to r) (amount r)
     (transaction_hash r) (status r) e.
End Settlement.

(** The two tables behind [getDatabase()]. The module-level handle of the
    code is passed explicitly. *)
Record Database : Type := mkDatabase {
  multisettle_signatures : list Signature.t;
  multisettle_settlements : list Settlement.t
}.

Definition emptyDatabase : Database := mkDatabase [] [].

Definition with_signatures (db : Database) (rows : list Signature.t) : Database :=
  mkDatabase rows (multisettle_settlements db).

Definition with_settlements (db : Database) (rows : list Settlement.t) : Database :=
  mkDatabase (multisettle_signatures db) rows.

Section Tables.
Context {Row : Type}.

(** [UPDATE t SET ... WHERE p]: the rewritten rows. *)
Definition updateWhere (p : Row -> bool) (f : Row -> Row) (rows : list Row)
  : list Row :=
  map (fun r => if p r then f r else r) rows.

(** [result.changes] of that [UPDATE]: the number of matching rows. *)
Definition changes (p : Row -> bool) (rows : list Row) : nat :=
  List.length (filter p rows).
End Tables.

(* ================================================================== *)
(** ** The data layer: db/multisettle.ts *)
(* ================================================================== *)

(** [getMultiSettleSignatureById] *)
Definition getMultiSettleSignatureById (db : Database) (id : string)
  : option Signature.t :=
  find (fun r => String.eqb (Signature.id r) id) (multisettle_signatures db).

(** [getMultiSettleSignatureByNonce] *)
Definition getMultiSettleSignatureByNonce (db : Database)
    (facilitatorId nonce : string) : option Signature.t :=
  find (fun r => String.eqb (Signature.facilitator_id r) facilitatorId
                 && String.eqb (Signature.nonce r) nonce)
       (multisettle_signatures db).

(** Argument of [createMultiSettleSignature]. *)
Record CreateSignatureData : Type := mkCreateSignatureData {
  d_facilitator_id : string;
  d_network : string;
  d_asset : string;
  d_from_address : string;
  d_cap_amount : string;
  d_valid_until : Z;
  d_nonce : string;
  d_signature : string;
  d_payment_payload : string
}.

(** Modelled from the spec: the schema of [multisettle_signatures] lives in
    db/index, which is not among the sources. The spec makes the id the
    identity of a record and the nonce unique per facilitator, so the
    [INSERT] is refused when either is already taken. *)
Definition signatureInsertViolates (db : Database) (id : string)
    (data : CreateSignatureData) : bool :=
  existsb (fun r => String.eqb (Signature.id r) id
                    || (String.eqb (Signature.facilitator_id r) (d_facilitator_id data)
                        && String.eqb (Signature.nonce r) (d_nonce data)))
          (multisettle_signatures db).

(** [createMultiSettleSignature]; [id] is the value [nanoid()] returned.
    A refused [INSERT] throws inside the [try] and the function returns
    [null]. *)
Definition createMultiSettleSignature (db : Database) (id : string)
    (data : CreateSignatureData) : Database * option Signature.t :=
  if signatureInsertViolates db id data then (db, None)
  else
    let row :=
      Signature.mk id (d_facilitator_id data) (d_network data) (d_asset data)
        (toLowerCase (d_from_address data))
        (d_cap_amount data)
        (d_cap_amount data) (* remaining starts equal to cap *)
        (d_valid_until data) (d_nonce data) (d_signature data)
        (d_payment_payload data) active 0 in
    let db' := with_signatures db (multisettle_signatures db ++ [row]) in
    (db', getMultiSettleSignatureById db' id).

(** [UPDATE multisettle_signatures SET ... WHERE id = ?] *)
Definition updateSignatureById (id : string) (f : Signature.t -> Signature.t)
    (db : Database) : Database :=
  with_signatures db
    (updateWhere (fun r => String.eqb (Signature.id r) id) f
                 (multisettle_signatures db)).

(** [decrementRemainingAmount]; [now] is [Math.floor(Date.now() / 1000)]
    as read inside the transaction. A [BigInt] that throws aborts the
    transaction, which by then has written nothing. *)
Definition decrementRemainingAmount (db : Database) (now : Z)
    (signatureId amount : string) : Database * Completion (option Signature.t) :=
  match getMultiSettleSignatureById db signatureId with
  | None => (db, Return None)
  | Some signature =>
      (* Check if signature is still active *)
      if negb (SignatureStatus_eqb (Signature.status signature) active)
      then (db, Return None)
      (* Check if signature has expired *)
      else if Signature.valid_until signature <? now then
        (updateSignatureById signatureId (Signature.set_status expired) db,
         Return None)
      else
        (* Check if there's enough remaining balance *)
        match BigInt (Signature.remaining_amount signature) with
        | None => (db, Throw "SyntaxError")
        | Some remainingBigInt =>
            match BigInt amount with
            | None => (db, Throw "SyntaxError")
            | Some amountBigInt =>
                if amountBigInt >? remainingBigInt then (db, Return None)
                else
                  let newRemaining := toString (remainingBigInt - amountBigInt) in
                  let db1 :=
                    updateSignatureById signatureId
                      (Signature.set_remaining_amount newRemaining) db in
                  (* If remaining is now 0, mark as exhausted *)
                  let db2 :=
                    if String.eqb newRemaining "0"
                    then updateSignatureById signatureId
                           (Signature.set_status exhausted) db1
                    else db1 in
                  (db2, Return (getMultiSettleSignatureById db2 signatureId))
            end
        end
  end.

(** [revokeMultiSettleSignature] *)
Definition revokeMultiSettleSignature (db : Database) (signatureId : string)
  : Database * bool :=
  let p := fun r => String.eqb (Signature.id r) signatureId
                    && SignatureStatus_eqb (Signature.status r) active in
  (with_signatures db
     (updateWhere p (Signature.set_status revoked) (multisettle_signatures db)),
   (0 <? changes p (multisettle_signatures db))%nat).

(** [revokeMultiSettleSignatureByNonce] *)
Definition revokeMultiSettleSignatureByNonce (db : Database)
    (facilitatorId nonce : string) : Database * bool :=
  let p := fun r => String.eqb (Signature.facilitator_id r) facilitatorId
                    && String.eqb (Signature.nonce r) nonce
                    && SignatureStatus_eqb (Signature.status r) active in
  (with_signatures db
     (updateWhere p (Signature.set_status revoked) (multisettle_signatures db)),
   (0 <? changes p (multisettle_signatures db))%nat).

(** [cleanupExpiredSignatures] *)
Definition cleanupExpiredSignatures (db : Database) (now : Z) : Database * nat :=
  let p := fun r => SignatureStatus_eqb (Signature.status r) active
                    && (Signature.valid_until r <? now) in
  (with_signatures db
     (updateWhere p (Signature.set_status expired) (multisettle_signatures db)),
   changes p (multisettle_signatures db)).

(** [markSignatureDeposited] *)
Definition markSignatureDeposited (db : Database) (signatureId : string)
  : Database * bool :=
  let p := fun r => String.eqb (Signature.id r) signatureId in
  (updateSignatureById signatureId (Signature.set_deposited 1) db,
   (0 <? changes p (multisettle_signatures db))%nat).

(** [getMultiSettleSettlementById] *)
Definition getMultiSettleSettlementById (db : Database) (id : string)
  : option Settlement.t :=
  find (fun r => String.eqb (Settlement.id r) id) (multisettle_settlements db).

(** [getSettlementsBySignatureId]: rows are kept in creation order. *)
Definition getSettlementsBySignatureId (db : Database) (signatureId : string)
  : list Settlement.t :=
  filter (fun r => String.eqb (Settlement.signature_id r) signatureId)
         (multisettle_settlements db).

(** [x || null] on an optional string: the empty string is falsy. *)
Definition orNull (x : option string) : option string :=
  match x with
  | Some EmptyString => None
  | _ => x
  end.

(** Argument of [createMultiSettleSettlement]. *)
Record CreateSettlementData : Type := mkCreateSettlementData {
  s_signature_id : string;
  s_facilitator_id : string;
  s_pay_to : string;
  s_amount : string;
  s_transaction_hash : option string;
  s_status : SettlementStatus;
  s_error_message : option string
}.

(** Modelled from the spec: the schema of [multisettle_settlements] is not
    among the sources; the id is the identity of a record, so an [INSERT]
    with an id already present is refused. *)
Definition settlementInsertViolates (db : Database) (id : string) : bool :=
  existsb (fun r => String.eqb (Settlement.id r) id) (multisettle_settlements db).

(** [createMultiSettleSettlement]; [id] is the value [nanoid()] returned. *)
Definition createMultiSettleSettlement (db : Database) (id : string)
    (data : CreateSettlementData) : Database * option Settlement.t :=
  if settlementInsertViolates db id then (db, None)
  else
    let row :=
      Settlement.mk id (s_signature_id data) (s_facilitator_id data)
        (toLowerCase (s_pay_to data)) (s_amount data)
        (orNull (s_transaction_hash data)) (s_status data)
        (orNull (s_error_message data)) in
    let db' := with_settlements db (multisettle_settlements db ++ [row]) in
    (db', getMultiSettleSettlementById db' id).

(** The [SET] clause [updateMultiSettleSettlementStatus] builds: the status
    always, the hash and the message only when given. *)
Definition settlementFields (status : SettlementStatus)
    (transactionHash errorMessage : option string) (r : Settlement.t)
  : Settlement.t :=
  let r1 := Settlement.set_status status r in
  let r2 := match transactionHash with
            | Some h => Settlement.set_transaction_hash (Some h) r1
            | None => r1
            end in
  match errorMessage with
  | Some e => Settlement.set_error_message (Some e) r2
  | None => r2
  end.

(** [updateMultiSettleSettlementStatus]; an absent optional argument
    ([undefined]) is [None]. *)
Definition updateMultiSettleSettlementStatus (db : Database) (id : string)
    (status : SettlementStatus) (transactionHash errorMessage : option string)
  : Database * option Settlement.t :=
  let p := fun r => String.eqb (Settlement.id r) id in
  let db' :=
    with_settlements db
      (updateWhere p (settlementFields status transactionHash errorMessage)
                   (multisettle_settlements db)) in
  if (changes p (multisettle_settlements db) =? 0)%nat then (db', None)
  else (db', getMultiSettleSettlementById db' id).

(* ================================================================== *)
(** ** Handlers: state, effects, responses *)
(* ================================================================== *)

(** What a handler run does to the outside, in order. Database effects
    carry whether the call succeeded. [ChainDeposit] is the call of
    [executeERC3009Settlement], whose code is not among the sources; the
    other chain effects are the requests of the route's own helpers that
    reach the network: a call that throws before it sends anything leaves
    no effect. *)
Inductive Effect : Type :=
| VerifySignature
| DbCreateSignature (id : string) (ok : bool)
| DbReserve (signatureId amount : string) (ok : bool)
| DbCreateSettlement (id : string) (status : SettlementStatus) (ok : bool)
| DbUpdateSettlement (id : string) (status : SettlementStatus)
                     (transactionHash errorMessage : option string)
| DbMarkDeposited (signatureId : string)
| DbRevoke (signatureId : string) (ok : bool)
| ChainDeposit (asset : string)
| ChainBalanceOf (asset owner : string)
| ChainTransfer (asset to amount : string)
| ChainGasPrice.

Definition isChainCall (e : Effect) : bool :=
  match e with
  | ChainDeposit _ | ChainBalanceOf _ _ | ChainTransfer _ _ _
  | ChainGasPrice => true
  | _ => false
  end.

(** The JSON body and status code given to [res]. Keys that a response
    does not set are [None]; the [details] of a schema failure are left
    out. *)
Record Response : Type := mkResponse {
  statusCode : Z;
  r_success : bool;
  errorMessage : option string;
  authorizationId : option string;
  capAmount : option string;
  remainingAmount : option string;
  validUntil : option Z;
  r_nonce : option string;
  r_deposited : option bool;
  transactionHash : option string;
  r_network : option string
}.

(** [res.status(code).json({ success: false, errorMessage, remainingAmount?, network? })] *)
Definition failure (code : Z) (message : option string)
    (remaining network : option string) : Response :=
  mkResponse code false message None None remaining None None None None network.

Module Handler.

Record World : Type := mkWorld {
  db : Database;
  trace : list Effect
}.

(** A handler either goes on with a value, has sent its response and
    returned, or is unwinding with a thrown error. *)
Inductive Step (A : Type) : Type :=
| Next (a : A)
| Responded (r : Response)
| Thrown (message : string).
Arguments Next {A} a.
Arguments Responded {A} r.
Arguments Thrown {A} message.

Definition M (A : Type) : Type := World -> World * Step A.

Definition ret {A} (a : A) : M A := fun w => (w, Next a).

Definition bind {A B} (m : M A) (k : A -> M B) : M B :=
  fun w =>
    match m w with
    | (w', Next a) => k a w'
    | (w', Responded r) => (w', Responded r)
    | (w', Thrown e) => (w', Thrown e)
    end.

(** [res.json(r); return;] *)
Definition respond {A} (r : Response) : M A := fun w => (w, Responded r).

Definition throw {A} (message : string) : M A := fun w => (w, Thrown message).

(** [try { body } catch (error) { handler }] *)
Definition tryCatch {A} (body : M A) (handler : string -> M A) : M A :=
  fun w =>
    match body w with
    | (w', Thrown e) => handler e w'
    | other => other
    end.

Definition emit (e : Effect) : M unit :=
  fun w => (mkWorld (db w) (trace w ++ [e]), Next tt).

Definition getDatabase : M Database := fun w => (w, Next (db w)).

Definition putDatabase (d : Database) : M unit :=
  fun w => (mkWorld d (trace w), Next tt).

(** A value computed by a call that may throw. *)
Definition ofCompletion {A} (c : Completion A) : M A :=
  match c with
  | Return a => ret a
  | Throw e => throw e
  end.

(** [BigInt(s)] as a handler step. *)
Definition bigInt (s : string) : M Z :=
  match BigInt s with
  | Some z => ret z
  | None => throw ("Cannot convert " ++ s ++ " to a BigInt")
  end.

(** The run of a whole handler on a database: the database it leaves,
    the response it sent if any, and its effects in order. *)
Definition run (h : M unit) (d : Database)
  : Database * option Response * list Effect :=
  match h (mkWorld d []) with
  | (w, Responded r) => (db w, Some r, trace w)
  | (w, _) => (db w, None, trace w)
  end.

End Handler.

Notation "x <- m ;; k" := (Handler.bind m (fun x => k))
  (at level 61, m at next level, right associativity).
Notation "m ;;; k" := (Handler.bind m (fun _ => k))
  (at level 61, right associativity).

(** [`${x}`] of an optional string. *)
Definition interpolate (x : option string) : string :=
  match x with
  | Some s => s
  | None => "undefined"
  end.

(** [x || fallback] on an optional string. *)
Definition orElse (x : option string) (fallback : string) : string :=
  match orNull x with
  | Some s => s
  | None => fallback
  end.

(** [req.facilitator], the fields the handlers read. *)
Record FacilitatorRecord : Type := mkFacilitatorRecord {
  fr_id : string;
  encrypted_private_key : option string
}.

(* ================================================================== *)
(** ** The multi-settle router *)
(* ================================================================== *)

(** The value of [networkToChainId[network]]: an own key, a member
    inherited from [Object.prototype] (truthy, and no key of
    [chainConfigs]), or [undefined]. *)
Inductive ChainIdLookup : Type :=
| OwnChainId (chainId : Z)
| InheritedMember
| Undefined.

Definition isObjectPrototypeMember (k : string) : bool :=
  existsb (String.eqb k)
    ["constructor"; "__proto__"; "hasOwnProperty"; "isPrototypeOf";
     "propertyIsEnumerable"; "toLocaleString"; "toString"; "valueOf";
     "__defineGetter__"; "__defineSetter__"; "__lookupGetter__";
     "__lookupSetter__"].

Definition networkToChainId (network : string) : ChainIdLookup :=
  if String.eqb network "base" then OwnChainId 8453
  else if String.eqb network "base-sepolia" then OwnChainId 84532
  else if String.eqb network "ethereum" then OwnChainId 1
  else if String.eqb network "sepolia" then OwnChainId 11155111
  else if isObjectPrototypeMember network then InheritedMember
  else Undefined.

(** Whether [chainConfigs[chainId]] is defined. *)
Definition chainConfigs (chainId : ChainIdLookup) : bool :=
  match chainId with
  | OwnChainId n =>
      (n =? 8453) || (n =? 84532) || (n =? 1) || (n =? 11155111)
  | _ => false
  end.

(** What [extractAuthorizationFromPayload] returns. *)
Record AuthDetails : Type := mkAuthDetails {
  a_signature : string;
  a_from : string;
  a_to : string;
  a_nonce : string;
  a_value : string
}.

(** [{ success, transactionHash?, errorMessage? }] of a chain operation. *)
Record ChainResult : Type := mkChainResult {
  c_success : bool;
  c_transactionHash : option string;
  c_errorMessage : option string
}.

(** The receipt the transfer waits for: the hash and whether
    [receipt.status === 'success']. *)
Record Receipt : Type := mkReceipt {
  receipt_hash : string;
  receipt_success : bool
}.

(** Answers of the outside world during one run of [/settle]. *)
Record SettleEnv : Type := mkSettleEnv {
  (** [Math.floor(Date.now() / 1000)] read by the route *)
  now_route : Z;
  (** the same clock read inside [decrementRemainingAmount] *)
  now_reserve : Z;
  decryptPrivateKey : string -> Completion string;
  (** [privateKeyToAccount(key).address] *)
  privateKeyToAccount : string -> Completion string;
  (** [nanoid()] for the settlement row *)
  settlement_nanoid : string;
  (** [extractAuthorizationFromPayload]: base64 and JSON decoding *)
  extractFromStored : string -> option AuthDetails;
  (** [executeERC3009Settlement] *)
  executeERC3009Settlement : Completion ChainResult;
  (** [publicClient.readContract] of [balanceOf], once its request is
      sent *)
  readBalanceOf : Completion Z;
  (** [sendTransaction], once its request is sent, and
      [waitForTransactionReceipt] *)
  sendAndWait : Completion Receipt;
  (** [publicClient.readContract] before it sends anything: the call is
      encoded and the token and owner addresses are checked, and a
      malformed one throws here *)
  prepareReadContract : string -> string -> Completion unit;
  (** [encodeFunctionData] of [transfer(to, value)]: the call data, or the
      error thrown on a malformed recipient or a value that is no
      [uint256] *)
  encodeFunctionData : string -> Z -> Completion string;
  (** [publicClient.getGasPrice()] *)
  getGasPrice : Completion Z;
  (** [walletClient.sendTransaction] before it sends anything: the check
      of the request, which throws on a malformed token address *)
  prepareSendTransaction : string -> Completion unit;
  (** the text of [`${chainId}`] when [chainId] is a member inherited from
      [Object.prototype] *)
  inheritedMemberText : string
}.

(** [`${chainId}`]. An own chain id is one of the numbers of
    [networkToChainId], whose text is its decimal. *)
Definition chainIdText (env : SettleEnv) (chainId : ChainIdLookup) : string :=
  match chainId with
  | OwnChainId n => toString n
  | InheritedMember => inheritedMemberText env
  | Undefined => "undefined"
  end.

(** [transferTokens]. Inside the [try], the account, the amount and the
    call data are computed first, then the gas price is read, and only
    then is the transaction sent; whatever throws on the way is reported
    as a failure with its message. *)
Definition transferTokens (env : SettleEnv) (chainId : ChainIdLookup)
    (tokenAddress to amount facilitatorPrivateKey : string)
  : Handler.M ChainResult :=
  if negb (chainConfigs chainId) then
    Handler.ret (mkChainResult false None
                   (Some ("Unsupported chain ID: " ++ chainIdText env chainId)))
  else
    Handler.tryCatch
      (account <- Handler.ofCompletion
                    (privateKeyToAccount env facilitatorPrivateKey) ;;
       (* Encode transfer function data *)
       value <- Handler.bigInt amount ;;
       data <- Handler.ofCompletion (encodeFunctionData env to value) ;;
       (* Get gas price *)
       Handler.emit ChainGasPrice ;;;
       gasPrice <- Handler.ofCompletion (getGasPrice env) ;;
       (* Send transaction *)
       Handler.ofCompletion (prepareSendTransaction env tokenAddress) ;;;
       Handler.emit (ChainTransfer tokenAddress to amount) ;;;
       (* Wait for confirmation *)
       receipt <- Handler.ofCompletion (sendAndWait env) ;;
       if receipt_success receipt
       then Handler.ret (mkChainResult true (Some (receipt_hash receipt)) None)
       else Handler.ret (mkChainResult false (Some (receipt_hash receipt))
                           (Some "Transaction reverted")))
      (fun message => Handler.ret (mkChainResult false None (Some message))).

(** [checkFacilitatorBalance]: [(sufficient, balance)] *)
Definition checkFacilitatorBalance (env : SettleEnv) (chainId : ChainIdLookup)
    (tokenAddress facilitatorAddress requiredAmount : string)
  : Handler.M (bool * string) :=
  if negb (chainConfigs chainId) then Handler.ret (false, "0")
  else
    Handler.tryCatch
      (Handler.ofCompletion
         (prepareReadContract env tokenAddress facilitatorAddress) ;;;
       Handler.emit (ChainBalanceOf tokenAddress facilitatorAddress) ;;;
       balance <- Handler.ofCompletion (readBalanceOf env) ;;
       let balanceStr := toString balance in
       have <- Handler.bigInt balanceStr ;;
       need <- Handler.bigInt requiredAmount ;;
       Handler.ret (have >=? need, balanceStr))
      (fun _ => Handler.ret (false, "0")).

(** The data-layer calls as handler steps. *)
Definition reserve (now : Z) (signatureId amount : string)
  : Handler.M (option Signature.t) :=
  d <- Handler.getDatabase ;;
  let '(d', result) := decrementRemainingAmount d now signatureId amount in
  Handler.putDatabase d' ;;;
  match result with
  | Return updated =>
      Handler.emit (DbReserve signatureId amount
                      (match updated with Some _ => true | None => false end)) ;;;
      Handler.ret updated
  | Throw e => Handler.throw e
  end.

Definition createSettlement (id : string) (data : CreateSettlementData)
  : Handler.M (option Settlement.t) :=
  d <- Handler.getDatabase ;;
  let '(d', created) := createMultiSettleSettlement d id data in
  Handler.putDatabase d' ;;;
  Handler.emit (DbCreateSettlement id (s_status data)
                  (match created with Some _ => true | None => false end)) ;;;
  Handler.ret created.

Definition updateSettlementStatus (id : string) (status : SettlementStatus)
    (transactionHash errorMessage : option string) : Handler.M unit :=
  d <- Handler.getDatabase ;;
  Handler.putDatabase
    (fst (updateMultiSettleSettlementStatus d id status transactionHash errorMessage)) ;;;
  Handler.emit (DbUpdateSettlement id status transactionHash errorMessage).

Definition markDeposited (signatureId : string) : Handler.M unit :=
  d <- Handler.getDatabase ;;
  Handler.putDatabase (fst (markSignatureDeposited d signatureId)) ;;;
  Handler.emit (DbMarkDeposited signatureId).

(** Parsed body of [POST /settle] ([settleRequestSchema]). *)
Record SettleRequest : Type := mkSettleRequest {
  q_authorizationId : string;
  q_payTo : string;
  q_amount : string
}.


(** The part of [/settle] inside the inner [try]: deposit on the first
    settlement, balance preflight, transfer. [signature] is the row read at
    the start of the route, [updatedSignature] the row the reservation
    returned. *)
Definition settleOnChain (env : SettleEnv) (chainId : ChainIdLookup)
    (facilitatorAddress privateKey : string) (parsed : SettleRequest)
    (signature updatedSignature : Signature.t) (settlement : Settlement.t)
  : Handler.M unit :=
  let authorizationId := q_authorizationId parsed in
  let payTo := q_payTo parsed in
  let amount := q_amount parsed in
  (* Check if this is the first settlement (needs to deposit funds first) *)
  let needsDeposit := Signature.deposited signature =? 0 in
  (if needsDeposit then
     match extractFromStored env (Signature.payment_payload signature) with
     | None =>
         updateSettlementStatus (Settlement.id settlement) failed None
           (Some "Failed to extract authorization") ;;;
         Handler.respond
           (failure 500 (Some "Failed to extract authorization from stored payload")
              None None)
     | Some authDetails =>
         Handler.emit (ChainDeposit (Signature.asset signature)) ;;;
         depositResult <- Handler.ofCompletion (executeERC3009Settlement env) ;;
         if negb (c_success depositResult) then
           updateSettlementStatus (Settlement.id settlement) failed None
             (c_errorMessage depositResult) ;;;
           Handler.respond
             (failure 400
                (Some ("Failed to deposit funds: "
                       ++ interpolate (c_errorMessage depositResult)))
                (Some (Signature.remaining_amount updatedSignature))
                (Some (Signature.network signature)))
         else
           (* Mark the signature as deposited *)
           markDeposited authorizationId
     end
   else Handler.ret tt) ;;;
  (* Check facilitator has sufficient balance *)
  balanceCheck <- checkFacilitatorBalance env chainId (Signature.asset signature)
                    facilitatorAddress amount ;;
  if negb (fst balanceCheck) then
    updateSettlementStatus (Settlement.id settlement) failed None
      (Some ("Insufficient facilitator balance: " ++ snd balanceCheck
             ++ " < " ++ amount)) ;;;
    Handler.respond
      (failure 400 (Some "Facilitator has insufficient balance for transfer")
         (Some (Signature.remaining_amount updatedSignature))
         (Some (Signature.network signature)))
  else
    (* Transfer to payTo *)
    transferResult <- transferTokens env chainId (Signature.asset signature)
                        payTo amount privateKey ;;
    if c_success transferResult then
      updateSettlementStatus (Settlement.id settlement) success
        (c_transactionHash transferResult) None ;;;
      Handler.respond
        (mkResponse 200 true None None None
           (Some (Signature.remaining_amount updatedSignature))
           None None None (c_transactionHash transferResult)
           (Some (Signature.network signature)))
    else
      updateSettlementStatus (Settlement.id settlement) failed None
        (c_errorMessage transferResult) ;;;
      Handler.respond
        (failure 400 (c_errorMessage transferResult)
           (Some (Signature.remaining_amount updatedSignature))
           (Some (Signature.network signature))).

(** [router.post('/settle', ...)]; [body] is the result of
    [settleRequestSchema.safeParse], [None] when it fails. *)
Definition settleHandler (env : SettleEnv) (record : FacilitatorRecord)
    (body : option SettleRequest) : Handler.M unit :=
  Handler.tryCatch
    (match body with
     | None => Handler.respond (failure 400 (Some "Invalid request") None None)
     | Some parsed =>
       let authorizationId := q_authorizationId parsed in
       let payTo := q_payTo parsed in
       let amount := q_amount parsed in
       d <- Handler.getDatabase ;;
       (* Get the multi-settle signature *)
       match getMultiSettleSignatureById d authorizationId with
       | None =>
           Handler.respond (failure 404 (Some "Authorization not found") None None)
       | Some signature =>
         (* Verify this facilitator owns the authorization *)
         if negb (String.eqb (Signature.facilitator_id signature) (fr_id record)) then
           Handler.respond
             (failure 403 (Some "Authorization does not belong to this facilitator")
                None None)
         (* Check if signature is still active *)
         else if negb (SignatureStatus_eqb (Signature.status signature) active) then
           Handler.respond
             (failure 400
                (Some ("Authorization is "
                       ++ SignatureStatus_literal (Signature.status signature)))
                (Some (Signature.remaining_amount signature)) None)
         (* Check if signature has expired *)
         else if Signature.valid_until signature <? now_route env then
           Handler.respond
             (failure 400 (Some "Authorization has expired")
                (Some (Signature.remaining_amount signature)) None)
         else
           (* Check if amount exceeds remaining balance *)
           remainingBigInt <- Handler.bigInt (Signature.remaining_amount signature) ;;
           amountBigInt <- Handler.bigInt amount ;;
           if amountBigInt >? remainingBigInt then
             Handler.respond
               (failure 400
                  (Some ("Amount " ++ amount ++ " exceeds remaining balance "
                         ++ Signature.remaining_amount signature))
                  (Some (Signature.remaining_amount signature)) None)
           else if amountBigInt <=? 0 then
             Handler.respond
               (failure 400 (Some "Amount must be greater than 0")
                  (Some (Signature.remaining_amount signature)) None)
           else
             (* Get chain ID *)
             match networkToChainId (Signature.network signature) with
             | Undefined =>
                 Handler.respond
                   (failure 400
                      (Some ("Unsupported network: " ++ Signature.network signature))
                      None None)
             | chainId =>
               (* Check for Solana (not yet supported) *)
               let isSolanaNetwork :=
                 String.eqb (Signature.network signature) "solana"
                 || String.eqb (Signature.network signature) "solana-mainnet"
                 || String.eqb (Signature.network signature) "solana-devnet" in
               if isSolanaNetwork then
                 Handler.respond
                   (failure 400 (Some "Multi-settle for Solana is not yet supported")
                      None None)
               (* Get EVM private key *)
               else match orNull (encrypted_private_key record) with
               | None =>
                 Handler.respond
                   (failure 400 (Some "EVM wallet not configured") None None)
               | Some encrypted =>
                 privateKey <-
                   Handler.tryCatch
                     (Handler.ofCompletion (decryptPrivateKey env encrypted))
                     (fun _ =>
                        Handler.respond
                          (failure 500 (Some "Failed to decrypt wallet") None None)) ;;
                 facilitatorAddress <-
                   Handler.ofCompletion (privateKeyToAccount env privateKey) ;;
                 (* Atomically decrement the remaining amount FIRST *)
                 updated <- reserve (now_reserve env) authorizationId amount ;;
                 match updated with
                 | None =>
                     Handler.respond
                       (failure 400
                          (Some "Failed to reserve amount - insufficient balance or authorization is no longer active")
                          (Some (Signature.remaining_amount signature)) None)
                 | Some updatedSignature =>
                   (* Create a settlement record *)
                   created <-
                     createSettlement (settlement_nanoid env)
                       (mkCreateSettlementData authorizationId (fr_id record)
                          payTo amount None pending None) ;;
                   match created with
                   | None =>
                       Handler.respond
                         (failure 500
                            (Some "Internal error creating settlement record")
                            None None)
                   | Some settlement =>
                       Handler.tryCatch
                         (settleOnChain env chainId facilitatorAddress privateKey
                            parsed signature updatedSignature settlement)
                         (fun errorMessage =>
                            updateSettlementStatus (Settlement.id settlement)
                              failed None (Some errorMessage) ;;;
                            Handler.respond
                              (failure 500 (Some errorMessage)
                                 (Some (Signature.remaining_amount updatedSignature))
                                 (Some (Signature.network signature))))
                   end
                 end
               end
             end
       end
     end)
    (fun _ =>
       Handler.respond (failure 500 (Some "Internal server error") None None)).

(** One run of [POST /settle] on a database. *)
Definition settle (env : SettleEnv) (record : FacilitatorRecord)
    (body : option SettleRequest) (d : Database)
  : Database * option Response * list Effect :=
  Handler.run (settleHandler env record body) d.

(** [paymentRequirementsSchema], the keys the route reads or forwards. *)
Record PaymentRequirements : Type := mkPaymentRequirements {
  pr_scheme : string;
  pr_network : string;
  pr_maxAmountRequired : string;
  pr_resource : string;
  pr_asset : string
}.

(** [paymentPayload] is a string or an object. An object is carried with
    the base64 of its JSON text, which [normalizePaymentPayload] computes. *)
Inductive PaymentPayload : Type :=
| PayloadString (s : string)
| PayloadObject (base64OfJson : string).

(** [normalizePaymentPayload] *)
Definition normalizePaymentPayload (payload : PaymentPayload) : string :=
  match payload with
  | PayloadString s => s
  | PayloadObject b => b
  end.

(** Parsed body of [POST /authorize] ([authorizeRequestSchema]). *)
Record AuthorizeRequest : Type := mkAuthorizeRequest {
  q_paymentPayload : PaymentPayload;
  q_paymentRequirements : PaymentRequirements;
  q_capAmount : string;
  q_validUntil : Z
}.

(** [{ valid, invalidReason? }] of [facilitator.verify]. *)
Record Verification : Type := mkVerification {
  valid : bool;
  invalidReason : option string
}.

(** Answers of the outside world during one run of [/authorize]. *)
Record AuthorizeEnv : Type := mkAuthorizeEnv {
  (** building the facilitator from the record and [facilitator.verify] *)
  verify : string -> PaymentRequirements -> Completion Verification;
  (** [extractAuthorizationFromPayload]: base64 and JSON decoding *)
  extractAuthorizationFromPayload : string -> option AuthDetails;
  (** [Math.floor(Date.now() / 1000)] *)
  now_authorize : Z;
  (** [nanoid()] for the signature row *)
  signature_nanoid : string
}.

Definition with_maxAmountRequired (r : PaymentRequirements) (v : string)
  : PaymentRequirements :=
  mkPaymentRequirements (pr_scheme r) (pr_network r) v (pr_resource r) (pr_asset r).

(** The success body of [/authorize]. *)
Definition authorized (r : Signature.t) (isDeposited : bool) : Response :=
  mkResponse 200 true None (Some (Signature.id r)) (Some (Signature.cap_amount r))
    (Some (Signature.remaining_amount r)) (Some (Signature.valid_until r))
    (Some (Signature.nonce r)) (Some isDeposited) None None.

(** [router.post('/authorize', ...)] *)
Definition authorizeHandler (env : AuthorizeEnv) (record : FacilitatorRecord)
    (body : option AuthorizeRequest) : Handler.M unit :=
  Handler.tryCatch
    (match body with
     | None => Handler.respond (failure 400 (Some "Invalid request") None None)
     | Some parsed =>
       let paymentRequirements := q_paymentRequirements parsed in
       let capAmount := q_capAmount parsed in
       let validUntil := q_validUntil parsed in
       let paymentPayload := normalizePaymentPayload (q_paymentPayload parsed) in
       (* Verify the payment signature is valid *)
       let verifyRequirements := with_maxAmountRequired paymentRequirements capAmount in
       Handler.emit VerifySignature ;;;
       verification <- Handler.ofCompletion (verify env paymentPayload verifyRequirements) ;;
       if negb (valid verification) then
         Handler.respond
           (failure 400 (Some (orElse (invalidReason verification) "Invalid signature"))
              None None)
       else
         (* Extract authorization details *)
         match extractAuthorizationFromPayload env paymentPayload with
         | None =>
             Handler.respond
               (failure 400 (Some "Failed to extract authorization from payload")
                  None None)
         | Some authDetails =>
           d <- Handler.getDatabase ;;
           (* Check if this nonce was already used *)
           match getMultiSettleSignatureByNonce d (fr_id record) (a_nonce authDetails) with
           | Some existingAuth =>
               (* Return the existing authorization if still active *)
               if SignatureStatus_eqb (Signature.status existingAuth) active then
                 Handler.respond
                   (authorized existingAuth (Signature.deposited existingAuth =? 1))
               else
                 Handler.respond
                   (failure 400
                      (Some ("Authorization with this nonce already exists and is "
                             ++ SignatureStatus_literal (Signature.status existingAuth)))
                      None None)
           | None =>
             (* Validate validUntil is in the future *)
             if validUntil <=? now_authorize env then
               Handler.respond
                 (failure 400 (Some "validUntil must be in the future") None None)
             (* Validate capAmount matches the authorization value *)
             else if negb (String.eqb (a_value authDetails) capAmount) then
               Handler.respond
                 (failure 400
                    (Some ("Cap amount (" ++ capAmount
                           ++ ") must match authorization value ("
                           ++ a_value authDetails ++ ")"))
                    None None)
             else
               (* Create the multi-settle signature record *)
               let '(d', created) :=
                 createMultiSettleSignature d (signature_nanoid env)
                   (mkCreateSignatureData (fr_id record)
                      (pr_network paymentRequirements)
                      (pr_asset paymentRequirements)
                      (a_from authDetails) capAmount validUntil
                      (a_nonce authDetails) (a_signature authDetails)
                      paymentPayload) in
               Handler.putDatabase d' ;;;
               Handler.emit (DbCreateSignature (signature_nanoid env)
                               (match created with Some _ => true | None => false end)) ;;;
               match created with
               | None =>
                   Handler.respond
                     (failure 500 (Some "Failed to create authorization") None None)
               | Some signature => Handler.respond (authorized signature false)
               end
           end
         end
     end)
    (fun _ =>
       Handler.respond (failure 500 (Some "Internal server error") None None)).

(** One run of [POST /authorize] on a database. *)
Definition authorize (env : AuthorizeEnv) (record : FacilitatorRecord)
    (body : option AuthorizeRequest) (d : Database)
  : Database * option Response * list Effect :=
  Handler.run (authorizeHandler env record body) d.

(** [router.post('/revoke', ...)]; [body] is the parsed authorization id,
    [None] when [revokeRequestSchema] rejects the body. *)
Definition revokeHandler (record : FacilitatorRecord) (body : option string)
  : Handler.M unit :=
  Handler.tryCatch
    (match body with
     | None => Handler.respond (failure 400 (Some "Invalid request") None None)
     | Some authorizationId =>
       d <- Handler.getDatabase ;;
       match getMultiSettleSignatureById d authorizationId with
       | None =>
           Handler.respond (failure 404 (Some "Authorization not found") None None)
       | Some signature =>
         if negb (String.eqb (Signature.facilitator_id signature) (fr_id record)) then
           Handler.respond
             (failure 403 (Some "Authorization does not belong to this facilitator")
                None None)
         (* Check if already inactive *)
         else if negb (SignatureStatus_eqb (Signature.status signature) active) then
           Handler.respond
             (failure 400
                (Some ("Authorization is already "
                       ++ SignatureStatus_literal (Signature.status signature)))
                None None)
         else
           let '(d', ok) := revokeMultiSettleSignature d authorizationId in
           Handler.putDatabase d' ;;;
           Handler.emit (DbRevoke authorizationId ok) ;;;
           if negb ok then
             Handler.respond
               (failure 500 (Some "Failed to revoke authorization") None None)
           else
             Handler.respond
               (mkResponse 200 true None None None
                  (Some (Signature.remaining_amount signature)) None None
                  (Some (Signature.deposited signature =? 1)) None None)
       end
     end)
    (fun _ =>
       Handler.respond (failure 500 (Some "Internal server error") None None)).

(** One run of [POST /revoke] on a database. *)
Definition revoke (record : FacilitatorRecord) (body : option string)
    (d : Database) : Database * option Response * list Effect :=
  Handler.run (revokeHandler record body) d.

(* ================================================================== *)
(** ** Sequences of store operations *)
(* ================================================================== *)

(** The calls of the data layer that write [multisettle_signatures]. *)
Inductive StoreOp : Type :=
| OpCreate (id : string) (data : CreateSignatureData)
| OpReserve (now : Z) (signatureId amount : string)
| OpRevoke (signatureId : string)
| OpRevokeByNonce (facilitatorId nonce : string)
| OpMarkDeposited (signatureId : string)
| OpCleanupExpired (now : Z).

Definition applyOp (d : Database) (op : StoreOp) : Database :=
  match op with
  | OpCreate id data => fst (createMultiSettleSignature d id data)
  | OpReserve now signatureId amount =>
      fst (decrementRemainingAmount d now signatureId amount)
  | OpRevoke signatureId => fst (revokeMultiSettleSignature d signatureId)
  | OpRevokeByNonce facilitatorId nonce =>
      fst (revokeMultiSettleSignatureByNonce d facilitatorId nonce)
  | OpMarkDeposited signatureId => fst (markSignatureDeposited d signatureId)
  | OpCleanupExpired now => fst (cleanupExpiredSignatures d now)
  end.

Definition applyOps (d : Database) (ops : list StoreOp) : Database :=
  fold_left applyOp ops d.

(** The amount [op] reserves on authorization [id] when run on [d]: the
    amount of a [decrementRemainingAmount] that returned a record, zero
    for everything else. *)
Definition reservedBy (d : Database) (op : StoreOp) (id : string) : Z :=
  match op with
  | OpReserve now signatureId amount =>
      if String.eqb signatureId id then
        match snd (decrementRemainingAmount d now signatureId amount), BigInt amount with
        | Return (Some _), Some a => a
        | _, _ => 0
        end
      else 0
  | _ => 0
  end.

(** Sum of the amounts reserved on [id] along a run of [ops] from [d]. *)
Fixpoint reservedTotal (d : Database) (ops : list StoreOp) (id : string) : Z :=
  match ops with
  | [] => 0
  | op :: rest => reservedBy d op id + reservedTotal (applyOp d op) rest id
  end.

(** Operations with the amounts the routes let through: a cap that reads
    as a non-negative integer, a reserved amount that is not negative. *)
Definition nonNegativeOp (op : StoreOp) : bool :=
  match op with
  | OpCreate _ data =>
      match BigInt (d_cap_amount data) with
      | Some c => 0 <=? c
      | None => false
      end
  | OpReserve _ _ amount =>
      match BigInt amount with
      | Some a => 0 <=? a
      | None => true
      end
  | _ => true
  end.

(** The row [decrementRemainingAmount] writes for a granted amount. *)
Definition reservedRow (remaining amount : Z) (r : Signature.t) : Signature.t :=
  let r1 := Signature.set_remaining_amount (toString (remaining - amount)) r in
  if remaining - amount =? 0 then Signature.set_status exhausted r1 else r1.

(** Fields that no store operation writes. *)
Definition sameTerms (r r' : Signature.t) : Prop :=
  Signature.id r' = Signature.id r
  /\ Signature.facilitator_id r' = Signature.facilitator_id r
  /\ Signature.cap_amount r' = Signature.cap_amount r.

(** One operation seen from one row, [x] being the amount the operation
    reserved on it. Either the remaining amount is untouched and nothing
    was reserved, a row that is not active keeping its status too; or the
    row was active and [x], within the remaining amount, was taken off. *)
Definition rowStep (r r' : Signature.t) (x : Z) : Prop :=
  sameTerms r r'
  /\ ((Signature.remaining_amount r' = Signature.remaining_amount r
       /\ x = 0
       /\ (Signature.status r <> active ->
           Signature.status r' = Signature.status r))
      \/ (Signature.status r = active
          /\ exists remaining,
               BigInt (Signature.remaining_amount r) = Some remaining
               /\ x <= remaining
               /\ BigInt (Signature.remaining_amount r') = Some (remaining - x))).

(** The primary key: no two rows share an id. *)
Definition uniqueIds (d : Database) : Prop :=
  NoDup (map Signature.id (multisettle_signatures d)).

(** The ledger behind the cap: on every row the remaining amount and the
    cap read as integers, the remaining amount is not negative, and the
    amounts [g] reserved so far plus the remaining amount make the cap; on
    an id without a row nothing was reserved. *)
Definition ledgerInv (d : Database) (g : string -> Z) : Prop :=
  forall id,
    match getMultiSettleSignatureById d id with
    | Some r =>
        exists remaining cap,
          BigInt (Signature.remaining_amount r) = Some remaining
          /\ BigInt (Signature.cap_amount r) = Some cap
          /\ 0 <= remaining
          /\ 0 <= g id
          /\ g id + remaining = cap
    | None => g id = 0
    end.



(** Rows used in the examples below. *)
Definition sampleSignature (id nonce cap remaining : string) (validUntil : Z)
    (st : SignatureStatus) (dep : Z) : Signature.t :=
  Signature.mk id "fac_1" "base" "0xusdc" "0xpayer" cap remaining validUntil
    nonce "0xsig" "payload" st dep.

Definition sampleDatabase (r : Signature.t) : Database := mkDatabase [r] [].

Definition sampleDetails : AuthDetails :=
  mkAuthDetails "0xsig" "0xpayer" "0xfacilitator" "0xn1" "200".

(** A settle environment at time 500 whose wallet decrypts, whose
    addresses are well formed and whose gas price reads, with the given
    outcomes of the deposit, the balance read and the transfer. *)
Definition sampleSettleEnv (deposit : Completion ChainResult)
    (balance : Completion Z) (transfer : Completion Receipt) : SettleEnv :=
  mkSettleEnv 500 500 (fun _ => Return "0xkey") (fun _ => Return "0xfacilitator")
    "stl_1" (fun _ => Some sampleDetails) deposit balance transfer
    (fun _ _ => Return tt) (fun _ _ => Return "0xa9059cbb") (Return 1)
    (fun _ => Return tt) "function Object() { [native code] }".

Definition sampleRecord : FacilitatorRecord :=
  mkFacilitatorRecord "fac_1" (Some "encrypted").

Definition sampleAuthorizeEnv (now : Z) (id : string) : AuthorizeEnv :=
  mkAuthorizeEnv (fun _ _ => Return (mkVerification true None))
    (fun _ => Some sampleDetails) now id.

Definition sampleAuthorizeRequest (cap : string) (validUntil : Z)
  : AuthorizeRequest :=
  mkAuthorizeRequest (PayloadString "payload")
    (mkPaymentRequirements "exact" "base" cap "" "0xusdc") cap validUntil.

(** The row a reservation reads after the deposit mark: the same but for
    [deposited]. *)
Definition markedRow (id : string) (r : Signature.t) : Signature.t :=
  if String.eqb (Signature.id r) id then Signature.set_deposited 1 r else r.

(* ================================================================== *)
(** ** Sequences of requests *)
(* ================================================================== *)

(** A request to one of the routes that write, with the facilitator the
    middleware resolved and the answers of the outside world during its
    run. *)
Inductive Request : Type :=
| PostAuthorize (env : AuthorizeEnv) (record : FacilitatorRecord)
    (body : option AuthorizeRequest)
| PostSettle (env : SettleEnv) (record : FacilitatorRecord)
    (body : option SettleRequest)
| PostRevoke (record : FacilitatorRecord) (body : option string).

(** The database a request leaves. *)
Definition serve (d : Database) (q : Request) : Database :=
  match q with
  | PostAuthorize env record body => fst (fst (authorize env record body d))
  | PostSettle env record body => fst (fst (settle env record body d))
  | PostRevoke record body => fst (fst (revoke record body d))
  end.

(** Requests served one after the other, each run to its end before the
    next one starts. *)
Definition serveAll (d : Database) (qs : list Request) : Database :=
  fold_left serve qs d.

(** The amount of a settlement row as an integer, 0 when it does not read
    as one. *)
Definition settledAmount (s : Settlement.t) : Z :=
  match BigInt (Settlement.amount s) with
  | Some a => a
  | None => 0
  end.

Definition sumAmounts (rows : list Settlement.t) : Z :=
  fold_right (fun s acc => settledAmount s + acc) 0 rows.

(** Sum of the amounts of the settlements recorded for an authorization,
    whatever their status. *)
Definition recordedTotal (d : Database) (signatureId : string) : Z :=
  sumAmounts (getSettlementsBySignatureId d signatureId).

Definition isSuccess (s : Settlement.t) : bool :=
  match Settlement.status s with
  | success => true
  | _ => false
  end.

(** Sum of the amounts of the settlements of an authorization that ended
    [success]. *)
Definition settledTotal (d : Database) (signatureId : string) : Z :=
  sumAmounts (filter isSuccess (getSettlementsBySignatureId d signatureId)).

(** A row whose recorded settlements fit its cap: either nothing was
    recorded and the remaining amount is still the cap as written, or cap
    and remaining amount read as integers, the remaining amount is not
    negative, and the recorded amounts plus the remaining amount do not
    exceed the cap. *)
Definition rowWithinCap (r : Signature.t) (recorded : Z) : Prop :=
  (Signature.remaining_amount r = Signature.cap_amount r /\ recorded = 0)
  \/ exists cap remaining,
       BigInt (Signature.cap_amount r) = Some cap
       /\ BigInt (Signature.remaining_amount r) = Some remaining
       /\ 0 <= remaining
       /\ recorded + remaining <= cap.

(** The ledger the routes keep: every settlement row has a positive
    amount and belongs to a stored authorization, and every authorization
    is within its cap. *)
Definition capLedger (d : Database) : Prop :=
  (forall s, In s (multisettle_settlements d) ->
     (exists a, BigInt (Settlement.amount s) = Some a /\ 0 < a)
     /\ getMultiSettleSignatureById d (Settlement.signature_id s) <> None)
  /\ forall id r,
       getMultiSettleSignatureById d id = Some r ->
       rowWithinCap r (recordedTotal d id).

(** One step of a row that keeps it within its cap: the cap is kept, and
    the remaining amount is kept or lowered to a non-negative integer. *)
Definition rowSafeStep (r r' : Signature.t) : Prop :=
  Signature.cap_amount r' = Signature.cap_amount r
  /\ (Signature.remaining_amount r' = Signature.remaining_amount r
      \/ exists remaining remaining',
           BigInt (Signature.remaining_amount r) = Some remaining
           /\ BigInt (Signature.remaining_amount r') = Some remaining'
           /\ 0 <= remaining' <= remaining).

(* ================================================================== *)
(** ** Facts about [BigInt] and [toString] *)
(* ================================================================== *)

Lemma trimStart_noWhiteSpace s : noWhiteSpace s = true -> trimStart s = s.
Proof.
  destruct s as [|c s']; simpl; [reflexivity|].
  intros H. apply andb_prop in H as [Hc _].
  apply negb_true_iff in Hc. now rewrite Hc.
Qed.

Lemma trimEnd_noWhiteSpace s : noWhiteSpace s = true -> trimEnd s = s.
Proof.
  induction s as [|c s' IH]; simpl; [reflexivity|].
  intros H. apply andb_prop in H as [Hc Hs].
  apply negb_true_iff in Hc. rewrite (IH Hs).
  destruct s'; [now rewrite Hc | reflexivity].
Qed.

Lemma trim_noWhiteSpace s : noWhiteSpace s = true -> trim s = s.
Proof.
  intros H. unfold trim. rewrite (trimStart_noWhiteSpace _ H).
  now apply trimEnd_noWhiteSpace.
Qed.

Lemma string_of_uint_noWhiteSpace d :
  noWhiteSpace (NilEmpty.string_of_uint d) = true.
Proof. induction d; simpl; auto. Qed.

(** A non-empty digit string starts with a digit, so not with a sign. *)
Lemma string_of_uint_head d :
  d <> Nil ->
  exists c s, NilEmpty.string_of_uint d = String c s
              /\ c <> "+"%char /\ c <> "-"%char.
Proof.
  destruct d; intros H; [now destruct H| ..]; simpl;
    eexists; eexists; (split; [reflexivity | split; discriminate]).
Qed.

Lemma NilZero_string_of_uint_nonnil d :
  d <> Nil -> NilZero.string_of_uint d = NilEmpty.string_of_uint d.
Proof. destruct d; intros H; [now destruct H | reflexivity ..]. Qed.

Lemma signedInteger_unsigned c s :
  c <> "+"%char ->
  signedInteger (String c s)
  = option_map Z.of_int (NilZero.int_of_string (String c s)).
Proof.
  intros H. unfold signedInteger.
  destruct c as [[] [] [] [] [] [] [] []]; try reflexivity.
  now destruct H.
Qed.

(** What [toString] prints: no white space, a first character, no [+]. *)
Lemma toString_shape z :
  noWhiteSpace (toString z) = true
  /\ exists c s, toString z = String c s /\ c <> "+"%char.
Proof.
  unfold toString. destruct z as [|p|p]; simpl.
  - split; [reflexivity|]. do 2 eexists. split; [reflexivity | discriminate].
  - pose proof (Unsigned.to_uint_nonnil p) as Hn.
    rewrite (NilZero_string_of_uint_nonnil _ Hn).
    split; [apply string_of_uint_noWhiteSpace|].
    destruct (string_of_uint_head _ Hn) as (c & s & E & Hp & _).
    exists c, s. now split.
  - pose proof (Unsigned.to_uint_nonnil p) as Hn.
    rewrite (NilZero_string_of_uint_nonnil _ Hn).
    split; [simpl; apply string_of_uint_noWhiteSpace|].
    do 2 eexists. split; [reflexivity | discriminate].
Qed.

Lemma to_int_not_nil z :
  Z.to_int z <> Decimal.Pos Nil /\ Z.to_int z <> Decimal.Neg Nil.
Proof.
  destruct z as [|p|p]; simpl; split; try discriminate;
    intros [= E]; now apply (Unsigned.to_uint_nonnil p).
Qed.

(** Parsing what [toString] printed gives the number back. *)
Lemma BigInt_toString z : BigInt (toString z) = Some z.
Proof.
  destruct (toString_shape z) as (Hws & c & s & E & Hc).
  unfold BigInt. rewrite (trim_noWhiteSpace _ Hws), E.
  rewrite (signedInteger_unsigned _ _ Hc), <- E.
  unfold toString.
  destruct (to_int_not_nil z) as [H1 H2].
  rewrite (NilZero.isi _ H1 H2). simpl. now rewrite DecimalZ.of_to.
Qed.

(** [toString] yields the literal ["0"] for zero only. *)
Lemma toString_zero z : String.eqb (toString z) "0" = true <-> z = 0.
Proof.
  split.
  - intros H. apply String.eqb_eq in H.
    pose proof (BigInt_toString z) as E. rewrite H in E.
    vm_compute in E. congruence.
  - intros ->. reflexivity.
Qed.

(* ================================================================== *)
(** ** Facts about tables *)
(* ================================================================== *)

Section TableFacts.
Context {Row : Type}.
Variables (key p : Row -> bool) (f : Row -> Row).
Hypothesis key_f : forall r, key (f r) = key r.

(** A row selected after an [UPDATE] that keeps keys is the row selected
    before, rewritten when it matched. *)
Lemma find_updateWhere rows :
  find key (updateWhere p f rows)
  = option_map (fun r => if p r then f r else r) (find key rows).
Proof using key_f.
  induction rows as [|r rows IH]; simpl; [reflexivity|].
  assert (E : key (if p r then f r else r) = key r)
    by (destruct (p r); [apply key_f | reflexivity]).
  rewrite E. destruct (key r); [reflexivity | exact IH].
Qed.

Lemma find_append rows r :
  find key (rows ++ [r])
  = match find key rows with
    | Some x => Some x
    | None => if key r then Some r else None
    end.
Proof.
  induction rows as [|x rows IH]; simpl; [reflexivity|].
  destruct (key x); [reflexivity | exact IH].
Qed.

Lemma existsb_false_find rows :
  existsb key rows = false -> find key rows = None.
Proof.
  induction rows as [|x rows IH]; simpl; [reflexivity|].
  destruct (key x); simpl; [discriminate | exact IH].
Qed.

End TableFacts.

Lemma getSignature_update id f d id' :
  (forall r, Signature.id (f r) = Signature.id r) ->
  getMultiSettleSignatureById (updateSignatureById id f d) id'
  = option_map (fun r => if String.eqb (Signature.id r) id then f r else r)
      (getMultiSettleSignatureById d id').
Proof.
  intros Hf. unfold getMultiSettleSignatureById, updateSignatureById. simpl.
  apply find_updateWhere. intros r. now rewrite Hf.
Qed.

Lemma getSignature_id d id r :
  getMultiSettleSignatureById d id = Some r -> Signature.id r = id.
Proof.
  unfold getMultiSettleSignatureById. intros H.
  apply find_some in H as [_ H]. now apply String.eqb_eq.
Qed.

(** After an update by id, the row of that id is the rewritten one and the
    rows of other ids are untouched. *)
Lemma getSignature_update_same id f d r :
  (forall x, Signature.id (f x) = Signature.id x) ->
  getMultiSettleSignatureById d id = Some r ->
  getMultiSettleSignatureById (updateSignatureById id f d) id = Some (f r).
Proof.
  intros Hf H. rewrite getSignature_update, H by exact Hf. simpl.
  rewrite (getSignature_id _ _ _ H), String.eqb_refl. reflexivity.
Qed.

Lemma getSignature_update_other id f d id' :
  (forall x, Signature.id (f x) = Signature.id x) ->
  id' <> id ->
  getMultiSettleSignatureById (updateSignatureById id f d) id'
  = getMultiSettleSignatureById d id'.
Proof.
  intros Hf Hne. rewrite getSignature_update by exact Hf.
  destruct (getMultiSettleSignatureById d id') as [r|] eqn:E; [|reflexivity].
  simpl. rewrite (getSignature_id _ _ _ E).
  apply String.eqb_neq in Hne. now rewrite Hne.
Qed.

Lemma SignatureStatus_eqb_eq a b : SignatureStatus_eqb a b = true <-> a = b.
Proof. destruct a, b; simpl; split; congruence. Qed.

Lemma SignatureStatus_eqb_neq a b : SignatureStatus_eqb a b = false <-> a <> b.
Proof. destruct a, b; simpl; split; congruence. Qed.

Lemma reservedRow_id remaining amount r :
  Signature.id (reservedRow remaining amount r) = Signature.id r.
Proof. unfold reservedRow. now destruct (remaining - amount =? 0). Qed.

Lemma toString_eqb_zero z : String.eqb (toString z) "0" = (z =? 0).
Proof.
  destruct (z =? 0) eqn:E.
  - apply toString_zero. now apply Z.eqb_eq.
  - destruct (String.eqb (toString z) "0") eqn:E'; [|reflexivity].
    apply toString_zero in E'. apply Z.eqb_neq in E. contradiction.
Qed.

(** The database a granted reservation leaves: one update by id. *)
Lemma decrementRemainingAmount_granted d now id amount r remaining a :
  getMultiSettleSignatureById d id = Some r ->
  Signature.status r = active ->
  now <= Signature.valid_until r ->
  BigInt (Signature.remaining_amount r) = Some remaining ->
  BigInt amount = Some a ->
  a <= remaining ->
  decrementRemainingAmount d now id amount
  = (updateSignatureById id (reservedRow remaining a) d,
     Return (Some (reservedRow remaining a r))).
Proof.
  intros Hget Hst Hnow Hrem Ha Hle.
  unfold decrementRemainingAmount. rewrite Hget, Hst. simpl.
  assert (E1 : (Signature.valid_until r <? now) = false) by now apply Z.ltb_ge.
  rewrite E1, Hrem, Ha.
  assert (E2 : (a >? remaining) = false).
  { rewrite Z.gtb_ltb. now apply Z.ltb_ge. }
  rewrite E2, toString_eqb_zero.
  assert (Hdb :
    (if remaining - a =? 0
     then updateSignatureById id (Signature.set_status exhausted)
            (updateSignatureById id
               (Signature.set_remaining_amount (toString (remaining - a))) d)
     else updateSignatureById id
            (Signature.set_remaining_amount (toString (remaining - a))) d)
    = updateSignatureById id (reservedRow remaining a) d).
  { unfold reservedRow, updateSignatureById, updateWhere. simpl.
    destruct (remaining - a =? 0); simpl; [|reflexivity].
    unfold with_signatures. simpl. f_equal. rewrite map_map. apply map_ext. intros x.
    destruct (String.eqb (Signature.id x) id) eqn:E; simpl; now rewrite E. }
  rewrite Hdb. f_equal. f_equal.
  rewrite (getSignature_update_same _ _ _ r); auto using reservedRow_id.
Qed.

(* ================================================================== *)
(** ** The reserve operation *)
(* ================================================================== *)

(** A revoked authorization whose [valid_until] has passed: the reserve
    returns [null] and the status stays [revoked], it is not flipped to
    [expired]. *)
Lemma reserve_expired_revoked_not_flipped :
  let r := sampleSignature "auth_1" "0xn1" "200" "120" 1000 revoked 1 in
  let d := sampleDatabase r in
  getMultiSettleSignatureById d "auth_1" = Some r
  /\ Signature.valid_until r < 2000
  /\ decrementRemainingAmount d 2000 "auth_1" "5" = (d, Return None)
  /\ option_map Signature.status
       (getMultiSettleSignatureById
          (fst (decrementRemainingAmount d 2000 "auth_1" "5")) "auth_1")
     <> Some expired.
Proof. vm_compute. repeat split; discriminate. Qed.

(** C1 (amended): [decrementRemainingAmount] decides in the order of the
    code. No record: [null]. Status not active: [null], the record is left
    as it is, also when [valid_until] has passed. Active and
    [valid_until < now]: the status becomes [expired], [null]. Amount above
    the remaining amount: [null]. Otherwise the remaining amount becomes
    the difference, the status becomes [exhausted] exactly when the
    difference is zero, and the updated record is returned. Other records
    are untouched throughout. *)
Theorem decrementRemainingAmount_cases (d : Database) (now : Z) (id amount : string) :
  (getMultiSettleSignatureById d id = None ->
   decrementRemainingAmount d now id amount = (d, Return None))
  /\ (forall r,
        getMultiSettleSignatureById d id = Some r ->
        Signature.status r <> active ->
        decrementRemainingAmount d now id amount = (d, Return None))
  /\ (forall r,
        getMultiSettleSignatureById d id = Some r ->
        Signature.status r = active ->
        Signature.valid_until r < now ->
        exists d',
          decrementRemainingAmount d now id amount = (d', Return None)
          /\ getMultiSettleSignatureById d' id = Some (Signature.set_status expired r)
          /\ forall id', id' <> id ->
               getMultiSettleSignatureById d' id' = getMultiSettleSignatureById d id')
  /\ (forall r remaining a,
        getMultiSettleSignatureById d id = Some r ->
        Signature.status r = active ->
        now <= Signature.valid_until r ->
        BigInt (Signature.remaining_amount r) = Some remaining ->
        BigInt amount = Some a ->
        a > remaining ->
        decrementRemainingAmount d now id amount = (d, Return None))
  /\ (forall r remaining a,
        getMultiSettleSignatureById d id = Some r ->
        Signature.status r = active ->
        now <= Signature.valid_until r ->
        BigInt (Signature.remaining_amount r) = Some remaining ->
        BigInt amount = Some a ->
        a <= remaining ->
        exists d' r',
          decrementRemainingAmount d now id amount = (d', Return (Some r'))
          /\ getMultiSettleSignatureById d' id = Some r'
          /\ r' = Signature.set_status
                    (if remaining - a =? 0 then exhausted else active)
                    (Signature.set_remaining_amount (toString (remaining - a)) r)
          /\ BigInt (Signature.remaining_amount r') = Some (remaining - a)
          /\ (Signature.status r' = exhausted <-> remaining - a = 0)
          /\ forall id', id' <> id ->
               getMultiSettleSignatureById d' id' = getMultiSettleSignatureById d id').
Proof.
  split; [|split; [|split; [|split]]].
  - intros H. unfold decrementRemainingAmount. now rewrite H.
  - intros r H Hst. unfold decrementRemainingAmount. rewrite H.
    apply SignatureStatus_eqb_neq in Hst. now rewrite Hst.
  - intros r H Hst Hexp. unfold decrementRemainingAmount. rewrite H, Hst. simpl.
    apply Z.ltb_lt in Hexp. rewrite Hexp.
    eexists. split; [reflexivity|]. split.
    + now apply getSignature_update_same.
    + intros id' Hne. now apply getSignature_update_other.
  - intros r remaining a H Hst Hnow Hrem Ha Hgt.
    unfold decrementRemainingAmount. rewrite H, Hst. simpl.
    assert (E1 : (Signature.valid_until r <? now) = false) by now apply Z.ltb_ge.
    rewrite E1, Hrem, Ha.
    assert (E2 : (a >? remaining) = true) by (rewrite Z.gtb_ltb; apply Z.ltb_lt; lia).
    now rewrite E2.
  - intros r remaining a Hget Hst Hnow Hrem Ha Hle.
    rewrite (decrementRemainingAmount_granted _ _ _ _ _ _ _ Hget Hst Hnow Hrem Ha Hle).
    exists (updateSignatureById id (reservedRow remaining a) d),
           (reservedRow remaining a r).
    split; [reflexivity|]. split.
    { apply getSignature_update_same; auto using reservedRow_id. }
    assert (Er : reservedRow remaining a r
                 = Signature.set_status
                     (if remaining - a =? 0 then exhausted else active)
                     (Signature.set_remaining_amount (toString (remaining - a)) r)).
    { unfold reservedRow. destruct (remaining - a =? 0); [reflexivity|].
      destruct r; simpl in *. now subst. }
    split; [exact Er|]. rewrite Er. simpl.
    split; [apply BigInt_toString|]. split.
    { destruct (remaining - a =? 0) eqn:E.
      - apply Z.eqb_eq in E. tauto.
      - apply Z.eqb_neq in E. split; [discriminate | contradiction]. }
    intros id' Hne. apply getSignature_update_other; auto using reservedRow_id.
Qed.

(** The granted case of C1 on a cap of 200 with 120 remaining: reserving
    120 exhausts the authorization. *)
Lemma decrementRemainingAmount_cases_witness :
  exists d' r',
    decrementRemainingAmount
      (sampleDatabase (sampleSignature "auth_1" "0xn1" "200" "120" 1000 active 1))
      500 "auth_1" "120" = (d', Return (Some r'))
    /\ Signature.remaining_amount r' = "0"
    /\ Signature.status r' = exhausted.
Proof.
  destruct (proj2 (proj2 (proj2 (proj2
    (decrementRemainingAmount_cases
       (sampleDatabase (sampleSignature "auth_1" "0xn1" "200" "120" 1000 active 1))
       500 "auth_1" "120"))))
    (sampleSignature "auth_1" "0xn1" "200" "120" 1000 active 1) 120 120)
    as (d' & r' & E & _ & Er & _); try reflexivity; try (vm_compute; discriminate).
  exists d', r'. split; [exact E|]. rewrite Er. split; reflexivity.
Defined.

(* ================================================================== *)
(** ** Running handlers *)
(* ================================================================== *)

(** Unfolds the handler steps, leaving the data-layer calls folded. *)
Ltac handler_norm :=
  cbv beta iota zeta delta
    [settle authorize revoke Handler.run
     settleHandler authorizeHandler revokeHandler settleOnChain
     reserve createSettlement updateSettlementStatus markDeposited
     checkFacilitatorBalance transferTokens
     Handler.tryCatch Handler.bind Handler.respond Handler.ret
     Handler.throw Handler.emit Handler.getDatabase Handler.putDatabase
     Handler.ofCompletion Handler.bigInt
     Handler.db Handler.trace negb Datatypes.app
     c_success c_transactionHash c_errorMessage s_status];
  cbn [fst snd].

(** Splits on the next undecided test of the goal. *)
Ltac handler_step :=
  match goal with
  | |- context [match ?x with _ => _ end] =>
      lazymatch x with
      | context [match _ with _ => _ end] => fail
      | _ => destruct x eqn:?
      end
  end; handler_norm.

(** Every run of a route sends a response. *)
Lemma settle_responds env record body d :
  exists rsp, snd (fst (settle env record body d)) = Some rsp.
Proof.
  handler_norm. repeat handler_step. all: eexists; reflexivity.
Qed.

Lemma authorize_responds env record body d :
  exists rsp, snd (fst (authorize env record body d)) = Some rsp.
Proof.
  handler_norm. repeat handler_step. all: eexists; reflexivity.
Qed.

Lemma revoke_responds record body d :
  exists rsp, snd (fst (revoke record body d)) = Some rsp.
Proof.
  handler_norm. repeat handler_step. all: eexists; reflexivity.
Qed.

Lemma createMultiSettleSettlement_created d id data d' s :
  createMultiSettleSettlement d id data = (d', Some s) ->
  getMultiSettleSettlementById d id = None
  /\ getMultiSettleSettlementById d' id = Some s
  /\ Settlement.id s = id
  /\ Settlement.status s = s_status data
  /\ Settlement.error_message s = orNull (s_error_message data)
  /\ multisettle_signatures d' = multisettle_signatures d.
Proof.
  unfold createMultiSettleSettlement.
  destruct (settlementInsertViolates d id) eqn:E; [discriminate|].
  apply existsb_false_find in E.
  unfold getMultiSettleSettlementById at 1. simpl.
  rewrite find_append, E. simpl. rewrite String.eqb_refl.
  intros [= <- <-]. unfold getMultiSettleSettlementById. simpl.
  rewrite find_append, E. simpl. rewrite String.eqb_refl. tauto.
Qed.

(** The table after a settlement row was created. *)
Lemma createMultiSettleSettlement_table d nano data d1 row :
  createMultiSettleSettlement d nano data = (d1, Some row) ->
  row = Settlement.mk nano (s_signature_id data) (s_facilitator_id data)
          (toLowerCase (s_pay_to data)) (s_amount data)
          (orNull (s_transaction_hash data)) (s_status data)
          (orNull (s_error_message data))
  /\ multisettle_settlements d1 = (multisettle_settlements d ++ [row])%list
  /\ multisettle_signatures d1 = multisettle_signatures d.
Proof.
  unfold createMultiSettleSettlement.
  destruct (settlementInsertViolates d nano) eqn:Ev; [discriminate|].
  intros [= <- Hg].
  unfold getMultiSettleSettlementById in Hg. simpl in Hg.
  rewrite find_append in Hg.
  apply existsb_false_find in Ev. rewrite Ev in Hg. simpl in Hg.
  rewrite String.eqb_refl in Hg. injection Hg as <-.
  repeat split.
Qed.

Ltac in_trace H :=
  cbn [In] in H;
  repeat match type of H with
         | _ \/ _ => destruct H as [H|H]
         | False => destruct H
         | _ = _ => first [discriminate H | injection H as ? ? ?; try discriminate]
         end.

(* ================================================================== *)
(** ** How each call changes what the other reads *)
(* ================================================================== *)

Lemma decrementRemainingAmount_returned d now id amount d1 u :
  decrementRemainingAmount d now id amount = (d1, Return (Some u)) ->
  exists r remaining a,
    getMultiSettleSignatureById d id = Some r
    /\ Signature.status r = active
    /\ now <= Signature.valid_until r
    /\ BigInt (Signature.remaining_amount r) = Some remaining
    /\ BigInt amount = Some a
    /\ a <= remaining
    /\ d1 = updateSignatureById id (reservedRow remaining a) d
    /\ u = reservedRow remaining a r.
Proof.
  intros H.
  destruct (getMultiSettleSignatureById d id) as [r|] eqn:Hget;
    [|unfold decrementRemainingAmount in H; rewrite Hget in H; discriminate].
  destruct (SignatureStatus_eqb (Signature.status r) active) eqn:Hst;
    [|unfold decrementRemainingAmount in H; rewrite Hget, Hst in H; discriminate].
  destruct (Signature.valid_until r <? now) eqn:Hnow;
    [unfold decrementRemainingAmount in H; rewrite Hget, Hst, Hnow in H; discriminate|].
  destruct (BigInt (Signature.remaining_amount r)) as [remaining|] eqn:Hrem;
    [|unfold decrementRemainingAmount in H;
      rewrite Hget, Hst, Hnow, Hrem in H; discriminate].
  destruct (BigInt amount) as [a|] eqn:Ha;
    [|unfold decrementRemainingAmount in H;
      rewrite Hget, Hst, Hnow, Hrem, Ha in H; discriminate].
  destruct (a >? remaining) eqn:Hgt;
    [unfold decrementRemainingAmount in H;
     rewrite Hget, Hst, Hnow, Hrem, Ha, Hgt in H; discriminate|].
  apply SignatureStatus_eqb_eq in Hst. apply Z.ltb_ge in Hnow.
  rewrite Z.gtb_ltb in Hgt. apply Z.ltb_ge in Hgt.
  rewrite (decrementRemainingAmount_granted _ _ _ _ _ _ _ Hget Hst Hnow Hrem Ha Hgt) in H.
  injection H as <- <-. exists r, remaining, a. tauto.
Qed.

Lemma getSignature_after_updateSettlement d sid st h e id :
  getMultiSettleSignatureById
    (fst (updateMultiSettleSettlementStatus d sid st h e)) id
  = getMultiSettleSignatureById d id.
Proof.
  unfold updateMultiSettleSettlementStatus.
  now destruct (changes _ _ =? 0)%nat.
Qed.

Lemma settlementFields_id st h e r :
  Settlement.id (settlementFields st h e r) = Settlement.id r.
Proof. unfold settlementFields. now destruct h, e. Qed.

Lemma getSettlement_after_updateSettlement d sid st h e sid' :
  getMultiSettleSettlementById
    (fst (updateMultiSettleSettlementStatus d sid st h e)) sid'
  = option_map (fun r => if String.eqb (Settlement.id r) sid
                         then settlementFields st h e r else r)
      (getMultiSettleSettlementById d sid').
Proof.
  unfold updateMultiSettleSettlementStatus.
  destruct (changes _ _ =? 0)%nat; simpl;
    unfold getMultiSettleSettlementById; simpl;
    apply find_updateWhere; intros r; now rewrite settlementFields_id.
Qed.


Lemma getSignature_after_markDeposited d id id' :
  getMultiSettleSignatureById (fst (markSignatureDeposited d id)) id'
  = option_map (fun r => if String.eqb (Signature.id r) id
                         then Signature.set_deposited 1 r else r)
      (getMultiSettleSignatureById d id').
Proof. simpl. now apply getSignature_update. Qed.

Lemma getSignature_after_createSettlement d sid data d' s id :
  createMultiSettleSettlement d sid data = (d', s) ->
  getMultiSettleSignatureById d' id = getMultiSettleSignatureById d id.
Proof.
  unfold createMultiSettleSettlement.
  destruct (settlementInsertViolates d sid); now intros [= <- <-].
Qed.

Lemma reserved_row_stored d now id amount d1 u :
  decrementRemainingAmount d now id amount = (d1, Return (Some u)) ->
  getMultiSettleSignatureById d1 id = Some u
  /\ exists before remaining a,
       getMultiSettleSignatureById d id = Some before
       /\ BigInt (Signature.remaining_amount before) = Some remaining
       /\ BigInt amount = Some a
       /\ a <= remaining
       /\ (Signature.network u = Signature.network before
           /\ Signature.asset u = Signature.asset before
           /\ Signature.payment_payload u = Signature.payment_payload before
           /\ Signature.cap_amount u = Signature.cap_amount before)
       /\ BigInt (Signature.remaining_amount u) = Some (remaining - a).
Proof.
  intros H. apply decrementRemainingAmount_returned in H
    as (r & remaining & a & Hget & _ & _ & Hrem & Ha & Hle & -> & ->).
  split.
  - apply getSignature_update_same; auto using reservedRow_id.
  - exists r, remaining, a. repeat (split; [assumption|]).
    unfold reservedRow. destruct (remaining - a =? 0); simpl;
      repeat split; apply BigInt_toString.
Qed.

(** The row of a settlement once [updateMultiSettleSettlementStatus] has
    marked it failed. *)
Lemma failed_settlement_stored d sid s message :
  getMultiSettleSettlementById d sid = Some s ->
  Settlement.id s = sid ->
  Settlement.error_message s = None ->
  exists row,
    getMultiSettleSettlementById
      (fst (updateMultiSettleSettlementStatus d sid failed None message)) sid
    = Some row
    /\ Settlement.status row = failed
    /\ Settlement.error_message row = message.
Proof.
  intros Hget Hid Herr. rewrite getSettlement_after_updateSettlement, Hget.
  simpl. rewrite Hid, String.eqb_refl.
  eexists. split; [reflexivity|].
  destruct message; simpl; auto.
Qed.

(** The balance read that let the run go on to the transfer covers the
    amount. *)
Ltac balance_covers :=
  match goal with
  | Hp : BigInt (toString ?b) = Some ?have,
    Hge : (?have >=? ?need) = true,
    Hn : BigInt ?amount = Some ?need,
    Ha : BigInt ?amount = Some ?a |- exists _, _ /\ ?a <= _ =>
      rewrite BigInt_toString in Hp; injection Hp as <-;
      rewrite Z.geb_leb in Hge; apply Z.leb_le in Hge;
      rewrite Hn in Ha; injection Ha as <-;
      exists b; split; [first [reflexivity | assumption] | exact Hge]
  end.

(** C5: a run of [/settle] that reserved the amount, created the
    settlement row and then answers with a failure leaves the settlement
    row [failed] with the message of the step that failed, and leaves the
    authorization with the decremented remaining amount. When the deposit
    failed, the balance preflight was insufficient or the transfer failed
    (and when the deposit threw), the response carries that remaining
    amount; the only other failure at this stage is a stored payload that
    cannot be decoded. *)
Theorem settle_failure_keeps_reservation env record parsed d d' rsp tr d1 updated :
  settle env record (Some parsed) d = (d', Some rsp, tr) ->
  decrementRemainingAmount d (now_reserve env)
    (q_authorizationId parsed) (q_amount parsed) = (d1, Return (Some updated)) ->
  In (DbCreateSettlement (settlement_nanoid env) pending true) tr ->
  r_success rsp = false ->
  exists row sigrow message before remaining a,
    getMultiSettleSettlementById d' (settlement_nanoid env) = Some row
    /\ Settlement.status row = failed
    /\ Settlement.error_message row = message
    /\ In (DbUpdateSettlement (settlement_nanoid env) failed None message) tr
    /\ getMultiSettleSignatureById d' (q_authorizationId parsed) = Some sigrow
    /\ getMultiSettleSignatureById d (q_authorizationId parsed) = Some before
    /\ BigInt (Signature.remaining_amount before) = Some remaining
    /\ BigInt (q_amount parsed) = Some a
    /\ BigInt (Signature.remaining_amount sigrow) = Some (remaining - a)
    /\ Signature.remaining_amount sigrow = Signature.remaining_amount updated
    /\ ((exists res,
           executeERC3009Settlement env = Return res
           /\ c_success res = false
           /\ message = c_errorMessage res
           /\ rsp = failure 400
                      (Some ("Failed to deposit funds: " ++ interpolate message))
                      (Some (Signature.remaining_amount sigrow))
                      (Some (Signature.network sigrow)))
        \/ (exists balance,
              message = Some ("Insufficient facilitator balance: " ++ balance
                              ++ " < " ++ q_amount parsed)
              /\ rsp = failure 400
                         (Some "Facilitator has insufficient balance for transfer")
                         (Some (Signature.remaining_amount sigrow))
                         (Some (Signature.network sigrow)))
        \/ ((exists balance,
               readBalanceOf env = Return balance /\ a <= balance)
            /\ message <> None
            /\ rsp = failure 400 message
                       (Some (Signature.remaining_amount sigrow))
                       (Some (Signature.network sigrow)))
        \/ (exists e,
              executeERC3009Settlement env = Throw e
              /\ message = Some e
              /\ rsp = failure 500 (Some e)
                         (Some (Signature.remaining_amount sigrow))
                         (Some (Signature.network sigrow)))
        \/ (extractFromStored env (Signature.payment_payload sigrow) = None
            /\ message = Some "Failed to extract authorization"
            /\ rsp = failure 500
                       (Some "Failed to extract authorization from stored payload")
                       None None)).
Proof.
  intros Hrun Hres Hin Hfail. revert Hrun.
  handler_norm.
  repeat handler_step.
  all: intros [= <- <- <-].
  all: try (in_trace Hin; fail).
  all: try discriminate Hfail.
  all: injection Hres as -> ->.
  all: match goal with
       | Hc : createMultiSettleSettlement _ _ _ = (_, Some _) |- _ =>
           pose proof (getSignature_after_createSettlement _ _ _ _ _
                         (q_authorizationId parsed) Hc) as Hsig;
           apply createMultiSettleSettlement_created in Hc
             as (_ & Hs & Hid & _ & Herr & _)
       end.
  all: match goal with
       | Hd : decrementRemainingAmount _ _ _ _ = _ |- _ =>
           apply reserved_row_stored in Hd
             as (Hu & before & xrem & xamt & Hb & Hrem & Ha & Hle
                 & (Hnet & Hasset & Hpayload & Hcap) & Hnew);
           pose proof (getSignature_id _ _ _ Hu) as Huid
       end.
  all: match goal with
       | Hg : getMultiSettleSignatureById _ _ = Some ?t |- _ =>
           tryif constr_eq t before then fail
           else (rewrite Hg in Hb; injection Hb as <-)
       end.
  all: rewrite Hid in *.
  all: match goal with
       | |- context [fst (updateMultiSettleSettlementStatus ?dm ?sid failed None ?msg)] =>
           destruct (failed_settlement_stored dm sid _ msg Hs Hid Herr)
             as (row & Hrow & Hst & Hmsg);
           exists row;
           eexists;
           exists msg
       end.
  all: eexists; exists xrem, xamt.
  all: split; [exact Hrow|]; split; [exact Hst|]; split; [exact Hmsg|].
  all: split; [simpl; tauto|].
  all: split;
    [ rewrite getSignature_after_updateSettlement, ?getSignature_update,
        Hsig, Hu by reflexivity;
      simpl; rewrite ?Huid, ?String.eqb_refl; reflexivity |].
  all: split; [reflexivity|]; split; [exact Hrem|]; split; [congruence|].
  all: split; [exact Hnew|]; split; [reflexivity|].
  all: cbn [Signature.network Signature.asset Signature.payment_payload
              Signature.remaining_amount Signature.set_deposited];
       rewrite ?Hnet, ?Hasset, ?Hpayload.
  all: first
    [ left; eexists; split; [reflexivity|];
      split; [reflexivity|]; split; reflexivity
    | right; left;
      first [ exists "0"; split; reflexivity
            | match goal with
              | H : readBalanceOf _ = Return ?b |- _ =>
                  exists (toString b); split; reflexivity
              end ]
    | right; right; left; split; [balance_covers|];
      split; [discriminate | reflexivity]
    | right; right; right; left; eexists; split; [reflexivity|]; split; reflexivity
    | right; right; right; right; split; [assumption|]; split; reflexivity ].
Qed.

(** C5 on a first settlement of 50 out of 200 whose deposit fails: the
    settlement row ends [failed]. *)
Lemma settle_failure_keeps_reservation_witness :
  exists row,
    getMultiSettleSettlementById
      (fst (fst (settle
         (sampleSettleEnv (Return (mkChainResult false None (Some "nonce used")))
            (Return 0) (Throw "unreachable"))
         sampleRecord (Some (mkSettleRequest "auth_1" "0xAlice" "50"))
         (sampleDatabase (sampleSignature "auth_1" "0xn1" "200" "200" 1000 active 0)))))
      "stl_1" = Some row
    /\ Settlement.status row = failed
    /\ Settlement.error_message row = Some "nonce used".
Proof.
  edestruct (settle_failure_keeps_reservation
    (sampleSettleEnv (Return (mkChainResult false None (Some "nonce used")))
       (Return 0) (Throw "unreachable"))
    sampleRecord (mkSettleRequest "auth_1" "0xAlice" "50")
    (sampleDatabase (sampleSignature "auth_1" "0xn1" "200" "200" 1000 active 0)))
    as (row & sigrow & message & before & remaining & a
        & Hrow & Hst & Hmsg & Hev & _);
    [vm_compute; reflexivity | vm_compute; reflexivity
    | vm_compute; tauto | reflexivity |].
  exists row. split; [exact Hrow|]. split; [exact Hst|].
  rewrite Hmsg. cbn [In] in Hev.
  repeat match type of Hev with
         | _ \/ _ => destruct Hev as [Hev|Hev]
         | False => destruct Hev
         | _ = _ => first [discriminate Hev | injection Hev as <-; reflexivity]
         end.
Defined.

(* ================================================================== *)
(** ** Settlement records *)
(* ================================================================== *)


Lemma getSettlement_id d id r :
  getMultiSettleSettlementById d id = Some r -> Settlement.id r = id.
Proof.
  unfold getMultiSettleSettlementById. intros H.
  apply find_some in H as [_ H]. now apply String.eqb_eq.
Qed.

Lemma getSettlement_updateSignature id f d sid :
  getMultiSettleSettlementById (updateSignatureById id f d) sid
  = getMultiSettleSettlementById d sid.
Proof. reflexivity. Qed.

(** The rows of settlements a run found are still there, unchanged, after
    it reserved and created its own row. *)
Lemma settlement_kept d now id amount d1 u nano data d2 s sid r :
  decrementRemainingAmount d now id amount = (d1, Return (Some u)) ->
  createMultiSettleSettlement d1 nano data = (d2, Some s) ->
  getMultiSettleSettlementById d sid = Some r ->
  getMultiSettleSettlementById d2 sid = Some r
  /\ String.eqb (Settlement.id r) nano = false
  /\ getMultiSettleSettlementById d nano = None.
Proof.
  intros Hd Hc Hr.
  apply decrementRemainingAmount_returned in Hd
    as (r0 & rem & a & _ & _ & _ & _ & _ & _ & Hd1 & _).
  subst d1.
  unfold createMultiSettleSettlement in Hc.
  destruct (settlementInsertViolates _ nano) eqn:E; [discriminate|].
  injection Hc as <- _.
  apply existsb_false_find in E.
  change (getMultiSettleSettlementById d nano = None) in E.
  pose proof (getSettlement_id d sid r Hr) as Hid.
  split; [|split; [|exact E]].
  - unfold getMultiSettleSettlementById in *. simpl.
    rewrite find_append, Hr. reflexivity.
  - apply String.eqb_neq. intros Heq.
    rewrite Heq in Hid. subst sid. congruence.
Qed.



Lemma settlements_after_decrement d now id amount :
  multisettle_settlements (fst (decrementRemainingAmount d now id amount))
  = multisettle_settlements d.
Proof.
  unfold decrementRemainingAmount.
  repeat match goal with
         | |- context [match ?x with _ => _ end] => destruct x
         end; reflexivity.
Qed.









(* ================================================================== *)
(** ** Expiry *)
(* ================================================================== *)

(** [decrementRemainingAmount] on an active row past its [valid_until]. *)
Lemma decrementRemainingAmount_expired d now id amount r :
  getMultiSettleSignatureById d id = Some r ->
  Signature.status r = active ->
  Signature.valid_until r < now ->
  decrementRemainingAmount d now id amount
  = (updateSignatureById id (Signature.set_status expired) d, Return None)
  /\ getMultiSettleSignatureById
       (updateSignatureById id (Signature.set_status expired) d) id
     = Some (Signature.set_status expired r).
Proof.
  intros Hget Hst Hexp. unfold decrementRemainingAmount.
  rewrite Hget, Hst. simpl. apply Z.ltb_lt in Hexp. rewrite Hexp.
  split; [reflexivity|]. now apply getSignature_update_same.
Qed.

(** A settle request on an active authorization with 120 remaining whose
    [valid_until] (400) has passed at time 500: the route answers with a
    failure and the stored status is still [active]. *)
Lemma settle_expired_leaves_active :
  let r := sampleSignature "auth_1" "0xn1" "200" "120" 400 active 1 in
  let d := sampleDatabase r in
  let env := sampleSettleEnv (Throw "unused") (Throw "unused") (Throw "unused") in
  Signature.valid_until r < now_route env
  /\ settle env sampleRecord (Some (mkSettleRequest "auth_1" "0xAlice" "50")) d
     = (d, Some (failure 400 (Some "Authorization has expired") (Some "120") None), [])
  /\ option_map Signature.status
       (getMultiSettleSignatureById
          (fst (fst (settle env sampleRecord
                       (Some (mkSettleRequest "auth_1" "0xAlice" "50")) d)))
          "auth_1")
     = Some active.
Proof. vm_compute. repeat split. Qed.

(** C4 (amended): a settle request by the owner on an active authorization
    whose [valid_until] has passed is answered with the failure
    "Authorization has expired" and the remaining amount, whatever that
    amount is; the route stops at its own check, makes no call and leaves
    the database as it was, so the stored status stays [active]. The flip
    to [expired] is done by [decrementRemainingAmount], when it is the one
    to observe [valid_until < now] on an active row. *)
Theorem settle_expired env record parsed d r :
  getMultiSettleSignatureById d (q_authorizationId parsed) = Some r ->
  Signature.facilitator_id r = fr_id record ->
  Signature.status r = active ->
  Signature.valid_until r < now_route env ->
  settle env record (Some parsed) d
  = (d, Some (failure 400 (Some "Authorization has expired")
                (Some (Signature.remaining_amount r)) None), [])
  /\ (forall now amount,
        Signature.valid_until r < now ->
        exists d',
          decrementRemainingAmount d now (q_authorizationId parsed) amount
          = (d', Return None)
          /\ getMultiSettleSignatureById d' (q_authorizationId parsed)
             = Some (Signature.set_status expired r)).
Proof.
  intros Hget Hown Hst Hexp. split.
  - handler_norm. rewrite Hget, Hown, String.eqb_refl, Hst.
    apply Z.ltb_lt in Hexp. cbn [SignatureStatus_eqb]. rewrite Hexp.
    reflexivity.
  - intros now amount Hnow.
    destruct (decrementRemainingAmount_expired d now _ amount r Hget Hst Hnow)
      as [E G].
    eexists. split; [exact E | exact G].
Qed.

(** C4 on the authorization above. *)
Lemma settle_expired_witness :
  settle (sampleSettleEnv (Throw "unused") (Throw "unused") (Throw "unused"))
    sampleRecord (Some (mkSettleRequest "auth_1" "0xAlice" "50"))
    (sampleDatabase (sampleSignature "auth_1" "0xn1" "200" "120" 400 active 1))
  = (sampleDatabase (sampleSignature "auth_1" "0xn1" "200" "120" 400 active 1),
     Some (failure 400 (Some "Authorization has expired") (Some "120") None), []).
Proof.
  apply (settle_expired
    (sampleSettleEnv (Throw "unused") (Throw "unused") (Throw "unused"))
    sampleRecord (mkSettleRequest "auth_1" "0xAlice" "50")
    (sampleDatabase (sampleSignature "auth_1" "0xn1" "200" "120" 400 active 1))
    (sampleSignature "auth_1" "0xn1" "200" "120" 400 active 1));
    reflexivity.
Defined.

(* ================================================================== *)
(** ** Amounts that are not positive *)
(* ================================================================== *)

(** An active authorization created with cap "0": reserving "0" succeeds
    and the status does not stay [active], it becomes [exhausted]. *)
Lemma reserve_zero_of_zero_exhausts :
  let d := fst (createMultiSettleSignature emptyDatabase "auth_0"
                  (mkCreateSignatureData "fac_1" "base" "0xusdc" "0xpayer" "0"
                     1000 "0xn0" "0xsig" "payload")) in
  option_map Signature.status (getMultiSettleSignatureById d "auth_0") = Some active
  /\ option_map Signature.remaining_amount (getMultiSettleSignatureById d "auth_0")
     = Some "0"
  /\ match snd (decrementRemainingAmount d 500 "auth_0" "0") with
     | Return (Some r') => Signature.status r' = exhausted
     | _ => False
     end.
Proof. vm_compute. repeat split. Qed.

(** C10 (amended): on an active, unexpired authorization whose remaining
    amount is positive, [decrementRemainingAmount] grants "0" and returns
    the record with the same remaining amount and status [active]; it
    grants a negative amount and returns the record with a larger
    remaining amount. The test [amount > 0] is made by [/settle] alone,
    before the reservation: a request whose amount is zero or negative is
    answered with a failure, with no effect and the database unchanged, and
    with "Amount must be greater than 0" when the earlier checks pass. *)
Theorem reserve_accepts_non_positive d now id r remaining :
  getMultiSettleSignatureById d id = Some r ->
  Signature.status r = active ->
  now <= Signature.valid_until r ->
  BigInt (Signature.remaining_amount r) = Some remaining ->
  0 < remaining ->
  (exists d' r',
     decrementRemainingAmount d now id "0" = (d', Return (Some r'))
     /\ getMultiSettleSignatureById d' id = Some r'
     /\ BigInt (Signature.remaining_amount r') = Some remaining
     /\ Signature.status r' = active)
  /\ (forall amount a,
        BigInt amount = Some a ->
        a < 0 ->
        exists d' r',
          decrementRemainingAmount d now id amount = (d', Return (Some r'))
          /\ getMultiSettleSignatureById d' id = Some r'
          /\ BigInt (Signature.remaining_amount r') = Some (remaining - a)
          /\ remaining < remaining - a
          /\ Signature.status r' = active)
  /\ (forall env record parsed d0 a,
        BigInt (q_amount parsed) = Some a ->
        a <= 0 ->
        let '(d', resp, tr) := settle env record (Some parsed) d0 in
        d' = d0 /\ tr = []
        /\ exists rsp, resp = Some rsp /\ r_success rsp = false)
  /\ (forall env record parsed a,
        q_authorizationId parsed = id ->
        Signature.facilitator_id r = fr_id record ->
        now_route env <= Signature.valid_until r ->
        BigInt (q_amount parsed) = Some a ->
        a <= 0 ->
        settle env record (Some parsed) d
        = (d, Some (failure 400 (Some "Amount must be greater than 0")
                      (Some (Signature.remaining_amount r)) None), [])).
Proof.
  intros Hget Hst Hnow Hrem Hpos.
  assert (Hgrant : forall amount a,
            BigInt amount = Some a -> a <= 0 ->
            exists d' r',
              decrementRemainingAmount d now id amount = (d', Return (Some r'))
              /\ getMultiSettleSignatureById d' id = Some r'
              /\ BigInt (Signature.remaining_amount r') = Some (remaining - a)
              /\ Signature.status r' = active).
  { intros amount a Ha Hle.
    rewrite (decrementRemainingAmount_granted d now id amount r remaining a)
      by (auto; lia).
    do 2 eexists. split; [reflexivity|]. split.
    { apply getSignature_update_same; auto using reservedRow_id. }
    unfold reservedRow.
    assert (E : (remaining - a =? 0) = false) by (apply Z.eqb_neq; lia).
    rewrite E. simpl. split; [apply BigInt_toString | exact Hst]. }
  split; [|split; [|split]].
  - destruct (Hgrant "0" 0 eq_refl (Z.le_refl 0)) as (d' & r' & E & G & B & S).
    exists d', r'. rewrite Z.sub_0_r in B. tauto.
  - intros amount a Ha Hneg.
    destruct (Hgrant amount a Ha) as (d' & r' & E & G & B & S); [lia|].
    exists d', r'. repeat split; auto. lia.
  - intros env record parsed d0 a Ha Hle.
    assert (Hleb : (a <=? 0) = true) by now apply Z.leb_le.
    handler_norm.
    repeat (handler_step; rewrite ?Ha in *;
            try match goal with
                | H : Some _ = Some _ |- _ => injection H as <-
                end;
            rewrite ?Hleb in *; try discriminate).
    all: split; [reflexivity | split; [reflexivity | eexists; split; reflexivity]].
  - intros env record parsed a Hid Hown Hnr Ha Hle.
    handler_norm. rewrite Hid, Hget, Hown, String.eqb_refl, Hst.
    cbn [SignatureStatus_eqb].
    assert (E1 : (Signature.valid_until r <? now_route env) = false)
      by now apply Z.ltb_ge.
    rewrite E1, Hrem, Ha.
    assert (E2 : (a >? remaining) = false)
      by (rewrite Z.gtb_ltb; apply Z.ltb_ge; lia).
    assert (E3 : (a <=? 0) = true) by now apply Z.leb_le.
    rewrite E2, E3. reflexivity.
Qed.

(** C10 on an authorization with 120 remaining: reserving "-5" leaves
    125. *)
Lemma reserve_accepts_non_positive_witness :
  exists d' r',
    decrementRemainingAmount
      (sampleDatabase (sampleSignature "auth_1" "0xn1" "200" "120" 1000 active 1))
      500 "auth_1" "-5" = (d', Return (Some r'))
    /\ BigInt (Signature.remaining_amount r') = Some 125.
Proof.
  destruct (proj1 (proj2 (reserve_accepts_non_positive
    (sampleDatabase (sampleSignature "auth_1" "0xn1" "200" "120" 1000 active 1))
    500 "auth_1" (sampleSignature "auth_1" "0xn1" "200" "120" 1000 active 1) 120
    eq_refl eq_refl ltac:(vm_compute; discriminate) eq_refl eq_refl))
    "-5" (-5) eq_refl eq_refl) as (d' & r' & E & _ & B & _).
  exists d', r'. split; [exact E | exact B].
Defined.

(* ================================================================== *)
(** ** Authorizing *)
(* ================================================================== *)

Lemma getByNonce_facts d fac nonce r :
  getMultiSettleSignatureByNonce d fac nonce = Some r ->
  Signature.facilitator_id r = fac /\ Signature.nonce r = nonce.
Proof.
  unfold getMultiSettleSignatureByNonce. intros H.
  apply find_some in H as [_ H]. apply andb_prop in H as [H1 H2].
  split; now apply String.eqb_eq.
Qed.

Lemma existsb_orb_false {A} (p q : A -> bool) rows :
  find p rows = None -> find q rows = None ->
  existsb (fun r => p r || q r) rows = false.
Proof.
  induction rows as [|x rows IH]; simpl; [reflexivity|].
  destruct (p x); [discriminate|]. destruct (q x); [discriminate|].
  simpl. exact IH.
Qed.

(** What [createMultiSettleSignature] does when the id and the nonce are
    both new. *)
Lemma createMultiSettleSignature_fresh d id data :
  getMultiSettleSignatureById d id = None ->
  getMultiSettleSignatureByNonce d (d_facilitator_id data) (d_nonce data) = None ->
  let row :=
    Signature.mk id (d_facilitator_id data) (d_network data) (d_asset data)
      (toLowerCase (d_from_address data)) (d_cap_amount data) (d_cap_amount data)
      (d_valid_until data) (d_nonce data) (d_signature data)
      (d_payment_payload data) active 0 in
  let d' := with_signatures d (multisettle_signatures d ++ [row]) in
  createMultiSettleSignature d id data = (d', Some row)
  /\ getMultiSettleSignatureById d' id = Some row
  /\ getMultiSettleSignatureByNonce d' (d_facilitator_id data) (d_nonce data)
     = Some row.
Proof.
  intros Hid Hnonce row d'.
  assert (Hg : getMultiSettleSignatureById d' id = Some row).
  { unfold getMultiSettleSignatureById in *. subst d'. simpl.
    rewrite find_append, Hid. simpl. now rewrite String.eqb_refl. }
  split; [|split; [exact Hg|]].
  - unfold createMultiSettleSignature, signatureInsertViolates.
    rewrite (existsb_orb_false _ _ _ Hid Hnonce). fold row. fold d'.
    now rewrite Hg.
  - unfold getMultiSettleSignatureByNonce in *. subst d'. simpl.
    rewrite find_append, Hnonce. simpl. now rewrite !String.eqb_refl.
Qed.

Lemma createMultiSettleSignature_created d id data d' s :
  createMultiSettleSignature d id data = (d', Some s) ->
  getMultiSettleSignatureById d id = None
  /\ getMultiSettleSignatureByNonce d (d_facilitator_id data) (d_nonce data) = None.
Proof.
  unfold createMultiSettleSignature, signatureInsertViolates.
  destruct (existsb _ _) eqn:E; [discriminate|]. intros _.
  unfold getMultiSettleSignatureById, getMultiSettleSignatureByNonce.
  induction (multisettle_signatures d) as [|x rows IH]; simpl in *; [tauto|].
  apply orb_false_elim in E as [E1 E2].
  apply orb_false_elim in E1 as [E1 E3].
  rewrite E1, E3. auto.
Qed.

(** What a successful [/authorize] leaves behind: the row whose id it
    returned is the active row found under the request's nonce. *)
Lemma authorize_success_stored env record parsed d d1 rsp tr details :
  authorize env record (Some parsed) d = (d1, Some rsp, tr) ->
  r_success rsp = true ->
  extractAuthorizationFromPayload env
    (normalizePaymentPayload (q_paymentPayload parsed)) = Some details ->
  exists row,
    getMultiSettleSignatureByNonce d1 (fr_id record) (a_nonce details) = Some row
    /\ Signature.status row = active
    /\ authorizationId rsp = Some (Signature.id row).
Proof.
  intros Hrun Hok Hex. revert Hrun. handler_norm. rewrite Hex.
  repeat handler_step.
  all: intros [= <- <- <-]; try discriminate Hok.
  - eexists. split; [eassumption|].
    split; [now apply SignatureStatus_eqb_eq | reflexivity].
  - match goal with
    | Hc : createMultiSettleSignature _ _ _ = _ |- _ =>
        destruct (createMultiSettleSignature_created _ _ _ _ _ Hc) as [Hi Hn];
        destruct (createMultiSettleSignature_fresh _ _ _ Hi Hn) as (E & _ & G);
        rewrite E in Hc; injection Hc as <- <-
    end.
    eexists. split; [exact G|]. split; reflexivity.
Qed.

(** C7 (amended): once the signature verifies and the payload decodes, a
    request whose nonce already has a record for this facilitator creates
    nothing. If that record is active the answer is its id and terms; if
    it is not, the request is rejected with a message naming the record's
    status. So a second call after a successful one on the same nonce,
    when it verifies and decodes again, returns the same authorization id
    and leaves the database as it was. A call whose verification is not
    valid is answered 400 with the verification's reason, whatever record
    the nonce has: the route verifies before it looks the nonce up. *)
Theorem authorize_idempotent env record parsed d v details :
  verify env (normalizePaymentPayload (q_paymentPayload parsed))
    (with_maxAmountRequired (q_paymentRequirements parsed) (q_capAmount parsed))
  = Return v ->
  valid v = true ->
  extractAuthorizationFromPayload env
    (normalizePaymentPayload (q_paymentPayload parsed)) = Some details ->
  (forall existing,
     getMultiSettleSignatureByNonce d (fr_id record) (a_nonce details)
     = Some existing ->
     (Signature.status existing = active ->
      authorize env record (Some parsed) d
      = (d, Some (authorized existing (Signature.deposited existing =? 1)),
         [VerifySignature]))
     /\ (Signature.status existing <> active ->
         authorize env record (Some parsed) d
         = (d, Some (failure 400
                       (Some ("Authorization with this nonce already exists and is "
                              ++ SignatureStatus_literal (Signature.status existing)))
                       None None),
            [VerifySignature])))
  /\ (forall env0 parsed0 d0 rsp0 tr0 details0,
        authorize env0 record (Some parsed0) d0 = (d, Some rsp0, tr0) ->
        r_success rsp0 = true ->
        extractAuthorizationFromPayload env0
          (normalizePaymentPayload (q_paymentPayload parsed0)) = Some details0 ->
        a_nonce details0 = a_nonce details ->
        exists rsp,
          authorize env record (Some parsed) d = (d, Some rsp, [VerifySignature])
          /\ r_success rsp = true
          /\ authorizationId rsp = authorizationId rsp0)
  /\ (forall env1 v1,
        verify env1 (normalizePaymentPayload (q_paymentPayload parsed))
          (with_maxAmountRequired (q_paymentRequirements parsed)
             (q_capAmount parsed)) = Return v1 ->
        valid v1 = false ->
        authorize env1 record (Some parsed) d
        = (d, Some (failure 400
                      (Some (orElse (invalidReason v1) "Invalid signature"))
                      None None),
           [VerifySignature])).
Proof.
  intros Hv Hvalid Hex.
  assert (Hreplay : forall existing,
            getMultiSettleSignatureByNonce d (fr_id record) (a_nonce details)
            = Some existing ->
            Signature.status existing = active ->
            authorize env record (Some parsed) d
            = (d, Some (authorized existing (Signature.deposited existing =? 1)),
               [VerifySignature])).
  { intros existing Hn Hst. handler_norm.
    rewrite Hv. handler_norm. rewrite Hvalid, Hex, Hn, Hst. reflexivity. }
  split; [|split].
  - intros existing Hn. split; [now apply Hreplay|].
    intros Hst. handler_norm.
    rewrite Hv. handler_norm. rewrite Hvalid, Hex, Hn.
    apply SignatureStatus_eqb_neq in Hst. rewrite Hst. reflexivity.
  - intros env0 parsed0 d0 rsp0 tr0 details0 Hrun Hok Hex0 Hnonce.
    destruct (authorize_success_stored _ _ _ _ _ _ _ _ Hrun Hok Hex0)
      as (row & Hrow & Hst & Hid).
    rewrite Hnonce in Hrow.
    eexists. split; [exact (Hreplay row Hrow Hst)|].
    split; [reflexivity|]. rewrite Hid. reflexivity.
  - intros env1 v1 Hv1 Hinvalid. handler_norm.
    rewrite Hv1. handler_norm. rewrite Hinvalid. reflexivity.
Qed.

(** C7 on an authorization just created at time 500: a second call at
    time 600 with another cap is answered with the first one's id. *)
Lemma authorize_idempotent_witness :
  exists rsp,
    authorize (sampleAuthorizeEnv 600 "auth_2") sampleRecord
      (Some (sampleAuthorizeRequest "200" 1000))
      (fst (fst (authorize (sampleAuthorizeEnv 500 "auth_1") sampleRecord
                   (Some (sampleAuthorizeRequest "200" 1000)) emptyDatabase)))
    = (fst (fst (authorize (sampleAuthorizeEnv 500 "auth_1") sampleRecord
                   (Some (sampleAuthorizeRequest "200" 1000)) emptyDatabase)),
       Some rsp, [VerifySignature])
    /\ r_success rsp = true
    /\ authorizationId rsp = Some "auth_1".
Proof.
  destruct (proj1 (proj2 (authorize_idempotent
    (sampleAuthorizeEnv 600 "auth_2") sampleRecord
    (sampleAuthorizeRequest "200" 1000)
    (fst (fst (authorize (sampleAuthorizeEnv 500 "auth_1") sampleRecord
                 (Some (sampleAuthorizeRequest "200" 1000)) emptyDatabase)))
    (mkVerification true None) sampleDetails eq_refl eq_refl eq_refl))
    (sampleAuthorizeEnv 500 "auth_1") (sampleAuthorizeRequest "200" 1000)
    emptyDatabase
    (authorized (sampleSignature "auth_1" "0xn1" "200" "200" 1000 active 0) false)
    [VerifySignature; DbCreateSignature "auth_1" true] sampleDetails
    eq_refl eq_refl eq_refl eq_refl) as (rsp & E & Hok & Hid).
  exists rsp. split; [exact E|]. split; [exact Hok | exact Hid].
Defined.

(** A second call on a nonce whose record is still active, with a payload
    that does not verify any more: the route verifies before it looks the
    nonce up, so the call is answered 400 with the reason of the
    verification and without the authorization id. *)
Lemma authorize_replay_unverified :
  let d :=
    fst (fst (authorize (sampleAuthorizeEnv 500 "auth_1") sampleRecord
                (Some (sampleAuthorizeRequest "200" 1000)) emptyDatabase)) in
  let env :=
    mkAuthorizeEnv
      (fun _ _ => Return (mkVerification false (Some "authorization expired")))
      (fun _ => Some sampleDetails) 600 "auth_2" in
  getMultiSettleSignatureByNonce d (fr_id sampleRecord) (a_nonce sampleDetails)
  = Some (sampleSignature "auth_1" "0xn1" "200" "200" 1000 active 0)
  /\ authorize env sampleRecord (Some (sampleAuthorizeRequest "200" 1000)) d
     = (d, Some (failure 400 (Some "authorization expired") None None),
        [VerifySignature])
  /\ authorizationId (failure 400 (Some "authorization expired") None None)
     = None.
Proof. vm_compute. repeat split. Qed.

(** A replay of an active nonce with a [validUntil] in the past (100 at
    time 500) and a cap ("999") that differs from the signed value ("200")
    is not rejected: it is answered with the existing authorization. *)
Lemma authorize_replay_skips_checks :
  let existing := sampleSignature "auth_1" "0xn1" "200" "120" 1000 active 1 in
  let d := sampleDatabase existing in
  a_value sampleDetails <> "999"
  /\ 100 <= now_authorize (sampleAuthorizeEnv 500 "auth_2")
  /\ authorize (sampleAuthorizeEnv 500 "auth_2") sampleRecord
       (Some (sampleAuthorizeRequest "999" 100)) d
     = (d, Some (authorized existing true), [VerifySignature])
  /\ r_success (authorized existing true) = true.
Proof. vm_compute. repeat split; discriminate. Qed.

(** C9 (amended): for a request whose signature verifies, whose payload
    decodes and whose nonce has no record yet for this facilitator,
    [/authorize] rejects a [validUntil] that is not after the current time,
    then rejects a cap that differs from the signed value, and otherwise
    (the new id being free) creates a record with the remaining amount
    equal to the cap, status [active] and [deposited] 0, and answers with
    it. A nonce that already has a record is answered before these
    checks. *)
Theorem authorize_fresh env record parsed d v details :
  verify env (normalizePaymentPayload (q_paymentPayload parsed))
    (with_maxAmountRequired (q_paymentRequirements parsed) (q_capAmount parsed))
  = Return v ->
  valid v = true ->
  extractAuthorizationFromPayload env
    (normalizePaymentPayload (q_paymentPayload parsed)) = Some details ->
  getMultiSettleSignatureByNonce d (fr_id record) (a_nonce details) = None ->
  (q_validUntil parsed <= now_authorize env ->
   authorize env record (Some parsed) d
   = (d, Some (failure 400 (Some "validUntil must be in the future") None None),
      [VerifySignature]))
  /\ (now_authorize env < q_validUntil parsed ->
      a_value details <> q_capAmount parsed ->
      authorize env record (Some parsed) d
      = (d, Some (failure 400
                    (Some ("Cap amount (" ++ q_capAmount parsed
                           ++ ") must match authorization value ("
                           ++ a_value details ++ ")"))
                    None None),
         [VerifySignature]))
  /\ (now_authorize env < q_validUntil parsed ->
      a_value details = q_capAmount parsed ->
      getMultiSettleSignatureById d (signature_nanoid env) = None ->
      exists d' row,
        authorize env record (Some parsed) d
        = (d', Some (authorized row false),
           [VerifySignature; DbCreateSignature (signature_nanoid env) true])
        /\ getMultiSettleSignatureById d' (signature_nanoid env) = Some row
        /\ getMultiSettleSignatureByNonce d' (fr_id record) (a_nonce details)
           = Some row
        /\ Signature.cap_amount row = q_capAmount parsed
        /\ Signature.remaining_amount row = q_capAmount parsed
        /\ Signature.status row = active
        /\ Signature.deposited row = 0
        /\ Signature.valid_until row = q_validUntil parsed).
Proof.
  intros Hv Hvalid Hex Hnone.
  split; [|split].
  - intros Hle. handler_norm. rewrite Hv. handler_norm.
    rewrite Hvalid, Hex, Hnone.
    apply Z.leb_le in Hle. rewrite Hle. reflexivity.
  - intros Hlt Hne. handler_norm. rewrite Hv. handler_norm.
    rewrite Hvalid, Hex, Hnone.
    assert (E : (q_validUntil parsed <=? now_authorize env) = false)
      by (apply Z.leb_gt; lia).
    apply String.eqb_neq in Hne. rewrite E, Hne. reflexivity.
  - intros Hlt Heq Hid.
    pose (data := mkCreateSignatureData (fr_id record)
                    (pr_network (q_paymentRequirements parsed))
                    (pr_asset (q_paymentRequirements parsed))
                    (a_from details) (q_capAmount parsed) (q_validUntil parsed)
                    (a_nonce details) (a_signature details)
                    (normalizePaymentPayload (q_paymentPayload parsed))).
    destruct (createMultiSettleSignature_fresh d (signature_nanoid env) data Hid Hnone)
      as (E & G & N).
    handler_norm. rewrite Hv. handler_norm.
    rewrite Hvalid, Hex, Hnone.
    assert (E1 : (q_validUntil parsed <=? now_authorize env) = false)
      by (apply Z.leb_gt; lia).
    rewrite E1, Heq, String.eqb_refl.
    fold data. rewrite E. handler_norm.
    do 2 eexists. split; [reflexivity|].
    split; [exact G|]. split; [exact N|]. repeat split.
Qed.

(** C9 on a first request at time 500 for a cap of 200 valid until 1000. *)
Lemma authorize_fresh_witness :
  exists d' row,
    authorize (sampleAuthorizeEnv 500 "auth_1") sampleRecord
      (Some (sampleAuthorizeRequest "200" 1000)) emptyDatabase
    = (d', Some (authorized row false),
       [VerifySignature; DbCreateSignature "auth_1" true])
    /\ Signature.remaining_amount row = "200"
    /\ Signature.status row = active
    /\ Signature.deposited row = 0.
Proof.
  destruct (proj2 (proj2 (authorize_fresh
    (sampleAuthorizeEnv 500 "auth_1") sampleRecord
    (sampleAuthorizeRequest "200" 1000) emptyDatabase
    (mkVerification true None) sampleDetails eq_refl eq_refl eq_refl eq_refl))
    eq_refl eq_refl eq_refl)
    as (d' & row & E & _ & _ & _ & Hr & Hs & Hd & _).
  exists d', row. repeat split; assumption.
Defined.

(* ================================================================== *)
(** ** Rows along sequences of store operations *)
(* ================================================================== *)

Lemma getSignature_updateWhere p f d id :
  (forall r, Signature.id (f r) = Signature.id r) ->
  getMultiSettleSignatureById
    (with_signatures d (updateWhere p f (multisettle_signatures d))) id
  = option_map (fun r => if p r then f r else r)
      (getMultiSettleSignatureById d id).
Proof.
  intros Hf. unfold getMultiSettleSignatureById. simpl.
  apply find_updateWhere. intros r. now rewrite Hf.
Qed.

(** The three things [decrementRemainingAmount] can do to the database. *)
Lemma decrementRemainingAmount_outcome d now id amount :
  (fst (decrementRemainingAmount d now id amount) = d
   /\ forall u, snd (decrementRemainingAmount d now id amount) <> Return (Some u))
  \/ (exists r,
        getMultiSettleSignatureById d id = Some r
        /\ Signature.status r = active
        /\ decrementRemainingAmount d now id amount
           = (updateSignatureById id (Signature.set_status expired) d, Return None))
  \/ (exists r remaining a,
        getMultiSettleSignatureById d id = Some r
        /\ Signature.status r = active
        /\ BigInt (Signature.remaining_amount r) = Some remaining
        /\ BigInt amount = Some a
        /\ a <= remaining
        /\ decrementRemainingAmount d now id amount
           = (updateSignatureById id (reservedRow remaining a) d,
              Return (Some (reservedRow remaining a r)))).
Proof.
  destruct (getMultiSettleSignatureById d id) as [r|] eqn:Hget;
    [|left; unfold decrementRemainingAmount; rewrite Hget; split;
      [reflexivity | discriminate]].
  destruct (SignatureStatus_eqb (Signature.status r) active) eqn:Hst;
    [|left; unfold decrementRemainingAmount; rewrite Hget, Hst; split;
      [reflexivity | discriminate]].
  apply SignatureStatus_eqb_eq in Hst.
  destruct (Signature.valid_until r <? now) eqn:Hnow.
  { right; left. exists r. apply Z.ltb_lt in Hnow.
    repeat split; auto.
    apply (decrementRemainingAmount_expired d now id amount r Hget Hst Hnow). }
  apply Z.ltb_ge in Hnow.
  destruct (BigInt (Signature.remaining_amount r)) as [remaining|] eqn:Hrem;
    [|left; unfold decrementRemainingAmount; rewrite Hget, Hst; simpl;
      rewrite (proj2 (Z.ltb_ge _ _) Hnow), Hrem; split;
      [reflexivity | discriminate]].
  destruct (BigInt amount) as [a|] eqn:Ha;
    [|left; unfold decrementRemainingAmount; rewrite Hget, Hst; simpl;
      rewrite (proj2 (Z.ltb_ge _ _) Hnow), Hrem, Ha; split;
      [reflexivity | discriminate]].
  destruct (a >? remaining) eqn:Hgt.
  { left. unfold decrementRemainingAmount. rewrite Hget, Hst. simpl.
    rewrite (proj2 (Z.ltb_ge _ _) Hnow), Hrem, Ha, Hgt.
    split; [reflexivity | discriminate]. }
  rewrite Z.gtb_ltb in Hgt. apply Z.ltb_ge in Hgt.
  right; right. exists r, remaining, a. repeat split; auto.
  now apply decrementRemainingAmount_granted.
Qed.

Lemma rowStep_refl r : rowStep r r 0.
Proof. split; [repeat split|]. left. auto. Qed.

Lemma rowStep_status (b : bool) s r :
  (b = true -> Signature.status r = active) ->
  rowStep r (if b then Signature.set_status s r else r) 0.
Proof.
  intros Hp. destruct b; [|apply rowStep_refl].
  split; [repeat split|]. left. repeat split.
  intros Hna. now destruct Hna; apply Hp.
Qed.

Lemma reservedBy_reserve d now id amount :
  reservedBy d (OpReserve now id amount) id
  = match snd (decrementRemainingAmount d now id amount), BigInt amount with
    | Return (Some _), Some a => a
    | _, _ => 0
    end.
Proof. simpl. now rewrite String.eqb_refl. Qed.

Lemma reservedBy_other d now sid amount id :
  String.eqb sid id = false -> reservedBy d (OpReserve now sid amount) id = 0.
Proof. intros E. simpl. now rewrite E. Qed.

Lemma applyOp_row d op id r :
  getMultiSettleSignatureById d id = Some r ->
  exists r',
    getMultiSettleSignatureById (applyOp d op) id = Some r'
    /\ rowStep r r' (reservedBy d op id).
Proof.
  intros Hget.
  destruct op as [nano data | now sid amount | sid | fac nonce | sid | now].
  - (* create *)
    exists r. split; [|apply rowStep_refl].
    cbn [applyOp]. unfold createMultiSettleSignature.
    destruct (signatureInsertViolates d nano data); simpl; [exact Hget|].
    unfold getMultiSettleSignatureById in *. simpl.
    now rewrite find_append, Hget.
  - (* reserve *)
    cbn [applyOp].
    destruct (String.eqb sid id) eqn:Esid.
    + apply String.eqb_eq in Esid. subst sid. rewrite reservedBy_reserve.
      destruct (decrementRemainingAmount_outcome d now id amount)
        as [[E N] | [(r0 & G & S & E) | (r0 & remaining & a & G & S & B & A & L & E)]].
      * rewrite E. exists r. split; [exact Hget|].
        destruct (snd (decrementRemainingAmount d now id amount)) as [[u|]|];
          try apply rowStep_refl. exfalso. now apply (N u).
      * rewrite E. simpl. rewrite G in Hget. injection Hget as ->.
        rewrite (getSignature_update_same _ _ _ r) by auto.
        eexists. split; [reflexivity|]. split; [repeat split|].
        left. repeat split. intros Hna. contradiction.
      * rewrite E. simpl. rewrite A. rewrite G in Hget. injection Hget as ->.
        rewrite (getSignature_update_same _ _ _ r) by auto using reservedRow_id.
        eexists. split; [reflexivity|].
        split.
        { unfold reservedRow. destruct (remaining - a =? 0); repeat split. }
        right. split; [exact S|]. exists remaining.
        split; [exact B|]. split; [exact L|].
        unfold reservedRow. destruct (remaining - a =? 0); simpl;
          apply BigInt_toString.
    + rewrite (reservedBy_other _ _ _ _ _ Esid).
      assert (Hne : id <> sid)
        by (intros ->; rewrite String.eqb_refl in Esid; discriminate).
      exists r. split; [|apply rowStep_refl].
      destruct (decrementRemainingAmount_outcome d now sid amount)
        as [[E N] | [(r0 & G & S & E) | (r0 & remaining & a & G & S & B & A & L & E)]];
        rewrite E; simpl; [exact Hget | |];
        rewrite getSignature_update_other; auto using reservedRow_id.
  - (* revoke *)
    cbn [applyOp reservedBy]. unfold revokeMultiSettleSignature. cbn [fst].
    rewrite getSignature_updateWhere, Hget by reflexivity. simpl.
    eexists. split; [reflexivity|]. apply rowStep_status.
    intros Hx. apply andb_prop in Hx as [_ Hx].
    now apply SignatureStatus_eqb_eq.
  - (* revoke by nonce *)
    cbn [applyOp reservedBy]. unfold revokeMultiSettleSignatureByNonce. cbn [fst].
    rewrite getSignature_updateWhere, Hget by reflexivity. simpl.
    eexists. split; [reflexivity|]. apply rowStep_status.
    intros Hx. apply andb_prop in Hx as [_ Hx].
    now apply SignatureStatus_eqb_eq.
  - (* mark deposited *)
    cbn [applyOp reservedBy]. unfold markSignatureDeposited. cbn [fst].
    rewrite getSignature_update, Hget by reflexivity. simpl.
    eexists. split; [reflexivity|].
    destruct (String.eqb (Signature.id r) sid); [|apply rowStep_refl].
    split; [repeat split|]. left. auto.
  - (* cleanup *)
    cbn [applyOp reservedBy]. unfold cleanupExpiredSignatures. cbn [fst].
    rewrite getSignature_updateWhere, Hget by reflexivity. simpl.
    eexists. split; [reflexivity|]. apply rowStep_status.
    intros Hx. apply andb_prop in Hx as [Hx _].
    now apply SignatureStatus_eqb_eq.
Qed.

(** One operation seen from an id that has no row: still none, unless the
    operation creates it, with the remaining amount equal to the cap. *)
Lemma applyOp_missing d op id :
  getMultiSettleSignatureById d id = None ->
  reservedBy d op id = 0
  /\ (getMultiSettleSignatureById (applyOp d op) id = None
      \/ exists data row,
           op = OpCreate id data
           /\ getMultiSettleSignatureById (applyOp d op) id = Some row
           /\ Signature.cap_amount row = d_cap_amount data
           /\ Signature.remaining_amount row = d_cap_amount data
           /\ Signature.status row = active).
Proof.
  intros Hget.
  destruct op as [nano data | now sid amount | sid | fac nonce | sid | now].
  - split; [reflexivity|]. cbn [applyOp]. unfold createMultiSettleSignature.
    destruct (signatureInsertViolates d nano data); simpl; [now left|].
    unfold getMultiSettleSignatureById in *. simpl.
    rewrite find_append, Hget. simpl.
    destruct (String.eqb nano id) eqn:E; [|now left].
    apply String.eqb_eq in E. subst nano. right.
    do 2 eexists. split; [reflexivity|]. split; [reflexivity|]. repeat split.
  - cbn [applyOp]. destruct (String.eqb sid id) eqn:Esid.
    + apply String.eqb_eq in Esid. subst sid. rewrite reservedBy_reserve.
      unfold decrementRemainingAmount. rewrite Hget. simpl. auto.
    + rewrite (reservedBy_other _ _ _ _ _ Esid). split; [reflexivity|]. left.
      assert (Hne : id <> sid)
        by (intros ->; rewrite String.eqb_refl in Esid; discriminate).
      destruct (decrementRemainingAmount_outcome d now sid amount)
        as [[E N] | [(r0 & G & S & E) | (r0 & remaining & a & G & S & B & A & L & E)]];
        rewrite E; simpl; [exact Hget | |];
        rewrite getSignature_update_other; auto using reservedRow_id.
  - split; [reflexivity|]. left.
    cbn [applyOp]. unfold revokeMultiSettleSignature. cbn [fst].
    now rewrite getSignature_updateWhere, Hget.
  - split; [reflexivity|]. left.
    cbn [applyOp]. unfold revokeMultiSettleSignatureByNonce. cbn [fst].
    now rewrite getSignature_updateWhere, Hget.
  - split; [reflexivity|]. left.
    cbn [applyOp]. unfold markSignatureDeposited. cbn [fst].
    now rewrite getSignature_update, Hget.
  - split; [reflexivity|]. left.
    cbn [applyOp]. unfold cleanupExpiredSignatures. cbn [fst].
    now rewrite getSignature_updateWhere, Hget.
Qed.

(** A row that is not active keeps its status, remaining amount and owner
    along any sequence of operations. *)
Lemma inactive_row_frozen ops : forall d id r,
  getMultiSettleSignatureById d id = Some r ->
  Signature.status r <> active ->
  exists r',
    getMultiSettleSignatureById (applyOps d ops) id = Some r'
    /\ Signature.status r' = Signature.status r
    /\ Signature.remaining_amount r' = Signature.remaining_amount r
    /\ Signature.facilitator_id r' = Signature.facilitator_id r.
Proof.
  induction ops as [|op ops IH]; intros d id r Hget Hna; simpl.
  - exists r. auto.
  - destruct (applyOp_row d op id r Hget) as (r1 & H1 & (_ & Hf & _) & Hstep).
    destruct Hstep as [(Hrem & _ & Hst) | (Hact & _)]; [|contradiction].
    specialize (Hst Hna).
    destruct (IH (applyOp d op) id r1 H1) as (r' & G & S & R & F);
      [congruence|].
    exists r'. split; [exact G|]. repeat split; congruence.
Qed.

Lemma changes_positive {Row} (p : Row -> bool) rows :
  (0 <? changes p rows)%nat = true <-> exists x, In x rows /\ p x = true.
Proof.
  unfold changes. split.
  - intros H. apply Nat.ltb_lt in H.
    destruct (filter p rows) as [|x l] eqn:E; [simpl in H; lia|].
    exists x. apply filter_In. rewrite E. now left.
  - intros (x & Hin & Hp). apply Nat.ltb_lt.
    assert (Hf : In x (filter p rows)) by (apply filter_In; auto).
    destruct (filter p rows); [destruct Hf | simpl; lia].
Qed.

Lemma find_by_unique_id rows id r x :
  NoDup (map Signature.id rows) ->
  find (fun y => String.eqb (Signature.id y) id) rows = Some r ->
  In x rows -> Signature.id x = id -> x = r.
Proof.
  induction rows as [|y rows IH]; simpl; [discriminate|].
  intros Hnd Hf Hin Hid. inversion Hnd as [|? ? Hnotin Hnd']; subst.
  destruct (String.eqb (Signature.id y) (Signature.id x)) eqn:E.
  - injection Hf as <-. destruct Hin as [->|Hin]; [reflexivity|].
    apply String.eqb_eq in E. exfalso. apply Hnotin. rewrite E.
    now apply in_map.
  - destruct Hin as [->|Hin]; [now rewrite String.eqb_refl in E|].
    now apply IH.
Qed.

(** The primary key is kept by every store operation. *)
Lemma ids_updateWhere p f rows :
  (forall r, Signature.id (f r) = Signature.id r) ->
  map Signature.id (updateWhere p f rows) = map Signature.id rows.
Proof.
  intros Hf. unfold updateWhere. rewrite map_map. apply map_ext.
  intros r. destruct (p r); [apply Hf | reflexivity].
Qed.

Lemma uniqueIds_updateWhere p f d :
  (forall r, Signature.id (f r) = Signature.id r) ->
  uniqueIds d ->
  uniqueIds (with_signatures d (updateWhere p f (multisettle_signatures d))).
Proof.
  intros Hf Hu. unfold uniqueIds in *. simpl. now rewrite ids_updateWhere.
Qed.

Lemma uniqueIds_applyOp d op : uniqueIds d -> uniqueIds (applyOp d op).
Proof.
  intros Hu.
  destruct op as [nano data | now sid amount | sid | fac nonce | sid | now];
    cbn [applyOp].
  - unfold createMultiSettleSignature.
    destruct (signatureInsertViolates d nano data) eqn:E; simpl; [exact Hu|].
    unfold uniqueIds in *. simpl. rewrite map_app. simpl.
    apply NoDup_app; [exact Hu | constructor; [intros [] | constructor] |].
    intros x Hx [<-|[]].
    apply in_map_iff in Hx as (r & Hid & Hin).
    unfold signatureInsertViolates in E.
    assert (Hex : existsb
              (fun r0 => String.eqb (Signature.id r0) (Signature.id r)
                         || (String.eqb (Signature.facilitator_id r0)
                               (d_facilitator_id data)
                             && String.eqb (Signature.nonce r0) (d_nonce data)))
              (multisettle_signatures d) = true).
    { apply existsb_exists. exists r. split; [exact Hin|].
      now rewrite String.eqb_refl. }
    simpl in Hid. rewrite Hid in Hex. congruence.
  - destruct (decrementRemainingAmount_outcome d now sid amount)
      as [[E N] | [(r0 & G & S & E) | (r0 & remaining & a & G & S & B & A & L & E)]];
      rewrite E; simpl; [exact Hu | |];
      apply uniqueIds_updateWhere; auto using reservedRow_id.
  - now apply uniqueIds_updateWhere.
  - now apply uniqueIds_updateWhere.
  - now apply uniqueIds_updateWhere.
  - now apply uniqueIds_updateWhere.
Qed.

Lemma uniqueIds_applyOps ops : forall d, uniqueIds d -> uniqueIds (applyOps d ops).
Proof.
  induction ops as [|op ops IH]; intros d Hu; simpl; [exact Hu|].
  apply IH. now apply uniqueIds_applyOp.
Qed.

Lemma uniqueIds_empty : uniqueIds emptyDatabase.
Proof. constructor. Qed.

(* ================================================================== *)
(** ** Revocation *)
(* ================================================================== *)

(** C8: [revokeMultiSettleSignature] returns [true] exactly when the
    record is active, turns that record's status to [revoked] and changes
    nothing else, never a remaining amount; the [/revoke] route rejects a
    record that is not active. After a revocation that succeeded, whatever
    store operations follow, every settle request on that id fails without
    any effect, and the owner's request fails with "Authorization is
    revoked" whatever the remaining amount. *)
Theorem revoke_blocks_settle d id :
  (uniqueIds d ->
   (snd (revokeMultiSettleSignature d id) = true
    <-> exists r, getMultiSettleSignatureById d id = Some r
                  /\ Signature.status r = active))
  /\ (forall id' r,
        getMultiSettleSignatureById d id' = Some r ->
        exists r',
          getMultiSettleSignatureById (fst (revokeMultiSettleSignature d id)) id'
          = Some r'
          /\ r' = (if String.eqb (Signature.id r) id
                      && SignatureStatus_eqb (Signature.status r) active
                   then Signature.set_status revoked r else r)
          /\ Signature.remaining_amount r' = Signature.remaining_amount r
          /\ (Signature.status r <> active -> r' = r)
          /\ (id' <> id -> r' = r))
  /\ (forall record r,
        getMultiSettleSignatureById d id = Some r ->
        Signature.facilitator_id r = fr_id record ->
        Signature.status r <> active ->
        revoke record (Some id) d
        = (d, Some (failure 400
                      (Some ("Authorization is already "
                             ++ SignatureStatus_literal (Signature.status r)))
                      None None), []))
  /\ (uniqueIds d ->
      snd (revokeMultiSettleSignature d id) = true ->
      exists r,
        getMultiSettleSignatureById d id = Some r
        /\ forall ops env record parsed,
             q_authorizationId parsed = id ->
             let d2 := applyOps (fst (revokeMultiSettleSignature d id)) ops in
             let '(d3, resp, tr) := settle env record (Some parsed) d2 in
             d3 = d2 /\ tr = []
             /\ exists rsp,
                  resp = Some rsp /\ r_success rsp = false
                  /\ (Signature.facilitator_id r = fr_id record ->
                      rsp = failure 400 (Some "Authorization is revoked")
                              (Some (Signature.remaining_amount r)) None)).
Proof.
  assert (Hiff : uniqueIds d ->
            (snd (revokeMultiSettleSignature d id) = true
             <-> exists r, getMultiSettleSignatureById d id = Some r
                           /\ Signature.status r = active)).
  { intros Hu. unfold revokeMultiSettleSignature. cbn [snd].
    rewrite changes_positive. split.
    - intros (x & Hin & Hp). apply andb_prop in Hp as [Hid Hst].
      apply String.eqb_eq in Hid. apply SignatureStatus_eqb_eq in Hst.
      destruct (getMultiSettleSignatureById d id) as [r|] eqn:G.
      + exists r. split; [reflexivity|].
        now rewrite <- (find_by_unique_id _ _ _ x Hu G Hin Hid).
      + exfalso. unfold getMultiSettleSignatureById in G.
        apply (find_none _ _ G) in Hin. simpl in Hin.
        rewrite Hid, String.eqb_refl in Hin. discriminate.
    - intros (r & G & Hst). exists r.
      unfold getMultiSettleSignatureById in G. apply find_some in G as [Hin Hid].
      split; [exact Hin|]. simpl in Hid. rewrite Hid, Hst. reflexivity. }
  assert (Hrow : forall id' r,
            getMultiSettleSignatureById d id' = Some r ->
            getMultiSettleSignatureById (fst (revokeMultiSettleSignature d id)) id'
            = Some (if String.eqb (Signature.id r) id
                       && SignatureStatus_eqb (Signature.status r) active
                    then Signature.set_status revoked r else r)).
  { intros id' r G. unfold revokeMultiSettleSignature. cbn [fst].
    now rewrite getSignature_updateWhere, G. }
  split; [exact Hiff|]. split; [|split].
  - intros id' r G. eexists. split; [apply (Hrow id' r G)|].
    split; [reflexivity|].
    destruct (String.eqb (Signature.id r) id) eqn:Eid;
      destruct (SignatureStatus_eqb (Signature.status r) active) eqn:Est;
      simpl; repeat split; auto.
    + intros Hna. apply SignatureStatus_eqb_eq in Est. contradiction.
    + intros Hne. apply String.eqb_eq in Eid.
      rewrite (getSignature_id _ _ _ G) in Eid. now destruct Hne.
  - intros record r G Hown Hna. handler_norm.
    rewrite G, Hown, String.eqb_refl.
    apply SignatureStatus_eqb_neq in Hna. rewrite Hna. reflexivity.
  - intros Hu Hok. apply (Hiff Hu) in Hok as (r & G & Hst).
    exists r. split; [exact G|].
    intros ops env record parsed Hid.
    pose proof (Hrow id r G) as G1.
    remember (fst (revokeMultiSettleSignature d id)) as d1 eqn:Ed1.
    rewrite (getSignature_id _ _ _ G), String.eqb_refl, Hst in G1.
    cbn [SignatureStatus_eqb andb] in G1.
    destruct (inactive_row_frozen ops _ _ _ G1) as (r' & G2 & S2 & R2 & F2);
      [simpl; discriminate|].
    simpl in S2, R2, F2.
    remember (applyOps d1 ops) as d2 eqn:Ed2.
    handler_norm. rewrite Hid, G2, F2, S2, R2.
    destruct (String.eqb (Signature.facilitator_id r) (fr_id record)) eqn:Eown;
      cbn [SignatureStatus_eqb SignatureStatus_literal].
    + split; [reflexivity|]. split; [reflexivity|].
      eexists. split; [reflexivity|]. split; [reflexivity|]. reflexivity.
    + split; [reflexivity|]. split; [reflexivity|].
      eexists. split; [reflexivity|]. split; [reflexivity|].
      intros Hown. rewrite Hown, String.eqb_refl in Eown. discriminate.
Qed.

(** C8 on a cap of 200 with 120 remaining: revoked, then marked deposited
    and swept, a settle request of the owner is refused as revoked. *)
Lemma revoke_blocks_settle_witness :
  exists r,
    getMultiSettleSignatureById
      (sampleDatabase (sampleSignature "auth_1" "0xn1" "200" "120" 1000 active 1))
      "auth_1" = Some r
    /\ settle (sampleSettleEnv (Throw "unused") (Throw "unused") (Throw "unused"))
         sampleRecord (Some (mkSettleRequest "auth_1" "0xAlice" "10"))
         (applyOps
            (fst (revokeMultiSettleSignature
                    (sampleDatabase
                       (sampleSignature "auth_1" "0xn1" "200" "120" 1000 active 1))
                    "auth_1"))
            [OpMarkDeposited "auth_1"; OpCleanupExpired 2000])
       = (applyOps
            (fst (revokeMultiSettleSignature
                    (sampleDatabase
                       (sampleSignature "auth_1" "0xn1" "200" "120" 1000 active 1))
                    "auth_1"))
            [OpMarkDeposited "auth_1"; OpCleanupExpired 2000],
          Some (failure 400 (Some "Authorization is revoked") (Some "120") None),
          []).
Proof.
  destruct (proj2 (proj2 (proj2 (revoke_blocks_settle
    (sampleDatabase (sampleSignature "auth_1" "0xn1" "200" "120" 1000 active 1))
    "auth_1")))) as (r & G & H).
  - unfold uniqueIds. simpl. constructor; [intros [] | constructor].
  - reflexivity.
  - exists r. split; [exact G|].
    specialize (H [OpMarkDeposited "auth_1"; OpCleanupExpired 2000]
      (sampleSettleEnv (Throw "unused") (Throw "unused") (Throw "unused"))
      sampleRecord (mkSettleRequest "auth_1" "0xAlice" "10") eq_refl).
    vm_compute in G. injection G as <-.
    vm_compute in H. vm_compute.
    destruct H as (_ & _ & rsp & E & _ & Hr).
    rewrite E. rewrite (Hr eq_refl). reflexivity.
Defined.

(* ================================================================== *)
(** ** The cap *)
(* ================================================================== *)

(** A reserve of "-5" on a cap of 100: it is granted, and the remaining
    amount goes up from 100 to 105, above the cap. *)
Lemma negative_reserve_exceeds_cap :
  let data := mkCreateSignatureData "fac_1" "base" "0xusdc" "0xpayer" "100"
                1000 "0xn1" "0xsig" "payload" in
  let d1 := applyOps emptyDatabase [OpCreate "auth_1" data] in
  let d2 := applyOp d1 (OpReserve 500 "auth_1" "-5") in
  option_map Signature.remaining_amount (getMultiSettleSignatureById d1 "auth_1")
  = Some "100"
  /\ option_map Signature.remaining_amount (getMultiSettleSignatureById d2 "auth_1")
     = Some "105"
  /\ option_map Signature.cap_amount (getMultiSettleSignatureById d2 "auth_1")
     = Some "100"
  /\ BigInt "105" = Some 105 /\ BigInt "100" = Some 100 /\ ~ 105 <= 100.
Proof. repeat split; try (vm_compute; reflexivity). lia. Qed.

Lemma reservedBy_nonneg d op id :
  nonNegativeOp op = true -> 0 <= reservedBy d op id.
Proof.
  destruct op; simpl; try lia. intros H.
  destruct (String.eqb signatureId id); [|lia].
  destruct (snd (decrementRemainingAmount d now signatureId amount)) as [[u|]|];
    try lia.
  destruct (BigInt amount); [|lia]. now apply Z.leb_le.
Qed.

Lemma ledgerInv_ext d g g' :
  (forall id, g id = g' id) -> ledgerInv d g -> ledgerInv d g'.
Proof.
  intros E H id. specialize (H id). rewrite <- (E id). exact H.
Qed.

(** One operation keeps the ledger, the reserved amount being added. *)
Lemma ledgerInv_step d g op :
  ledgerInv d g ->
  nonNegativeOp op = true ->
  ledgerInv (applyOp d op) (fun id => g id + reservedBy d op id).
Proof.
  intros Hinv Hop id. specialize (Hinv id).
  pose proof (reservedBy_nonneg d op id Hop) as Hnn.
  destruct (getMultiSettleSignatureById d id) as [r|] eqn:G.
  - destruct Hinv as (remaining & cap & Hrem & Hcap & H0 & Hg0 & Hsum).
    destruct (applyOp_row d op id r G) as (r' & G' & (_ & _ & Hc) & Hstep).
    rewrite G'. destruct Hstep as [(Hr & Hx & _) | (_ & rem0 & Hrem0 & Hle & Hnew)].
    + exists remaining, cap. rewrite Hr, Hc, Hx. repeat split; auto; lia.
    + rewrite Hrem in Hrem0. injection Hrem0 as <-.
      exists (remaining - reservedBy d op id), cap. rewrite Hc.
      repeat split; auto; lia.
  - destruct (applyOp_missing d op id G)
      as (Hx & [G' | (data & row & -> & G' & Hc & Hr & _)]).
    + rewrite G', Hx. lia.
    + rewrite G'. simpl in Hop.
      destruct (BigInt (d_cap_amount data)) as [c|] eqn:Ec; [|discriminate].
      apply Z.leb_le in Hop.
      exists c, c. rewrite Hr, Hc. simpl. repeat split; auto; lia.
Qed.

Lemma ledgerInv_run ops : forall d g,
  ledgerInv d g ->
  forallb nonNegativeOp ops = true ->
  ledgerInv (applyOps d ops) (fun id => g id + reservedTotal d ops id).
Proof.
  induction ops as [|op ops IH]; intros d g Hinv Hops; simpl.
  - apply (ledgerInv_ext d g); [intros; lia | exact Hinv].
  - simpl in Hops. apply andb_prop in Hops as [Hop Hops].
    apply (ledgerInv_ext _
             (fun id => (g id + reservedBy d op id)
                        + reservedTotal (applyOp d op) ops id));
      [intros; lia|].
    apply IH; [|exact Hops]. now apply ledgerInv_step.
Qed.

Lemma ledgerInv_empty : ledgerInv emptyDatabase (fun _ => 0).
Proof. intros id. reflexivity. Qed.

(** C2 (amended): along every sequence of store operations from the empty
    database in which every created cap reads as a non-negative integer
    and no reserved amount is negative, every record has
    [0 <= remaining <= cap], and the amounts for which the reserve returned
    a record sum, with the remaining amount, to the cap, so never exceed
    it; and one more such operation leaves the cap, does not increase the
    remaining amount, and leaves the remaining amount and the status of a
    record that is not active as they are. *)
Theorem reservations_within_cap ops :
  forallb nonNegativeOp ops = true ->
  (forall id r,
     getMultiSettleSignatureById (applyOps emptyDatabase ops) id = Some r ->
     exists remaining cap,
       BigInt (Signature.remaining_amount r) = Some remaining
       /\ BigInt (Signature.cap_amount r) = Some cap
       /\ 0 <= remaining <= cap
       /\ reservedTotal emptyDatabase ops id + remaining = cap
       /\ reservedTotal emptyDatabase ops id <= cap)
  /\ (forall op id r,
        nonNegativeOp op = true ->
        getMultiSettleSignatureById (applyOps emptyDatabase ops) id = Some r ->
        exists r' remaining remaining',
          getMultiSettleSignatureById
            (applyOp (applyOps emptyDatabase ops) op) id = Some r'
          /\ Signature.cap_amount r' = Signature.cap_amount r
          /\ BigInt (Signature.remaining_amount r) = Some remaining
          /\ BigInt (Signature.remaining_amount r') = Some remaining'
          /\ remaining' <= remaining
          /\ (Signature.status r <> active ->
              Signature.remaining_amount r' = Signature.remaining_amount r
              /\ Signature.status r' = Signature.status r)).
Proof.
  intros Hops.
  pose proof (ledgerInv_run ops emptyDatabase (fun _ => 0) ledgerInv_empty Hops)
    as Hinv.
  split.
  - intros id r G. specialize (Hinv id). rewrite G in Hinv.
    destruct Hinv as (remaining & cap & Hrem & Hcap & H0 & Hg0 & Hsum).
    exists remaining, cap. simpl in Hg0, Hsum. repeat split; auto; lia.
  - intros op id r Hop G. specialize (Hinv id). rewrite G in Hinv.
    destruct Hinv as (remaining & cap & Hrem & Hcap & H0 & Hg0 & Hsum).
    pose proof (reservedBy_nonneg (applyOps emptyDatabase ops) op id Hop) as Hnn.
    destruct (applyOp_row _ op id r G) as (r' & G' & (_ & _ & Hc) & Hstep).
    destruct Hstep as [(Hr & Hx & Hst) | (Hact & rem0 & Hrem0 & Hle & Hnew)].
    + exists r', remaining, remaining. rewrite Hr.
      repeat split; auto; try lia.
    + rewrite Hrem in Hrem0. injection Hrem0 as <-.
      exists r', remaining, (remaining - reservedBy (applyOps emptyDatabase ops) op id).
      repeat split; auto; try lia; contradiction.
Qed.

(** C2 on the scenario of the examples: a cap of 200, reserves of 50, 30
    and 40 granted, one of 100 refused, then a revocation and a reserve
    of 10: 120 reserved, 80 remaining. *)
Lemma reservations_within_cap_witness :
  exists r remaining cap,
    getMultiSettleSignatureById
      (applyOps emptyDatabase
         [OpCreate "auth_1"
            (mkCreateSignatureData "fac_1" "base" "0xusdc" "0xpayer" "200"
               1000 "0xn1" "0xsig" "payload");
          OpReserve 500 "auth_1" "50"; OpReserve 501 "auth_1" "30";
          OpReserve 502 "auth_1" "40"; OpReserve 503 "auth_1" "100";
          OpRevoke "auth_1"; OpReserve 504 "auth_1" "10"])
      "auth_1" = Some r
    /\ BigInt (Signature.remaining_amount r) = Some remaining
    /\ BigInt (Signature.cap_amount r) = Some cap
    /\ 0 <= remaining <= cap.
Proof.
  destruct (proj1 (reservations_within_cap
    [OpCreate "auth_1"
       (mkCreateSignatureData "fac_1" "base" "0xusdc" "0xpayer" "200"
          1000 "0xn1" "0xsig" "payload");
     OpReserve 500 "auth_1" "50"; OpReserve 501 "auth_1" "30";
     OpReserve 502 "auth_1" "40"; OpReserve 503 "auth_1" "100";
     OpRevoke "auth_1"; OpReserve 504 "auth_1" "10"] eq_refl)
    "auth_1"
    (Signature.mk "auth_1" "fac_1" "base" "0xusdc" "0xpayer" "200" "80" 1000
       "0xn1" "0xsig" "payload" revoked 0) eq_refl)
    as (remaining & cap & Hrem & Hcap & Hbounds & _).
  exists (Signature.mk "auth_1" "fac_1" "base" "0xusdc" "0xpayer" "200" "80" 1000
            "0xn1" "0xsig" "payload" revoked 0), remaining, cap.
  split; [reflexivity|]. split; [exact Hrem|]. split; [exact Hcap | exact Hbounds].
Defined.

(* ================================================================== *)
(** ** More of the data layer *)
(* ================================================================== *)

(** X1: [createMultiSettleSignature] with a new id and a new nonce stores
    the record it returns: it is found by its id and by its nonce, with the
    sender's address in lower case, the remaining amount equal to the cap,
    status [active] and [deposited] 0; every other lookup, by id or by
    nonce, answers as before, and the settlements are untouched. *)
Theorem createMultiSettleSignature_round_trip d id data :
  getMultiSettleSignatureById d id = None ->
  getMultiSettleSignatureByNonce d (d_facilitator_id data) (d_nonce data) = None ->
  exists d' row,
    createMultiSettleSignature d id data = (d', Some row)
    /\ getMultiSettleSignatureById d' id = Some row
    /\ getMultiSettleSignatureByNonce d' (d_facilitator_id data) (d_nonce data)
       = Some row
    /\ Signature.id row = id
    /\ Signature.from_address row = toLowerCase (d_from_address data)
    /\ Signature.cap_amount row = d_cap_amount data
    /\ Signature.remaining_amount row = d_cap_amount data
    /\ Signature.payment_payload row = d_payment_payload data
    /\ Signature.status row = active
    /\ Signature.deposited row = 0
    /\ (forall id', id' <> id ->
          getMultiSettleSignatureById d' id' = getMultiSettleSignatureById d id')
    /\ (forall fac nonce r,
          getMultiSettleSignatureByNonce d fac nonce = Some r ->
          getMultiSettleSignatureByNonce d' fac nonce = Some r)
    /\ multisettle_settlements d' = multisettle_settlements d.
Proof.
  intros Hid Hnonce.
  destruct (createMultiSettleSignature_fresh d id data Hid Hnonce) as (E & G & N).
  do 2 eexists. split; [exact E|]. split; [exact G|]. split; [exact N|].
  repeat (split; [reflexivity|]).
  split; [|split; [|reflexivity]].
  - intros id' Hne. unfold getMultiSettleSignatureById. simpl.
    rewrite find_append. simpl.
    destruct (find _ (multisettle_signatures d)); [reflexivity|].
    apply not_eq_sym in Hne. apply String.eqb_neq in Hne. now rewrite Hne.
  - intros fac nonce r Hr. unfold getMultiSettleSignatureByNonce in *. simpl.
    now rewrite find_append, Hr.
Qed.

(** X1 on the empty database, with a sender address in mixed case. *)
Lemma createMultiSettleSignature_round_trip_witness :
  exists d' row,
    createMultiSettleSignature emptyDatabase "auth_1"
      (mkCreateSignatureData "fac_1" "base" "0xusdc" "0xAbCdEF" "200" 1000
         "0xn1" "0xsig" "payload") = (d', Some row)
    /\ getMultiSettleSignatureById d' "auth_1" = Some row
    /\ Signature.from_address row = "0xabcdef".
Proof.
  destruct (createMultiSettleSignature_round_trip emptyDatabase "auth_1"
    (mkCreateSignatureData "fac_1" "base" "0xusdc" "0xAbCdEF" "200" 1000
       "0xn1" "0xsig" "payload") eq_refl eq_refl)
    as (d' & row & E & G & _ & _ & Hfrom & _).
  exists d', row. split; [exact E|]. split; [exact G | exact Hfrom].
Defined.

Lemma reservedRow_twice remaining a b x :
  remaining - a <> 0 ->
  reservedRow (remaining - a) b (reservedRow remaining a x)
  = reservedRow remaining (a + b) x.
Proof.
  intros Hnz. unfold reservedRow.
  apply Z.eqb_neq in Hnz. rewrite Hnz.
  replace (remaining - a - b) with (remaining - (a + b)) by lia.
  destruct (remaining - (a + b) =? 0); reflexivity.
Qed.

Lemma updateSignatureById_twice id f g d :
  (forall x, Signature.id (g x) = Signature.id x) ->
  updateSignatureById id f (updateSignatureById id g d)
  = updateSignatureById id (fun x => f (g x)) d.
Proof.
  intros Hg. unfold updateSignatureById, with_signatures, updateWhere. simpl.
  f_equal. rewrite map_map. apply map_ext. intros x.
  destruct (String.eqb (Signature.id x) id) eqn:E.
  - now rewrite Hg, E.
  - now rewrite E.
Qed.

Lemma updateSignatureById_ext id f g d :
  (forall x, f x = g x) -> updateSignatureById id f d = updateSignatureById id g d.
Proof.
  intros H. unfold updateSignatureById, updateWhere. f_equal.
  apply map_ext. intros x. now rewrite H.
Qed.

(** X2: two reservations in a row that are both granted, the first not
    exhausting the authorization, leave the database, and return the
    record, that one reservation of the sum does. *)
Theorem reserve_twice_is_reserve_sum d now now' id r remaining
    amountA amountB amountSum a b :
  getMultiSettleSignatureById d id = Some r ->
  Signature.status r = active ->
  now <= Signature.valid_until r ->
  now' <= Signature.valid_until r ->
  BigInt (Signature.remaining_amount r) = Some remaining ->
  BigInt amountA = Some a ->
  BigInt amountB = Some b ->
  BigInt amountSum = Some (a + b) ->
  a < remaining ->
  b <= remaining - a ->
  decrementRemainingAmount
    (fst (decrementRemainingAmount d now id amountA)) now' id amountB
  = decrementRemainingAmount d now' id amountSum.
Proof.
  intros Hget Hst Hnow Hnow' Hrem Ha Hb Hsum Hlt Hle.
  rewrite (decrementRemainingAmount_granted d now id amountA r remaining a)
    by (auto; lia).
  cbn [fst].
  assert (Hnz : remaining - a <> 0) by lia.
  assert (Hget1 : getMultiSettleSignatureById
                    (updateSignatureById id (reservedRow remaining a) d) id
                  = Some (reservedRow remaining a r))
    by (apply getSignature_update_same; auto using reservedRow_id).
  assert (Hrow : reservedRow remaining a r
                 = Signature.set_remaining_amount (toString (remaining - a)) r).
  { unfold reservedRow. apply Z.eqb_neq in Hnz. now rewrite Hnz. }
  assert (Hparse : BigInt (Signature.remaining_amount (reservedRow remaining a r))
                   = Some (remaining - a))
    by (rewrite Hrow; simpl; apply BigInt_toString).
  assert (Hst1 : Signature.status (reservedRow remaining a r) = active)
    by (rewrite Hrow; exact Hst).
  assert (Hnow1 : now' <= Signature.valid_until (reservedRow remaining a r))
    by (rewrite Hrow; exact Hnow').
  rewrite (decrementRemainingAmount_granted _ now' id amountB
             (reservedRow remaining a r) (remaining - a) b Hget1 Hst1 Hnow1
             Hparse Hb Hle).
  rewrite (decrementRemainingAmount_granted d now' id amountSum r remaining (a + b))
    by (auto; lia).
  rewrite updateSignatureById_twice by (intros; apply reservedRow_id).
  rewrite (updateSignatureById_ext id _ (reservedRow remaining (a + b)))
    by (intros; now apply reservedRow_twice).
  now rewrite reservedRow_twice.
Qed.

(** X2 on 120 remaining: 50 then 30 is 80. *)
Lemma reserve_twice_is_reserve_sum_witness :
  decrementRemainingAmount
    (fst (decrementRemainingAmount
            (sampleDatabase (sampleSignature "auth_1" "0xn1" "200" "120" 1000 active 1))
            500 "auth_1" "50"))
    501 "auth_1" "30"
  = decrementRemainingAmount
      (sampleDatabase (sampleSignature "auth_1" "0xn1" "200" "120" 1000 active 1))
      501 "auth_1" "80".
Proof.
  apply (reserve_twice_is_reserve_sum _ 500 501 "auth_1"
           (sampleSignature "auth_1" "0xn1" "200" "120" 1000 active 1) 120
           "50" "30" "80" 50 30);
    try reflexivity; vm_compute; discriminate.
Defined.

(** X3: no double spending. Once a reservation of [a] has been granted on
    a remaining amount [remaining], a reservation of any [b] with
    [a + b > remaining] returns [null], at whatever time it runs, and the
    remaining amount stays the one the first reservation left. *)
Theorem reserve_no_double_spend d now id r remaining amountA a d1 u :
  getMultiSettleSignatureById d id = Some r ->
  BigInt (Signature.remaining_amount r) = Some remaining ->
  BigInt amountA = Some a ->
  decrementRemainingAmount d now id amountA = (d1, Return (Some u)) ->
  forall now' amountB b,
    BigInt amountB = Some b ->
    a + b > remaining ->
    snd (decrementRemainingAmount d1 now' id amountB) = Return None
    /\ exists u',
         getMultiSettleSignatureById
           (fst (decrementRemainingAmount d1 now' id amountB)) id = Some u'
         /\ Signature.remaining_amount u' = Signature.remaining_amount u
         /\ BigInt (Signature.remaining_amount u') = Some (remaining - a).
Proof.
  intros Hget Hrem Ha Hdec now' amountB b Hb Hover.
  apply decrementRemainingAmount_returned in Hdec
    as (r0 & rem0 & a0 & G & S & _ & B & A & L & -> & ->).
  rewrite Hget in G. injection G as <-.
  rewrite Hrem in B. injection B as <-. rewrite Ha in A. injection A as <-.
  assert (Hget1 : getMultiSettleSignatureById
                    (updateSignatureById id (reservedRow remaining a) d) id
                  = Some (reservedRow remaining a r))
    by (apply getSignature_update_same; auto using reservedRow_id).
  assert (Hparse : BigInt (Signature.remaining_amount (reservedRow remaining a r))
                   = Some (remaining - a)).
  { unfold reservedRow. destruct (remaining - a =? 0); simpl;
      apply BigInt_toString. }
  unfold decrementRemainingAmount. rewrite Hget1.
  destruct (negb (SignatureStatus_eqb
                    (Signature.status (reservedRow remaining a r)) active)) eqn:Est.
  { cbn [fst snd]. split; [reflexivity|]. eexists. split; [exact Hget1|]. auto. }
  destruct (Signature.valid_until (reservedRow remaining a r) <? now') eqn:Eexp.
  { cbn [fst snd]. split; [reflexivity|].
    rewrite (getSignature_update_same id (Signature.set_status expired) _ _
               (fun _ => eq_refl) Hget1).
    eexists. split; [reflexivity|]. simpl. auto. }
  rewrite Hparse, Hb.
  assert (E : (b >? remaining - a) = true)
    by (rewrite Z.gtb_ltb; apply Z.ltb_lt; lia).
  rewrite E. cbn [fst snd]. split; [reflexivity|].
  eexists. split; [exact Hget1|]. auto.
Qed.

(** X3 on 120 remaining: after 80 is granted, 50 is refused. *)
Lemma reserve_no_double_spend_witness :
  snd (decrementRemainingAmount
         (fst (decrementRemainingAmount
                 (sampleDatabase
                    (sampleSignature "auth_1" "0xn1" "200" "120" 1000 active 1))
                 500 "auth_1" "80"))
         501 "auth_1" "50") = Return None.
Proof.
  apply (reserve_no_double_spend
           (sampleDatabase (sampleSignature "auth_1" "0xn1" "200" "120" 1000 active 1))
           500 "auth_1"
           (sampleSignature "auth_1" "0xn1" "200" "120" 1000 active 1) 120
           "80" 80 _ _ eq_refl eq_refl eq_refl eq_refl 501 "50" 50 eq_refl eq_refl).
Defined.

Lemma with_signatures_same d : with_signatures d (multisettle_signatures d) = d.
Proof. now destruct d. Qed.

Lemma with_signatures_twice d l l' :
  with_signatures (with_signatures d l) l' = with_signatures d l'.
Proof. reflexivity. Qed.

Lemma updateWhere_none {Row} (p : Row -> bool) f rows :
  (forall r, In r rows -> p r = false) ->
  updateWhere p f rows = rows /\ changes p rows = 0%nat.
Proof.
  intros H. unfold updateWhere, changes. split.
  - rewrite <- (map_id rows) at 2. apply map_ext_in.
    intros r Hr. now rewrite (H r Hr).
  - induction rows as [|x rows IH]; simpl; [reflexivity|].
    rewrite (H x (or_introl eq_refl)). apply IH.
    intros r Hr. apply H. now right.
Qed.

Lemma in_updateWhere {Row} (p : Row -> bool) f rows r :
  In r (updateWhere p f rows) ->
  exists x, In x rows /\ r = (if p x then f x else x).
Proof.
  unfold updateWhere. intros H. apply in_map_iff in H as (x & E & Hin).
  exists x. split; [exact Hin | now symmetry].
Qed.

Lemma cleanup_leaves_none_expired d now r :
  In r (multisettle_signatures (fst (cleanupExpiredSignatures d now))) ->
  Signature.status r = active -> now <= Signature.valid_until r.
Proof.
  intros Hin Hst. simpl in Hin.
  apply in_updateWhere in Hin as (x & Hx & ->).
  destruct (SignatureStatus_eqb (Signature.status x) active
            && (Signature.valid_until x <? now)) eqn:E; [discriminate Hst|].
  apply SignatureStatus_eqb_eq in Hst. rewrite Hst in E. simpl in E.
  now apply Z.ltb_ge.
Qed.

(** X4: [cleanupExpiredSignatures] turns to [expired] the active records
    whose [valid_until] is before [now], and those only: a record valid
    until [now] itself stays active, and no remaining amount changes.
    Afterwards no active record is past [now]; a second sweep at that time
    or an earlier one changes nothing and returns 0; and the sweep returns
    0 exactly when it left the database as it was. *)
Theorem cleanupExpiredSignatures_sweeps d now :
  (forall id r,
     getMultiSettleSignatureById d id = Some r ->
     getMultiSettleSignatureById (fst (cleanupExpiredSignatures d now)) id
     = Some (if SignatureStatus_eqb (Signature.status r) active
                && (Signature.valid_until r <? now)
             then Signature.set_status expired r else r))
  /\ (forall r,
        In r (multisettle_signatures (fst (cleanupExpiredSignatures d now))) ->
        Signature.status r = active -> now <= Signature.valid_until r)
  /\ map Signature.remaining_amount
       (multisettle_signatures (fst (cleanupExpiredSignatures d now)))
     = map Signature.remaining_amount (multisettle_signatures d)
  /\ (forall now',
        now' <= now ->
        cleanupExpiredSignatures (fst (cleanupExpiredSignatures d now)) now'
        = (fst (cleanupExpiredSignatures d now), 0%nat))
  /\ (snd (cleanupExpiredSignatures d now) = 0%nat
      <-> fst (cleanupExpiredSignatures d now) = d).
Proof.
  set (p := fun r => SignatureStatus_eqb (Signature.status r) active
                     && (Signature.valid_until r <? now)).
  assert (Hpost : forall r,
            In r (multisettle_signatures (fst (cleanupExpiredSignatures d now))) ->
            Signature.status r = active -> now <= Signature.valid_until r).
  { intros r. apply cleanup_leaves_none_expired. }
  split; [|split; [exact Hpost | split; [|split]]].
  - intros id r G. unfold cleanupExpiredSignatures. cbn [fst].
    now rewrite getSignature_updateWhere, G.
  - simpl. unfold updateWhere. rewrite map_map. apply map_ext.
    intros r. now destruct (_ && _).
  - intros now' Hle.
    set (d' := fst (cleanupExpiredSignatures d now)) in *.
    destruct (updateWhere_none
                (fun r => SignatureStatus_eqb (Signature.status r) active
                          && (Signature.valid_until r <? now'))
                (Signature.set_status expired) (multisettle_signatures d'))
      as [Hrows Hcount].
    { intros r Hin.
      destruct (SignatureStatus_eqb (Signature.status r) active) eqn:Est;
        [|reflexivity].
      apply SignatureStatus_eqb_eq in Est. simpl.
      apply Z.ltb_ge. specialize (Hpost r Hin Est). lia. }
    unfold cleanupExpiredSignatures at 1. rewrite Hrows, Hcount.
    now rewrite with_signatures_same.
  - unfold cleanupExpiredSignatures. cbn [fst snd]. fold p. split.
    + intros Hz.
      assert (Hnone : forall r, In r (multisettle_signatures d) -> p r = false).
      { intros r Hin. destruct (p r) eqn:E; [|reflexivity].
        assert (Hf : In r (filter p (multisettle_signatures d)))
          by (apply filter_In; auto).
        unfold changes in Hz. destruct (filter p (multisettle_signatures d));
          [destruct Hf | discriminate]. }
      rewrite (proj1 (updateWhere_none p _ _ Hnone)).
      apply with_signatures_same.
    + intros Hsame.
      apply (updateWhere_none p (Signature.set_status expired)).
      intros r Hin. destruct (p r) eqn:E; [|reflexivity]. exfalso.
      assert (Hin' : In (Signature.set_status expired r)
                       (multisettle_signatures d)).
      { rewrite <- Hsame at 1. simpl. unfold updateWhere.
        apply in_map_iff. exists r. now rewrite E. }
      (* the flipped row would be in the swept table, still past [now] *)
      assert (Hrows : updateWhere p (Signature.set_status expired)
                        (multisettle_signatures d) = multisettle_signatures d)
        by (rewrite <- Hsame at 2; reflexivity).
      clear Hin'.
      unfold p in E. apply andb_prop in E as [Est Eexp].
      apply SignatureStatus_eqb_eq in Est. apply Z.ltb_lt in Eexp.
      assert (Hr' : In r (multisettle_signatures
                            (fst (cleanupExpiredSignatures d now)))).
      { simpl. fold p. rewrite Hrows. exact Hin. }
      specialize (Hpost r Hr' Est). lia.
Qed.

(** X4 on a record valid until 400, swept at 500. *)
Lemma cleanupExpiredSignatures_sweeps_witness :
  getMultiSettleSignatureById
    (fst (cleanupExpiredSignatures
            (sampleDatabase (sampleSignature "auth_1" "0xn1" "200" "120" 400 active 1))
            500))
    "auth_1"
  = Some (sampleSignature "auth_1" "0xn1" "200" "120" 400 expired 1).
Proof.
  exact (proj1 (cleanupExpiredSignatures_sweeps
    (sampleDatabase (sampleSignature "auth_1" "0xn1" "200" "120" 400 active 1)) 500)
    "auth_1" (sampleSignature "auth_1" "0xn1" "200" "120" 400 active 1) eq_refl).
Defined.

(** X5: the sweep and the reservation agree on expiry. On an active
    record past its [valid_until] the sweep writes what
    [decrementRemainingAmount] would write; and after a sweep at [now] a
    reservation at that time or earlier never meets an expired record: it
    either is granted or leaves the database as it is. *)
Theorem cleanup_agrees_with_reserve d now :
  (forall id amount r,
     getMultiSettleSignatureById d id = Some r ->
     Signature.status r = active ->
     Signature.valid_until r < now ->
     getMultiSettleSignatureById (fst (cleanupExpiredSignatures d now)) id
     = getMultiSettleSignatureById
         (fst (decrementRemainingAmount d now id amount)) id)
  /\ (forall now' id amount,
        now' <= now ->
        fst (decrementRemainingAmount
               (fst (cleanupExpiredSignatures d now)) now' id amount)
        = fst (cleanupExpiredSignatures d now)
        \/ exists u,
             snd (decrementRemainingAmount
                    (fst (cleanupExpiredSignatures d now)) now' id amount)
             = Return (Some u)).
Proof.
  split.
  - intros id amount r G Hst Hexp.
    destruct (decrementRemainingAmount_expired d now id amount r G Hst Hexp)
      as [E G'].
    rewrite E. cbn [fst]. rewrite G'.
    unfold cleanupExpiredSignatures. cbn [fst].
    rewrite getSignature_updateWhere, G by reflexivity. simpl.
    apply Z.ltb_lt in Hexp. now rewrite Hst, Hexp.
  - intros now' id amount Hle.
    set (d' := fst (cleanupExpiredSignatures d now)).
    destruct (getMultiSettleSignatureById d' id) as [r|] eqn:G;
      [|left; unfold decrementRemainingAmount; now rewrite G].
    destruct (SignatureStatus_eqb (Signature.status r) active) eqn:Est;
      [|left; unfold decrementRemainingAmount; now rewrite G, Est].
    assert (Hst := proj1 (SignatureStatus_eqb_eq _ _) Est).
    assert (Hin : In r (multisettle_signatures d'))
      by (unfold getMultiSettleSignatureById in G; now apply find_some in G).
    pose proof (cleanup_leaves_none_expired d now r Hin Hst) as Hv.
    assert (Ev : (Signature.valid_until r <? now') = false)
      by (apply Z.ltb_ge; lia).
    destruct (BigInt (Signature.remaining_amount r)) as [remaining|] eqn:B;
      [|left; unfold decrementRemainingAmount; now rewrite G, Est, Ev, B].
    destruct (BigInt amount) as [a|] eqn:A;
      [|left; unfold decrementRemainingAmount; now rewrite G, Est, Ev, B, A].
    destruct (a >? remaining) eqn:Egt;
      [left; unfold decrementRemainingAmount; now rewrite G, Est, Ev, B, A, Egt|].
    right. rewrite Z.gtb_ltb in Egt. apply Z.ltb_ge in Egt.
    rewrite (decrementRemainingAmount_granted d' now' id amount r remaining a)
      by (auto; lia).
    eexists. reflexivity.
Qed.

(** X5 on a record valid until 400: swept at 500 or reserved at 500, it
    reads the same. *)
Lemma cleanup_agrees_with_reserve_witness :
  getMultiSettleSignatureById
    (fst (cleanupExpiredSignatures
            (sampleDatabase (sampleSignature "auth_1" "0xn1" "200" "120" 400 active 1))
            500))
    "auth_1"
  = getMultiSettleSignatureById
      (fst (decrementRemainingAmount
              (sampleDatabase
                 (sampleSignature "auth_1" "0xn1" "200" "120" 400 active 1))
              500 "auth_1" "50"))
      "auth_1".
Proof.
  exact (proj1 (cleanup_agrees_with_reserve
    (sampleDatabase (sampleSignature "auth_1" "0xn1" "200" "120" 400 active 1)) 500)
    "auth_1" "50" (sampleSignature "auth_1" "0xn1" "200" "120" 400 active 1)
    eq_refl eq_refl eq_refl).
Defined.

Lemma find_some_iff_exists {Row} (key : Row -> bool) rows :
  (exists x, In x rows /\ key x = true) <-> exists r, find key rows = Some r.
Proof.
  split.
  - intros (x & Hin & Hk). destruct (find key rows) as [r|] eqn:E.
    + now exists r.
    + rewrite (find_none _ _ E x Hin) in Hk. discriminate.
  - intros (r & E). exists r. now apply find_some in E.
Qed.

(** X6: [markSignatureDeposited] returns [true] exactly when a record has
    the id, whatever its status; it sets that record's [deposited] to 1
    and changes nothing else; and marking twice is marking once. *)
Theorem markSignatureDeposited_flag d id :
  (snd (markSignatureDeposited d id) = true
   <-> exists r, getMultiSettleSignatureById d id = Some r)
  /\ (forall r,
        getMultiSettleSignatureById d id = Some r ->
        getMultiSettleSignatureById (fst (markSignatureDeposited d id)) id
        = Some (Signature.set_deposited 1 r))
  /\ (forall id',
        id' <> id ->
        getMultiSettleSignatureById (fst (markSignatureDeposited d id)) id'
        = getMultiSettleSignatureById d id')
  /\ fst (markSignatureDeposited (fst (markSignatureDeposited d id)) id)
     = fst (markSignatureDeposited d id)
  /\ multisettle_settlements (fst (markSignatureDeposited d id))
     = multisettle_settlements d.
Proof.
  split; [|split; [|split; [|split]]].
  - unfold markSignatureDeposited. cbn [snd]. rewrite changes_positive.
    apply find_some_iff_exists.
  - intros r G. cbn [markSignatureDeposited fst].
    now apply getSignature_update_same.
  - intros id' Hne. cbn [markSignatureDeposited fst].
    now apply getSignature_update_other.
  - cbn [markSignatureDeposited fst].
    rewrite updateSignatureById_twice by reflexivity.
    apply updateSignatureById_ext. reflexivity.
  - reflexivity.
Qed.

(** X6 on a revoked record: it is marked all the same. *)
Lemma markSignatureDeposited_flag_witness :
  getMultiSettleSignatureById
    (fst (markSignatureDeposited
            (sampleDatabase (sampleSignature "auth_1" "0xn1" "200" "120" 1000 revoked 0))
            "auth_1"))
    "auth_1"
  = Some (sampleSignature "auth_1" "0xn1" "200" "120" 1000 revoked 1).
Proof.
  exact (proj1 (proj2 (markSignatureDeposited_flag
    (sampleDatabase (sampleSignature "auth_1" "0xn1" "200" "120" 1000 revoked 0))
    "auth_1"))
    (sampleSignature "auth_1" "0xn1" "200" "120" 1000 revoked 0) eq_refl).
Defined.

Lemma updateSignatureById_commute i f j g d :
  (forall x, Signature.id (f x) = Signature.id x) ->
  (forall x, Signature.id (g x) = Signature.id x) ->
  (forall x, f (g x) = g (f x)) ->
  updateSignatureById i f (updateSignatureById j g d)
  = updateSignatureById j g (updateSignatureById i f d).
Proof.
  intros Hf Hg Hc. unfold updateSignatureById, with_signatures, updateWhere. simpl.
  f_equal. rewrite !map_map. apply map_ext. intros x.
  destruct (String.eqb (Signature.id x) j) eqn:Ej;
    destruct (String.eqb (Signature.id x) i) eqn:Ei;
    rewrite ?Hf, ?Hg, ?Ej, ?Ei; auto.
Qed.

Lemma reservedRow_set_deposited remaining a x :
  reservedRow remaining a (Signature.set_deposited 1 x)
  = Signature.set_deposited 1 (reservedRow remaining a x).
Proof. unfold reservedRow. now destruct (remaining - a =? 0). Qed.

Lemma markedRow_reserved id remaining a r :
  markedRow id (reservedRow remaining a r)
  = reservedRow remaining a (markedRow id r).
Proof.
  unfold markedRow. rewrite reservedRow_id.
  destruct (String.eqb (Signature.id r) id); [|reflexivity].
  now rewrite reservedRow_set_deposited.
Qed.

(** X7: the deposit mark and the reservation commute. Marking an
    authorization as deposited before or after a
    [decrementRemainingAmount], on the same or on another authorization,
    leaves the same database, and the reservation returns the same answer
    but for the [deposited] field of the record. *)
Theorem markDeposited_commutes_with_reserve d now sid amount id :
  fst (decrementRemainingAmount (fst (markSignatureDeposited d id)) now sid amount)
  = fst (markSignatureDeposited (fst (decrementRemainingAmount d now sid amount)) id)
  /\ snd (decrementRemainingAmount (fst (markSignatureDeposited d id)) now sid amount)
     = match snd (decrementRemainingAmount d now sid amount) with
       | Return (Some u) => Return (Some (markedRow id u))
       | other => other
       end.
Proof.
  cbn [markSignatureDeposited fst].
  set (dm := updateSignatureById id (Signature.set_deposited 1) d).
  assert (Gm : getMultiSettleSignatureById dm sid
               = option_map (markedRow id) (getMultiSettleSignatureById d sid))
    by (apply getSignature_update; reflexivity).
  destruct (getMultiSettleSignatureById d sid) as [r|] eqn:G; simpl in Gm.
  2:{ unfold decrementRemainingAmount. rewrite G, Gm. split; reflexivity. }
  assert (Hsame : Signature.status (markedRow id r) = Signature.status r
                  /\ Signature.valid_until (markedRow id r) = Signature.valid_until r
                  /\ Signature.remaining_amount (markedRow id r)
                     = Signature.remaining_amount r).
  { unfold markedRow. destruct (String.eqb _ _); repeat split. }
  destruct Hsame as (Hs & Hv & Hr).
  destruct (SignatureStatus_eqb (Signature.status r) active) eqn:Est.
  2:{ unfold decrementRemainingAmount. rewrite G, Gm, Hs, Est. split; reflexivity. }
  assert (Hst := proj1 (SignatureStatus_eqb_eq _ _) Est).
  destruct (Signature.valid_until r <? now) eqn:Ev.
  { apply Z.ltb_lt in Ev.
    rewrite (proj1 (decrementRemainingAmount_expired d now sid amount r G Hst Ev)).
    assert (Hst' : Signature.status (markedRow id r) = active) by congruence.
    assert (Ev' : Signature.valid_until (markedRow id r) < now) by congruence.
    rewrite (proj1 (decrementRemainingAmount_expired dm now sid amount
                      (markedRow id r) Gm Hst' Ev')).
    cbn [fst snd]. split; [|reflexivity].
    apply updateSignatureById_commute; reflexivity. }
  destruct (BigInt (Signature.remaining_amount r)) as [remaining|] eqn:B.
  2:{ unfold decrementRemainingAmount.
      rewrite G, Gm, Hs, Hv, Hr, Est, Ev, B. split; reflexivity. }
  destruct (BigInt amount) as [a|] eqn:A.
  2:{ unfold decrementRemainingAmount.
      rewrite G, Gm, Hs, Hv, Hr, Est, Ev, B, A. split; reflexivity. }
  destruct (a >? remaining) eqn:Egt.
  { unfold decrementRemainingAmount.
    rewrite G, Gm, Hs, Hv, Hr, Est, Ev, B, A, Egt. split; reflexivity. }
  apply Z.ltb_ge in Ev. rewrite Z.gtb_ltb in Egt. apply Z.ltb_ge in Egt.
  rewrite (decrementRemainingAmount_granted d now sid amount r remaining a)
    by auto.
  rewrite (decrementRemainingAmount_granted dm now sid amount (markedRow id r)
             remaining a) by (auto; congruence || lia).
  cbn [fst snd]. split.
  - apply updateSignatureById_commute;
      auto using reservedRow_id, reservedRow_set_deposited.
  - now rewrite markedRow_reserved.
Qed.

(** X8: [revokeMultiSettleSignatureByNonce] returns [true] exactly when
    the facilitator has an active record with the nonce. It turns to
    [revoked] the active records of that facilitator and nonce and changes
    nothing else: no remaining amount, and no record of another facilitator
    even under the same nonce. Afterwards no record of that facilitator
    and nonce is active. *)
Theorem revokeMultiSettleSignatureByNonce_scope d fac nonce :
  (snd (revokeMultiSettleSignatureByNonce d fac nonce) = true
   <-> exists r, In r (multisettle_signatures d)
                 /\ Signature.facilitator_id r = fac
                 /\ Signature.nonce r = nonce
                 /\ Signature.status r = active)
  /\ (forall id r,
        getMultiSettleSignatureById d id = Some r ->
        exists r',
          getMultiSettleSignatureById
            (fst (revokeMultiSettleSignatureByNonce d fac nonce)) id = Some r'
          /\ Signature.remaining_amount r' = Signature.remaining_amount r
          /\ (Signature.facilitator_id r <> fac -> r' = r)
          /\ (Signature.nonce r <> nonce -> r' = r)
          /\ (Signature.status r <> active -> r' = r)
          /\ (Signature.facilitator_id r = fac -> Signature.nonce r = nonce ->
              Signature.status r = active -> r' = Signature.set_status revoked r))
  /\ (forall r,
        In r (multisettle_signatures
                (fst (revokeMultiSettleSignatureByNonce d fac nonce))) ->
        Signature.facilitator_id r = fac ->
        Signature.nonce r = nonce ->
        Signature.status r <> active).
Proof.
  set (p := fun r => String.eqb (Signature.facilitator_id r) fac
                     && String.eqb (Signature.nonce r) nonce
                     && SignatureStatus_eqb (Signature.status r) active).
  assert (Hp : forall r, p r = true
                         <-> Signature.facilitator_id r = fac
                             /\ Signature.nonce r = nonce
                             /\ Signature.status r = active).
  { intros r. unfold p. rewrite !andb_true_iff, !String.eqb_eq,
      SignatureStatus_eqb_eq. tauto. }
  split; [|split].
  - unfold revokeMultiSettleSignatureByNonce. cbn [snd]. fold p.
    rewrite changes_positive. split.
    + intros (x & Hin & Hx). exists x. apply Hp in Hx. tauto.
    + intros (x & Hin & Hx). exists x. split; [exact Hin|]. now apply Hp.
  - intros id r G. unfold revokeMultiSettleSignatureByNonce. cbn [fst]. fold p.
    rewrite getSignature_updateWhere, G by reflexivity. simpl.
    eexists. split; [reflexivity|].
    destruct (p r) eqn:E.
    + apply Hp in E as (E1 & E2 & E3). simpl.
      repeat split; auto; intros; contradiction.
    + repeat split; auto. intros E1 E2 E3. exfalso.
      assert (Ht : p r = true) by (apply Hp; auto). congruence.
  - intros r Hin Hf Hn Hst. simpl in Hin. fold p in Hin.
    apply in_updateWhere in Hin as (x & Hx & ->).
    destruct (p x) eqn:E; [discriminate Hst|].
    assert (Ht : p x = true) by (apply Hp; auto). congruence.
Qed.

(** X8 with two facilitators using the same nonce: only the record of the
    facilitator named is revoked. *)
Lemma revokeMultiSettleSignatureByNonce_scope_witness :
  exists r',
    getMultiSettleSignatureById
      (fst (revokeMultiSettleSignatureByNonce
              (mkDatabase
                 [sampleSignature "auth_1" "0xn1" "200" "120" 1000 active 1;
                  Signature.mk "auth_2" "fac_2" "base" "0xusdc" "0xpayer" "90" "90"
                    1000 "0xn1" "0xsig" "payload" active 0] [])
              "fac_1" "0xn1"))
      "auth_2" = Some r'
    /\ r' = Signature.mk "auth_2" "fac_2" "base" "0xusdc" "0xpayer" "90" "90"
              1000 "0xn1" "0xsig" "payload" active 0.
Proof.
  destruct (proj1 (proj2 (revokeMultiSettleSignatureByNonce_scope
    (mkDatabase
       [sampleSignature "auth_1" "0xn1" "200" "120" 1000 active 1;
        Signature.mk "auth_2" "fac_2" "base" "0xusdc" "0xpayer" "90" "90"
          1000 "0xn1" "0xsig" "payload" active 0] [])
    "fac_1" "0xn1")) "auth_2"
    (Signature.mk "auth_2" "fac_2" "base" "0xusdc" "0xpayer" "90" "90"
       1000 "0xn1" "0xsig" "payload" active 0) eq_refl)
    as (r' & G & _ & Hfac & _).
  exists r'. split; [exact G|]. apply Hfac. discriminate.
Defined.

Lemma filter_updateWhere_key {Row} (key p : Row -> bool) f rows :
  (forall r, key (f r) = key r) ->
  filter key (updateWhere p f rows) = updateWhere p f (filter key rows).
Proof.
  intros Hk. unfold updateWhere.
  induction rows as [|x rows IH]; simpl; [reflexivity|].
  assert (E : key (if p x then f x else x) = key x)
    by (destruct (p x); [apply Hk | reflexivity]).
  rewrite E. destruct (key x); simpl; now rewrite IH.
Qed.

(** X9: the settlement rows are an append-only log. A
    [createMultiSettleSettlement] with a new id stores the row it returns,
    with the recipient in lower case and an empty hash or message as
    [null], and adds that one row to the rows of its authorization; an
    [updateMultiSettleSettlementStatus] adds and removes none, and keeps
    the id, the authorization, the facilitator, the recipient and the
    amount of every row. Neither touches the authorizations. *)
Theorem settlement_log_append_only d :
  (forall id data,
     getMultiSettleSettlementById d id = None ->
     exists d' row,
       createMultiSettleSettlement d id data = (d', Some row)
       /\ getMultiSettleSettlementById d' id = Some row
       /\ row = Settlement.mk id (s_signature_id data) (s_facilitator_id data)
                  (toLowerCase (s_pay_to data)) (s_amount data)
                  (orNull (s_transaction_hash data)) (s_status data)
                  (orNull (s_error_message data))
       /\ (forall sid x,
             In x (getSettlementsBySignatureId d' sid)
             <-> In x (getSettlementsBySignatureId d sid)
                 \/ (x = row /\ sid = s_signature_id data))
       /\ List.length (getSettlementsBySignatureId d' (s_signature_id data))
          = S (List.length (getSettlementsBySignatureId d (s_signature_id data)))
       /\ multisettle_signatures d' = multisettle_signatures d)
  /\ (forall id st h e sid,
        let terms := fun r => (Settlement.id r, Settlement.signature_id r,
                               Settlement.facilitator_id r, Settlement.pay_to r,
                               Settlement.amount r) in
        map terms
          (getSettlementsBySignatureId
             (fst (updateMultiSettleSettlementStatus d id st h e)) sid)
        = map terms (getSettlementsBySignatureId d sid)
        /\ multisettle_signatures
             (fst (updateMultiSettleSettlementStatus d id st h e))
           = multisettle_signatures d).
Proof.
  split.
  - intros id data Hfresh.
    unfold createMultiSettleSettlement.
    assert (Hv : settlementInsertViolates d id = false).
    { unfold settlementInsertViolates.
      destruct (existsb _ _) eqn:E; [|reflexivity].
      apply existsb_exists in E as (x & Hin & Hx).
      unfold getMultiSettleSettlementById in Hfresh.
      rewrite (find_none _ _ Hfresh x Hin) in Hx. discriminate. }
    rewrite Hv.
    set (row := Settlement.mk id (s_signature_id data) (s_facilitator_id data)
                  (toLowerCase (s_pay_to data)) (s_amount data)
                  (orNull (s_transaction_hash data)) (s_status data)
                  (orNull (s_error_message data))).
    assert (G : getMultiSettleSettlementById
                  (with_settlements d (multisettle_settlements d ++ [row])) id
                = Some row).
    { unfold getMultiSettleSettlementById in *. simpl.
      rewrite find_append, Hfresh. simpl. now rewrite String.eqb_refl. }
    rewrite G. do 2 eexists. split; [reflexivity|]. split; [exact G|].
    split; [reflexivity|]. split; [|split; [|reflexivity]].
    + intros sid x. unfold getSettlementsBySignatureId. simpl.
      rewrite filter_app, in_app_iff. simpl.
      destruct (String.eqb (s_signature_id data) sid) eqn:E; simpl.
      * apply String.eqb_eq in E. subst sid.
        split; [intros [H|[<-|[]]]; auto | intros [H|[-> _]]; auto].
      * split; [intros [H|[]]; auto | intros [H|[_ ->]]; auto].
        rewrite String.eqb_refl in E. discriminate.
    + unfold getSettlementsBySignatureId. simpl.
      rewrite filter_app, length_app. simpl.
      rewrite String.eqb_refl. simpl. lia.
  - intros id st h e sid terms. split.
    + unfold getSettlementsBySignatureId, updateMultiSettleSettlementStatus.
      destruct (changes _ _ =? 0)%nat; cbn [fst multisettle_settlements with_settlements];
        (rewrite filter_updateWhere_key
           by (intros r; unfold settlementFields; now destruct h, e));
        unfold updateWhere; rewrite map_map; apply map_ext; intros r;
        (destruct (String.eqb (Settlement.id r) id); [|reflexivity]);
        unfold settlementFields, terms; now destruct h, e.
    + unfold updateMultiSettleSettlementStatus.
      now destruct (changes _ _ =? 0)%nat.
Qed.

(** X9 on an empty log, with a recipient in mixed case. *)
Lemma settlement_log_append_only_witness :
  exists d' row,
    createMultiSettleSettlement emptyDatabase "stl_1"
      (mkCreateSettlementData "auth_1" "fac_1" "0xALICE" "50" (Some EmptyString) pending None)
    = (d', Some row)
    /\ row = Settlement.mk "stl_1" "auth_1" "fac_1" "0xalice" "50" None pending None.
Proof.
  destruct (proj1 (settlement_log_append_only emptyDatabase) "stl_1"
    (mkCreateSettlementData "auth_1" "fac_1" "0xALICE" "50" (Some EmptyString) pending None)
    eq_refl) as (d' & row & E & _ & Hrow & _).
  exists d', row. split; [exact E | exact Hrow].
Defined.

(* ================================================================== *)
(** ** What a run of [/settle] amounts to *)
(* ================================================================== *)

Lemma decrementRemainingAmount_throw d now id amount d0 e :
  decrementRemainingAmount d now id amount = (d0, Throw e) -> d0 = d.
Proof.
  unfold decrementRemainingAmount.
  repeat match goal with
         | |- context [match ?x with _ => _ end] => destruct x
         end; intros [= <-]; try reflexivity; discriminate.
Qed.

(** Turns the tests a run passed into facts. *)
Ltac passed_tests :=
  repeat match goal with
         | H : String.eqb _ _ = true |- _ => apply String.eqb_eq in H
         | H : SignatureStatus_eqb _ _ = true |- _ =>
             apply SignatureStatus_eqb_eq in H
         | H : (_ <? _) = false |- _ => apply Z.ltb_ge in H
         | H : (_ >? _) = false |- _ => rewrite Z.gtb_ltb in H; apply Z.ltb_ge in H
         | H : (_ <=? _) = false |- _ => apply Z.leb_gt in H
         | H : (_ =? _) = true |- _ => apply Z.eqb_eq in H
         | H : (_ =? _) = false |- _ => apply Z.eqb_neq in H
         end.

(** The shapes of a run of [/settle]. Either it stops before the
    reservation, with no effect; or it has read an active record of the
    requesting facilitator and an amount that is positive and within the
    remaining amount, and has called [decrementRemainingAmount], after
    which: the reservation was refused; or the settlement row could not be
    created; or the row was created and then updated once, to [success]
    when the response is a success and to [failed] otherwise, the deposit
    mark being set in between only when the record read had [deposited]
    0. *)
Lemma settle_effect env record body d :
  let '(d', resp, tr) := settle env record body d in
  (d' = d /\ tr = [] /\ exists rsp, resp = Some rsp /\ r_success rsp = false)
  \/ exists parsed t remaining a d0 res,
       body = Some parsed
       /\ getMultiSettleSignatureById d (q_authorizationId parsed) = Some t
       /\ Signature.facilitator_id t = fr_id record
       /\ Signature.status t = active
       /\ now_route env <= Signature.valid_until t
       /\ BigInt (Signature.remaining_amount t) = Some remaining
       /\ BigInt (q_amount parsed) = Some a
       /\ 0 < a <= remaining
       /\ decrementRemainingAmount d (now_reserve env)
            (q_authorizationId parsed) (q_amount parsed) = (d0, Return res)
       /\ ((res = None /\ d' = d0
            /\ tr = [DbReserve (q_authorizationId parsed) (q_amount parsed) false]
            /\ exists rsp, resp = Some rsp /\ r_success rsp = false)
           \/ exists u d1 created,
                res = Some u
                /\ createMultiSettleSettlement d0 (settlement_nanoid env)
                     (mkCreateSettlementData (q_authorizationId parsed)
                        (fr_id record) (q_payTo parsed) (q_amount parsed)
                        None pending None) = (d1, created)
                /\ ((created = None /\ d' = d1
                     /\ tr = [DbReserve (q_authorizationId parsed)
                                (q_amount parsed) true;
                              DbCreateSettlement (settlement_nanoid env)
                                pending false]
                     /\ exists rsp, resp = Some rsp /\ r_success rsp = false)
                    \/ exists row dX st h e rest rsp,
                         created = Some row
                         /\ d' = fst (updateMultiSettleSettlementStatus dX
                                        (settlement_nanoid env) st h e)
                         /\ (dX = d1
                             \/ (dX = fst (markSignatureDeposited d1
                                             (q_authorizationId parsed))
                                 /\ Signature.deposited t = 0))
                         /\ tr = DbReserve (q_authorizationId parsed)
                                   (q_amount parsed) true
                                 :: DbCreateSettlement (settlement_nanoid env)
                                      pending true
                                 :: rest
                         /\ List.last rest VerifySignature
                            = DbUpdateSettlement (settlement_nanoid env) st h e
                         /\ resp = Some rsp
                         /\ ((st = success /\ r_success rsp = true
                              /\ statusCode rsp = 200
                              /\ transactionHash rsp = h
                              /\ In (ChainTransfer (Signature.asset t)
                                       (q_payTo parsed) (q_amount parsed)) rest
                              /\ (Signature.deposited t <> 0
                                  \/ dX = fst (markSignatureDeposited d1
                                                 (q_authorizationId parsed))))
                             \/ (st = failed /\ r_success rsp = false))
                         /\ (statusCode rsp = 200 \/ statusCode rsp = 400
                             -> remainingAmount rsp
                                = Some (Signature.remaining_amount u)))).
Proof.
  handler_norm.
  repeat handler_step.
  all: passed_tests.
  all: try (left; split; [reflexivity|]; split; [reflexivity|];
            eexists; split; reflexivity).
  all: try match goal with
       | H : decrementRemainingAmount _ _ _ _ = (_, Throw _) |- _ =>
           apply decrementRemainingAmount_throw in H; subst;
           left; split; [reflexivity|]; split; [reflexivity|];
           eexists; split; reflexivity
       end.
  all: right.
  all: match goal with
       | Ht : getMultiSettleSignatureById _ _ = Some ?t,
         Hr : BigInt (Signature.remaining_amount ?t) = Some ?rem,
         Ha : BigInt (q_amount ?p) = Some ?a |- _ =>
           exists p, t, rem, a
       end.
  all: do 2 eexists.
  all: split; [reflexivity|]; split; [eassumption|]; split; [assumption|];
       split; [assumption|]; split; [assumption|]; split; [assumption|];
       split; [assumption|]; split; [lia|]; split; [eassumption|].
  all: try (left; split; [reflexivity|]; split; [reflexivity|];
            split; [reflexivity|]; eexists; split; reflexivity).
  all: right; do 3 eexists; split; [reflexivity|]; split; [eassumption|].
  all: try (left; split; [reflexivity|]; split; [reflexivity|];
            split; [reflexivity|]; eexists; split; reflexivity).
  all: right.
  all: match goal with
       | Hc : createMultiSettleSettlement _ _ _ = (_, Some _) |- _ =>
           apply createMultiSettleSettlement_created in Hc
             as (_ & _ & Hid & _ & _ & _); rewrite Hid
       end.
  all: do 7 eexists.
  all: split; [reflexivity|]; split; [reflexivity|].
  all: split; [first [left; reflexivity | right; split; [reflexivity | assumption]]|].
  all: split; [reflexivity|]; split; [reflexivity|]; split; [reflexivity|].
  all: split;
    [ first [ left; split; [reflexivity|]; split; [reflexivity|];
              split; [reflexivity|]; split; [reflexivity|];
              split; [cbn [In]; tauto|];
              first [left; assumption | right; reflexivity]
            | right; split; reflexivity ]
    | first [ intros _; reflexivity | intros [H|H]; discriminate H ] ].
Qed.

Lemma signatures_after_createSettlement d nano data d1 created :
  createMultiSettleSettlement d nano data = (d1, created) ->
  multisettle_signatures d1 = multisettle_signatures d.
Proof.
  unfold createMultiSettleSettlement.
  destruct (settlementInsertViolates d nano); now intros [= <- _].
Qed.

Lemma signatures_after_updateSettlement d sid st h e :
  multisettle_signatures (fst (updateMultiSettleSettlementStatus d sid st h e))
  = multisettle_signatures d.
Proof.
  unfold updateMultiSettleSettlementStatus. now destruct (changes _ _ =? 0)%nat.
Qed.

Lemma getSignature_same_table d d' id :
  multisettle_signatures d' = multisettle_signatures d ->
  getMultiSettleSignatureById d' id = getMultiSettleSignatureById d id.
Proof. unfold getMultiSettleSignatureById. now intros ->. Qed.

Lemma markSignatureDeposited_table d d' id :
  multisettle_signatures d' = multisettle_signatures d ->
  multisettle_signatures (fst (markSignatureDeposited d' id))
  = multisettle_signatures (fst (markSignatureDeposited d id)).
Proof. simpl. now intros ->. Qed.

(** The writes of a run of [/settle] to the authorizations, as calls of
    the data layer. *)
Lemma settle_signature_ops env record body d :
  exists ops,
    multisettle_signatures (fst (fst (settle env record body d)))
    = multisettle_signatures (applyOps d ops)
    /\ (ops = []
        \/ exists parsed a,
             body = Some parsed
             /\ BigInt (q_amount parsed) = Some a /\ 0 < a
             /\ (ops = [OpReserve (now_reserve env) (q_authorizationId parsed)
                          (q_amount parsed)]
                 \/ ops = [OpReserve (now_reserve env) (q_authorizationId parsed)
                             (q_amount parsed);
                           OpMarkDeposited (q_authorizationId parsed)])).
Proof.
  pose proof (settle_effect env record body d) as H.
  destruct (settle env record body d) as [[d' resp] tr]. cbn [fst].
  destruct H as [(-> & _) | (parsed & t & remaining & a & d0 & res & -> & G & Hown
                             & Hst & Hnr & Hrem & Ha & Hbound & Hdec & Hrest)].
  { exists []. split; [reflexivity | now left]. }
  assert (Hd0 : applyOps d [OpReserve (now_reserve env) (q_authorizationId parsed)
                              (q_amount parsed)] = d0)
    by (simpl; now rewrite Hdec).
  destruct Hrest as [(_ & -> & _) | (u & d1 & created & -> & Hc & Hrest)].
  { eexists. split; [now rewrite Hd0|]. right. exists parsed, a.
    repeat split; auto; lia. }
  pose proof (signatures_after_createSettlement _ _ _ _ _ Hc) as Hs1.
  destruct Hrest as [(_ & -> & _)
                    | (row & dX & st & h & e & rest & rsp & _ & -> & HdX & _)].
  { eexists. split; [now rewrite Hd0|]. right. exists parsed, a.
    repeat split; auto; lia. }
  rewrite signatures_after_updateSettlement.
  destruct HdX as [-> | (-> & _)].
  - eexists. split; [now rewrite Hd0|]. right. exists parsed, a.
    repeat split; auto; lia.
  - exists [OpReserve (now_reserve env) (q_authorizationId parsed) (q_amount parsed);
            OpMarkDeposited (q_authorizationId parsed)].
    split.
    + change (applyOps d _)
        with (applyOp (applyOps d [OpReserve (now_reserve env)
                                     (q_authorizationId parsed)
                                     (q_amount parsed)])
                (OpMarkDeposited (q_authorizationId parsed))).
      rewrite Hd0. cbn [applyOp]. now apply markSignatureDeposited_table.
    + right. exists parsed, a. repeat split; auto; lia.
Qed.

(** A run of [/settle] leaves the record of every id other than the
    request's as it was. *)
Lemma settle_other_rows env record body d id :
  (forall parsed, body = Some parsed -> id <> q_authorizationId parsed) ->
  getMultiSettleSignatureById (fst (fst (settle env record body d))) id
  = getMultiSettleSignatureById d id.
Proof.
  intros Hid.
  destruct (settle_signature_ops env record body d) as (ops & Htab & Hops).
  rewrite (getSignature_same_table _ _ id Htab).
  destruct Hops as [-> | (parsed & a & -> & _ & _ & [-> | ->])];
    [reflexivity | |]; specialize (Hid parsed eq_refl).
  - simpl.
    destruct (decrementRemainingAmount_outcome d (now_reserve env)
                (q_authorizationId parsed) (q_amount parsed))
      as [[E N] | [(r0 & G & S & E) | (r0 & rem & a0 & G & S & B & A & L & E)]];
      rewrite E; simpl; [reflexivity | |];
      apply getSignature_update_other; auto using reservedRow_id.
  - simpl. rewrite getSignature_update_other by auto.
    destruct (decrementRemainingAmount_outcome d (now_reserve env)
                (q_authorizationId parsed) (q_amount parsed))
      as [[E N] | [(r0 & G & S & E) | (r0 & rem & a0 & G & S & B & A & L & E)]];
      rewrite E; simpl; [reflexivity | |];
      apply getSignature_update_other; auto using reservedRow_id.
Qed.

(** A run of [/settle] with no effect has written nothing. *)
Lemma settle_silent env record body d :
  snd (settle env record body d) = [] ->
  fst (fst (settle env record body d)) = d.
Proof.
  pose proof (settle_effect env record body d) as H.
  destruct (settle env record body d) as [[d' resp] tr]. cbn [fst snd].
  intros ->.
  destruct H as [(-> & _) | (parsed & t & remaining & a & d0 & res & _ & _ & _
                             & _ & _ & _ & _ & _ & _ & Hrest)];
    [reflexivity|].
  destruct Hrest as [(_ & _ & Htr & _) | (u & d1 & created & _ & _ & Hrest)];
    [discriminate Htr|].
  destruct Hrest as [(_ & _ & Htr & _)
                    | (row & dX & st & h & e & rest & rsp & _ & _ & _ & Htr & _)];
    discriminate Htr.
Qed.

(** X10: a run of [/settle] writes the authorizations only through the
    data layer's reservation, with the request's id and an amount that is
    positive and within the remaining amount the route read, followed or
    not by the deposit mark on that id. So the record of every other id
    reads as before, and a run that stops before the reservation leaves
    all of them as they were. *)
Theorem settle_writes_through_reserve env record body d :
  let '(d', resp, tr) := settle env record body d in
  (exists ops,
     multisettle_signatures d' = multisettle_signatures (applyOps d ops)
     /\ (ops = []
         \/ exists parsed a,
              body = Some parsed
              /\ BigInt (q_amount parsed) = Some a /\ 0 < a
              /\ (ops = [OpReserve (now_reserve env) (q_authorizationId parsed)
                           (q_amount parsed)]
                  \/ ops = [OpReserve (now_reserve env) (q_authorizationId parsed)
                              (q_amount parsed);
                            OpMarkDeposited (q_authorizationId parsed)])))
  /\ (forall id,
        (forall parsed, body = Some parsed -> id <> q_authorizationId parsed) ->
        getMultiSettleSignatureById d' id = getMultiSettleSignatureById d id)
  /\ (tr = [] -> d' = d).
Proof.
  pose proof (settle_signature_ops env record body d) as Hops.
  pose proof (settle_other_rows env record body d) as Hother.
  pose proof (settle_silent env record body d) as Hsilent.
  destruct (settle env record body d) as [[d' resp] tr].
  cbn [fst snd] in *. auto.
Qed.

(** A request for another facilitator's authorization writes nothing. *)
Lemma settle_writes_through_reserve_witness :
  fst (fst (settle (sampleSettleEnv (Throw "unused") (Throw "unused") (Throw "unused"))
              (mkFacilitatorRecord "fac_2" (Some "encrypted"))
              (Some (mkSettleRequest "auth_1" "0xAlice" "50"))
              (sampleDatabase
                 (sampleSignature "auth_1" "0xn1" "200" "120" 1000 active 1))))
  = sampleDatabase (sampleSignature "auth_1" "0xn1" "200" "120" 1000 active 1).
Proof.
  pose proof (settle_writes_through_reserve
    (sampleSettleEnv (Throw "unused") (Throw "unused") (Throw "unused"))
    (mkFacilitatorRecord "fac_2" (Some "encrypted"))
    (Some (mkSettleRequest "auth_1" "0xAlice" "50"))
    (sampleDatabase (sampleSignature "auth_1" "0xn1" "200" "120" 1000 active 1)))
    as H.
  remember (settle _ _ _ _) as run eqn:Hrun.
  vm_compute in Hrun. subst run.
  destruct H as (_ & _ & H). exact (H eq_refl).
Defined.

(** X11: what a successful [/settle] has done. A run answers with a
    success only for the owner of an active authorization and an amount
    that is positive and within the remaining amount it read. It then has
    sent one transfer of that amount to the recipient, it reports and
    leaves stored a remaining amount lower by that amount, with status
    [exhausted] exactly when nothing remains, it leaves the authorization
    marked as deposited, and it leaves the settlement row [success] with
    the transaction hash of the response. *)
Theorem settle_success_accounts env record body d :
  let '(d', resp, tr) := settle env record body d in
  forall rsp,
    resp = Some rsp ->
    r_success rsp = true ->
    exists parsed t remaining a sigrow row,
      body = Some parsed
      /\ getMultiSettleSignatureById d (q_authorizationId parsed) = Some t
      /\ Signature.facilitator_id t = fr_id record
      /\ Signature.status t = active
      /\ BigInt (Signature.remaining_amount t) = Some remaining
      /\ BigInt (q_amount parsed) = Some a
      /\ 0 < a <= remaining
      /\ statusCode rsp = 200
      /\ remainingAmount rsp = Some (toString (remaining - a))
      /\ In (ChainTransfer (Signature.asset t) (q_payTo parsed) (q_amount parsed)) tr
      /\ getMultiSettleSignatureById d' (q_authorizationId parsed) = Some sigrow
      /\ Signature.remaining_amount sigrow = toString (remaining - a)
      /\ Signature.cap_amount sigrow = Signature.cap_amount t
      /\ (Signature.status sigrow = exhausted <-> a = remaining)
      /\ (a < remaining -> Signature.status sigrow = active)
      /\ Signature.deposited sigrow <> 0
      /\ getMultiSettleSettlementById d' (settlement_nanoid env) = Some row
      /\ Settlement.status row = success
      /\ Settlement.transaction_hash row = transactionHash rsp
      /\ Settlement.signature_id row = q_authorizationId parsed
      /\ Settlement.pay_to row = toLowerCase (q_payTo parsed)
      /\ Settlement.amount row = q_amount parsed.
Proof.
  pose proof (settle_effect env record body d) as H.
  destruct (settle env record body d) as [[d' resp] tr].
  intros rsp -> Hok.
  destruct H as [(_ & _ & rsp0 & [= <-] & Hf) | H]; [congruence|].
  destruct H as (parsed & t & remaining & a & d0 & res & -> & G & Hown
                 & Hst & Hnr & Hrem & Ha & Hbound & Hdec & Hrest).
  destruct Hrest as [(_ & _ & _ & rsp0 & [= <-] & Hf)
                    | (u & d1 & created & -> & Hc & Hrest)]; [congruence|].
  destruct Hrest as [(_ & _ & _ & rsp0 & [= <-] & Hf)
                    | (row0 & dX & st & h & e & rest & rsp0 & -> & -> & HdX & ->
                       & Hlast & [= <-] & Hres & Hcode)]; [congruence|].
  destruct Hres as [(-> & _ & H200 & Hh & Htransfer & Hdep) | (_ & Hf)];
    [|congruence].
  pose proof (decrementRemainingAmount_returned _ _ _ _ _ _ Hdec)
    as (r0 & rem0 & a0 & G0 & _ & _ & B0 & A0 & L0 & Hd0 & Hu).
  rewrite G in G0. injection G0 as <-.
  rewrite Hrem in B0. injection B0 as <-.
  rewrite Ha in A0. injection A0 as <-.
  assert (Gu : getMultiSettleSignatureById d0 (q_authorizationId parsed) = Some u).
  { subst d0 u. apply getSignature_update_same; auto using reservedRow_id. }
  assert (Gu1 : getMultiSettleSignatureById d1 (q_authorizationId parsed) = Some u).
  { rewrite (getSignature_same_table d0 d1); [exact Gu|].
    exact (signatures_after_createSettlement _ _ _ _ _ Hc). }
  assert (Hid_u : Signature.id u = q_authorizationId parsed)
    by (exact (getSignature_id _ _ _ Gu)).
  assert (Hu_rem : Signature.remaining_amount u = toString (remaining - a)
                   /\ Signature.cap_amount u = Signature.cap_amount t
                   /\ Signature.deposited u = Signature.deposited t
                   /\ (Signature.status u = exhausted <-> a = remaining)
                   /\ (a < remaining -> Signature.status u = active)).
  { subst u. unfold reservedRow.
    destruct (remaining - a =? 0) eqn:E; simpl.
    - apply Z.eqb_eq in E. repeat split; auto; intros; lia.
    - apply Z.eqb_neq in E. rewrite Hst. repeat split; auto; try discriminate.
      intros; lia. }
  destruct Hu_rem as (Hur & Huc & Hud & Hue & Hua).
  pose proof (createMultiSettleSettlement_created _ _ _ _ _ Hc)
    as (_ & Gs & Hsid & _ & _ & _).
  assert (Hrow0 : row0 = Settlement.mk (settlement_nanoid env)
                           (q_authorizationId parsed) (fr_id record)
                           (toLowerCase (q_payTo parsed)) (q_amount parsed)
                           None pending None).
  { unfold createMultiSettleSettlement in Hc.
    destruct (settlementInsertViolates d0 (settlement_nanoid env)) eqn:Ev;
      [discriminate|].
    injection Hc as <- Hrow. unfold getMultiSettleSettlementById in Hrow.
    simpl in Hrow. rewrite find_append in Hrow.
    apply existsb_false_find in Ev. rewrite Ev in Hrow. simpl in Hrow.
    rewrite String.eqb_refl in Hrow. now injection Hrow as <-. }
  assert (Gs' : getMultiSettleSettlementById dX (settlement_nanoid env) = Some row0)
    by (destruct HdX as [-> | (-> & _)]; exact Gs).
  exists parsed, t, remaining, a.
  exists (if Signature.deposited t =? 0 then Signature.set_deposited 1 u else u)
  , (settlementFields success h e row0).
  split; [reflexivity|]. split; [exact G|]. split; [exact Hown|].
  split; [exact Hst|]. split; [exact Hrem|]. split; [exact Ha|].
  split; [exact Hbound|]. split; [exact H200|].
  split; [rewrite <- Hur; apply Hcode; now left|].
  split; [cbn [In]; right; right; exact Htransfer|].
  split.
  { rewrite getSignature_after_updateSettlement.
    destruct HdX as [-> | (-> & Hzero)].
    - destruct Hdep as [Hnz | Hmark].
      + apply Z.eqb_neq in Hnz. rewrite Hnz. exact Gu1.
      + (* the mark was a no-op on this table: the row reads marked *)
        rewrite Hmark at 1.
        rewrite getSignature_after_markDeposited, Gu1. simpl.
        rewrite Hid_u, String.eqb_refl.
        destruct (Signature.deposited t =? 0) eqn:Ez; [reflexivity|].
        pose proof Gu1 as Gu2. rewrite Hmark in Gu2.
        rewrite getSignature_after_markDeposited, Gu1 in Gu2. simpl in Gu2.
        rewrite Hid_u, String.eqb_refl in Gu2. exact Gu2.
    - rewrite getSignature_after_markDeposited, Gu1. simpl.
      rewrite Hid_u, String.eqb_refl.
      apply Z.eqb_eq in Hzero. now rewrite Hzero. }
  assert (Hfields : forall x,
            Signature.remaining_amount
              (if Signature.deposited t =? 0 then Signature.set_deposited 1 u else u)
            = Signature.remaining_amount u
            /\ Signature.cap_amount
                 (if Signature.deposited t =? 0 then Signature.set_deposited 1 u else u)
               = Signature.cap_amount u
            /\ Signature.status
                 (if Signature.deposited t =? 0 then Signature.set_deposited 1 u else u)
               = Signature.status u
            /\ (x = Signature.deposited
                      (if Signature.deposited t =? 0
                       then Signature.set_deposited 1 u else u) -> x <> 0)).
  { intros x. destruct (Signature.deposited t =? 0) eqn:Ez; simpl;
      repeat split; auto.
    - intros ->. discriminate.
    - intros ->. apply Z.eqb_neq in Ez. congruence. }
  destruct (Hfields (Signature.deposited
                       (if Signature.deposited t =? 0
                        then Signature.set_deposited 1 u else u)))
    as (F1 & F2 & F3 & F4).
  rewrite F1, F2, F3.
  split; [exact Hur|]. split; [exact Huc|]. split; [exact Hue|].
  split; [exact Hua|]. split; [now apply F4|].
  split.
  { rewrite getSettlement_after_updateSettlement, Gs'. simpl.
    now rewrite Hsid, String.eqb_refl. }
  rewrite Hrow0, Hh. unfold settlementFields.
  destruct h, e; simpl; repeat split.
Qed.

Lemma settle_success_accounts_witness :
  exists sigrow,
    getMultiSettleSignatureById
      (fst (fst (settle
                   (sampleSettleEnv (Return (mkChainResult true (Some "0xdep") None))
                      (Return 1000) (Return (mkReceipt "0xpaid" true)))
                   sampleRecord (Some (mkSettleRequest "auth_1" "0xAlice" "50"))
                   (sampleDatabase
                      (sampleSignature "auth_1" "0xn1" "200" "120" 1000 active 0)))))
      "auth_1" = Some sigrow
    /\ Signature.deposited sigrow <> 0.
Proof.
  pose proof (settle_success_accounts
    (sampleSettleEnv (Return (mkChainResult true (Some "0xdep") None))
       (Return 1000) (Return (mkReceipt "0xpaid" true)))
    sampleRecord (Some (mkSettleRequest "auth_1" "0xAlice" "50"))
    (sampleDatabase (sampleSignature "auth_1" "0xn1" "200" "120" 1000 active 0)))
    as H.
  remember (settle _ _ _ _) as run eqn:Hrun.
  vm_compute in Hrun. subst run.
  destruct (H _ eq_refl eq_refl)
    as (parsed & t & remaining & a & sigrow & row & Hb & _ & _ & _ & _ & _ & _
        & _ & _ & _ & Hg & _ & _ & _ & _ & Hdep & _).
  injection Hb as <-.
  exists sigrow. split; [exact Hg | exact Hdep].
Defined.

(* ================================================================== *)
(** ** What a run of [/authorize] and of [/revoke] amounts to *)
(* ================================================================== *)

(** The shapes of a run of [/authorize]. It writes nothing and answers
    with a failure, or with the active record already stored under the
    nonce; or, the signature being valid, the nonce new, [validUntil] in
    the future and the cap equal to the signed value, it has called
    [createMultiSettleSignature] once and answers with the record
    created. *)
Lemma authorize_effect env record body d :
  let '(d', resp, tr) := authorize env record body d in
  (d' = d
   /\ (tr = [] \/ tr = [VerifySignature])
   /\ exists rsp,
        resp = Some rsp
        /\ ((r_success rsp = false /\ statusCode rsp <> 200
             /\ authorizationId rsp = None)
            \/ exists parsed v details existing,
                 body = Some parsed
                 /\ verify env (normalizePaymentPayload (q_paymentPayload parsed))
                      (with_maxAmountRequired (q_paymentRequirements parsed)
                         (q_capAmount parsed)) = Return v
                 /\ valid v = true
                 /\ extractAuthorizationFromPayload env
                      (normalizePaymentPayload (q_paymentPayload parsed))
                    = Some details
                 /\ getMultiSettleSignatureByNonce d (fr_id record) (a_nonce details)
                    = Some existing
                 /\ Signature.status existing = active
                 /\ rsp = authorized existing (Signature.deposited existing =? 1)))
  \/ exists parsed v details created,
       body = Some parsed
       /\ verify env (normalizePaymentPayload (q_paymentPayload parsed))
            (with_maxAmountRequired (q_paymentRequirements parsed)
               (q_capAmount parsed)) = Return v
       /\ valid v = true
       /\ extractAuthorizationFromPayload env
            (normalizePaymentPayload (q_paymentPayload parsed)) = Some details
       /\ getMultiSettleSignatureByNonce d (fr_id record) (a_nonce details) = None
       /\ now_authorize env < q_validUntil parsed
       /\ a_value details = q_capAmount parsed
       /\ createMultiSettleSignature d (signature_nanoid env)
            (mkCreateSignatureData (fr_id record)
               (pr_network (q_paymentRequirements parsed))
               (pr_asset (q_paymentRequirements parsed))
               (a_from details) (q_capAmount parsed) (q_validUntil parsed)
               (a_nonce details) (a_signature details)
               (normalizePaymentPayload (q_paymentPayload parsed)))
          = (d', created)
       /\ tr = [VerifySignature;
                DbCreateSignature (signature_nanoid env)
                  (match created with Some _ => true | None => false end)]
       /\ resp = Some (match created with
                       | Some s => authorized s false
                       | None => failure 500 (Some "Failed to create authorization")
                                   None None
                       end).
Proof.
  handler_norm.
  repeat handler_step.
  all: passed_tests.
  all: try (left; split; [reflexivity|]; split; [tauto|];
            eexists; split; [reflexivity|]; left;
            split; [reflexivity|]; split; [discriminate | reflexivity]).
  all: try (left; split; [reflexivity|]; split; [tauto|];
            eexists; split; [reflexivity|]; right;
            do 4 eexists; split; [reflexivity|]; split; [eassumption|];
            split; [assumption|]; split; [eassumption|]; split; [eassumption|];
            split; [assumption | reflexivity]).
  all: right; do 4 eexists; split; [reflexivity|]; split; [eassumption|];
       split; [assumption|]; split; [eassumption|]; split; [assumption|];
       split; [assumption|]; split; [assumption|]; split; [eassumption|];
       split; reflexivity.
Qed.

(** The [UPDATE] of [revokeMultiSettleSignature] changes a row when the
    record read under the id is active. *)
Lemma revokeMultiSettleSignature_active d id r :
  getMultiSettleSignatureById d id = Some r ->
  Signature.status r = active ->
  snd (revokeMultiSettleSignature d id) = true.
Proof.
  intros G Hst. unfold revokeMultiSettleSignature. cbn [snd].
  apply changes_positive. exists r.
  unfold getMultiSettleSignatureById in G.
  apply find_some in G as [Hin Hid].
  split; [exact Hin|]. now rewrite Hid, Hst.
Qed.

(** The shapes of a run of [/revoke]: a failure that writes nothing, or
    the revocation of an active record of the requesting facilitator. *)
Lemma revoke_effect record body d :
  let '(d', resp, tr) := revoke record body d in
  (d' = d /\ tr = []
   /\ exists rsp, resp = Some rsp /\ r_success rsp = false
                  /\ statusCode rsp <> 200 /\ statusCode rsp <> 500
                  /\ remainingAmount rsp = None)
  \/ exists id t,
       body = Some id
       /\ getMultiSettleSignatureById d id = Some t
       /\ Signature.facilitator_id t = fr_id record
       /\ Signature.status t = active
       /\ d' = fst (revokeMultiSettleSignature d id)
       /\ tr = [DbRevoke id true]
       /\ resp = Some (mkResponse 200 true None None None
                         (Some (Signature.remaining_amount t)) None None
                         (Some (Signature.deposited t =? 1)) None None).
Proof.
  handler_norm.
  repeat handler_step.
  all: passed_tests.
  all: try (left; split; [reflexivity|]; split; [reflexivity|];
            eexists; split; [reflexivity|]; split; [reflexivity|];
            split; [discriminate|]; split; [discriminate | reflexivity]).
  all: match goal with
       | G : getMultiSettleSignatureById ?d ?id = Some ?t,
         R : revokeMultiSettleSignature ?d ?id = (_, ?ok) |- _ =>
           let Hok := fresh "Hok" in
           assert (Hok : ok = true)
             by (rewrite <- (revokeMultiSettleSignature_active d id t G);
                 [now rewrite R | assumption])
       end.
  all: try discriminate.
  all: right; do 2 eexists; split; [reflexivity|]; split; [eassumption|];
       split; [assumption|]; split; [assumption|].
  all: match goal with
       | R : revokeMultiSettleSignature _ _ = _ |- _ => rewrite R
       end.
  all: repeat split.
Qed.

(** [createMultiSettleSignature] appends: a record already stored is read
    as before. *)
Lemma getSignature_after_createSignature d nano data id t :
  getMultiSettleSignatureById d id = Some t ->
  getMultiSettleSignatureById (fst (createMultiSettleSignature d nano data)) id
  = Some t.
Proof.
  intros G. unfold createMultiSettleSignature.
  destruct (signatureInsertViolates d nano data); [exact G|].
  cbn [fst]. unfold getMultiSettleSignatureById in *. simpl.
  now rewrite find_append, G.
Qed.

Lemma getSignature_after_revoke d id id' :
  id' <> id ->
  getMultiSettleSignatureById (fst (revokeMultiSettleSignature d id)) id'
  = getMultiSettleSignatureById d id'.
Proof.
  intros Hne. unfold revokeMultiSettleSignature. cbn [fst].
  rewrite getSignature_updateWhere by reflexivity.
  destruct (getMultiSettleSignatureById d id') as [r|] eqn:G; [|reflexivity].
  simpl. rewrite (getSignature_id _ _ _ G).
  apply String.eqb_neq in Hne. now rewrite Hne.
Qed.

(** X12: tenant isolation. A record that belongs to another facilitator
    is read unchanged after any [/settle], [/revoke] or [/authorize]
    request of this facilitator, whatever the request and the answers of
    the outside world; and a [/settle] or [/revoke] that names it is
    answered 403 without the remaining amount and with no effect at
    all. *)
Theorem routes_tenant_isolation record d id t :
  getMultiSettleSignatureById d id = Some t ->
  Signature.facilitator_id t <> fr_id record ->
  (forall env body,
     getMultiSettleSignatureById (fst (fst (settle env record body d))) id = Some t)
  /\ (forall body,
        getMultiSettleSignatureById (fst (fst (revoke record body d))) id = Some t)
  /\ (forall env body,
        getMultiSettleSignatureById (fst (fst (authorize env record body d))) id
        = Some t)
  /\ (forall env payTo amount,
        settle env record (Some (mkSettleRequest id payTo amount)) d
        = (d, Some (failure 403
                      (Some "Authorization does not belong to this facilitator")
                      None None), []))
  /\ revoke record (Some id) d
     = (d, Some (failure 403
                   (Some "Authorization does not belong to this facilitator")
                   None None), []).
Proof.
  intros G Hforeign.
  assert (Hneq : String.eqb (Signature.facilitator_id t) (fr_id record) = false)
    by now apply String.eqb_neq.
  split; [|split; [|split; [|split]]].
  - intros env body.
    pose proof (settle_effect env record body d) as H.
    destruct (settle env record body d) as [[d' resp] tr] eqn:Hrun.
    destruct H as [(-> & _) | (parsed & t' & remaining & a & d0 & res & -> & G'
                               & Hown & _)]; [exact G|].
    rewrite <- G. replace d' with (fst (fst (settle env record (Some parsed) d)))
      by now rewrite Hrun.
    apply settle_other_rows.
    intros parsed' [= <-] ->. rewrite G in G'. injection G' as <-. contradiction.
  - intros body.
    pose proof (revoke_effect record body d) as H.
    destruct (revoke record body d) as [[d' resp] tr].
    destruct H as [(-> & _) | (id' & t' & -> & G' & Hown & _ & -> & _)];
      [exact G|].
    cbn [fst]. rewrite getSignature_after_revoke; [exact G|].
    intros ->. rewrite G in G'. injection G' as <-. contradiction.
  - intros env body.
    pose proof (authorize_effect env record body d) as H.
    destruct (authorize env record body d) as [[d' resp] tr].
    destruct H as [(-> & _) | (parsed & v & details & created & _ & _ & _ & _ & _
                               & _ & _ & Hc & _)]; [exact G|].
    cbn [fst]. replace d' with (fst (createMultiSettleSignature d (signature_nanoid env)
            (mkCreateSignatureData (fr_id record)
               (pr_network (q_paymentRequirements parsed))
               (pr_asset (q_paymentRequirements parsed))
               (a_from details) (q_capAmount parsed) (q_validUntil parsed)
               (a_nonce details) (a_signature details)
               (normalizePaymentPayload (q_paymentPayload parsed)))))
      by now rewrite Hc.
    now apply getSignature_after_createSignature.
  - intros env payTo amount. handler_norm. cbn [q_authorizationId].
    now rewrite G, Hneq.
  - handler_norm. now rewrite G, Hneq.
Qed.

Lemma routes_tenant_isolation_witness :
  revoke (mkFacilitatorRecord "fac_2" (Some "encrypted")) (Some "auth_1")
    (sampleDatabase (sampleSignature "auth_1" "0xn1" "200" "120" 1000 active 1))
  = (sampleDatabase (sampleSignature "auth_1" "0xn1" "200" "120" 1000 active 1),
     Some (failure 403 (Some "Authorization does not belong to this facilitator")
             None None), []).
Proof.
  refine (proj2 (proj2 (proj2 (proj2
    (routes_tenant_isolation (mkFacilitatorRecord "fac_2" (Some "encrypted"))
       (sampleDatabase (sampleSignature "auth_1" "0xn1" "200" "120" 1000 active 1))
       "auth_1" (sampleSignature "auth_1" "0xn1" "200" "120" 1000 active 1)
       _ _))))).
  - reflexivity.
  - discriminate.
Defined.

(* ================================================================== *)
(** ** The chain calls of a run of [/settle] *)
(* ================================================================== *)

Lemma row_after_reserve_and_create d now id amount d0 u nano data d1 created :
  decrementRemainingAmount d now id amount = (d0, Return (Some u)) ->
  createMultiSettleSettlement d0 nano data = (d1, created) ->
  getMultiSettleSignatureById d1 id = Some u /\ Signature.id u = id.
Proof.
  intros Hdec Hc. apply reserved_row_stored in Hdec as (Gu & _).
  split; [|exact (getSignature_id _ _ _ Gu)].
  now rewrite (getSignature_after_createSettlement _ _ _ _ _ id Hc).
Qed.

Lemma marked_after_deposit d1 id u nano st h e :
  getMultiSettleSignatureById d1 id = Some u ->
  Signature.id u = id ->
  exists r,
    getMultiSettleSignatureById
      (fst (updateMultiSettleSettlementStatus
              (fst (markSignatureDeposited d1 id)) nano st h e)) id = Some r
    /\ Signature.deposited r = 1.
Proof.
  intros Gu Hid.
  rewrite getSignature_after_updateSettlement, getSignature_after_markDeposited, Gu.
  cbn [option_map]. rewrite Hid, String.eqb_refl.
  eexists; split; reflexivity.
Qed.

Ltac deposit_refuted :=
  let res := fresh "res" in
  let Hex := fresh "Hex" in
  let Hok := fresh "Hok" in
  intros (res & Hex & Hok);
  first [discriminate Hex | injection Hex as <-; discriminate Hok].

Ltac deposit_succeeded := eexists; split; reflexivity.

Ltac deposit_marked :=
  match goal with
  | Hdec : decrementRemainingAmount _ _ _ _ = (_, Return (Some _)),
    Hc : createMultiSettleSettlement _ _ _ = (_, _) |- _ =>
      let Gu := fresh "Gu" in
      let Hid := fresh "Hid" in
      destruct (row_after_reserve_and_create _ _ _ _ _ _ _ _ _ _ Hdec Hc)
        as (Gu & Hid);
      exact (marked_after_deposit _ _ _ _ _ _ _ Gu Hid)
  end.

Ltac balance_sufficient :=
  match goal with
  | Hp : BigInt (toString ?b) = Some ?have,
    Hge : (?have >=? _) = true |- _ =>
      rewrite BigInt_toString in Hp; injection Hp as <-;
      rewrite Z.geb_leb in Hge; apply Z.leb_le in Hge;
      exists b; split; [reflexivity | split; [lia|]];
      match goal with
      | Hn : networkToChainId _ = _ |- _ => rewrite Hn; assumption
      end
  end.

(** The chain calls of a run of [/settle], in order: at most one deposit,
    then at most one balance read, one gas price read and one transfer.
    The deposit is called only for a record read with [deposited] 0, and
    when it succeeds the run leaves the record marked as deposited; the
    balance is read only after a deposit that succeeded or for a record
    that needed none; the gas price is read and the transfer is sent only
    on a configured chain and when the balance read covers the amount. *)
Lemma settle_chain_calls env record body d :
  let '(d', resp, tr) := settle env record body d in
  filter isChainCall tr = []
  \/ exists parsed t addr need after,
       body = Some parsed
       /\ getMultiSettleSignatureById d (q_authorizationId parsed) = Some t
       /\ BigInt (q_amount parsed) = Some need
       /\ ((Signature.deposited t = 0
            /\ filter isChainCall tr = ChainDeposit (Signature.asset t) :: after
            /\ ((exists res, executeERC3009Settlement env = Return res
                             /\ c_success res = true)
                -> exists r,
                     getMultiSettleSignatureById d' (q_authorizationId parsed)
                     = Some r
                     /\ Signature.deposited r = 1)
            /\ (after <> [] ->
                exists res, executeERC3009Settlement env = Return res
                            /\ c_success res = true))
           \/ (Signature.deposited t <> 0
               /\ filter isChainCall tr = after))
       /\ (after = []
           \/ after = [ChainBalanceOf (Signature.asset t) addr]
           \/ ((exists b,
                  readBalanceOf env = Return b
                  /\ need <= b
                  /\ chainConfigs (networkToChainId (Signature.network t))
                     = true)
               /\ (after = [ChainBalanceOf (Signature.asset t) addr;
                            ChainGasPrice]
                   \/ after = [ChainBalanceOf (Signature.asset t) addr;
                               ChainGasPrice;
                               ChainTransfer (Signature.asset t)
                                 (q_payTo parsed) (q_amount parsed)]))).
Proof.
  handler_norm.
  repeat handler_step.
  all: try (left; reflexivity).
  all: passed_tests.
  all: right.
  all: match goal with
       | Ht : getMultiSettleSignatureById _ (q_authorizationId ?p) = Some ?t,
         Hk : privateKeyToAccount _ _ = Return ?addr,
         Ha : BigInt (q_amount ?p) = Some ?a |- _ =>
           exists p, t, addr, a
       end.
  all: eexists.
  all: split; [reflexivity|]; split; [eassumption|]; split; [assumption|].
  all: cbn [filter isChainCall].
  all: split;
    [ first
        [ left; split; [assumption|]; split; [reflexivity|];
          split;
            [ first [deposit_refuted | intros _; deposit_marked]
            | first [ intros _; deposit_succeeded
                    | intros Hne; now contradiction Hne ] ]
        | right; split; [assumption | reflexivity] ]
    | first
        [ left; reflexivity
        | right; left; reflexivity
        | right; right; split;
            [ balance_sufficient
            | first [left; reflexivity | right; reflexivity] ] ] ].
Qed.

Lemma in_chain_calls e tr :
  isChainCall e = true -> In e tr -> In e (filter isChainCall tr).
Proof. intros He Hin. apply filter_In. now split. Qed.

(** X13: the chain calls of a run of [/settle]. In order they are a
    prefix of deposit, balance read, gas price read, transfer when the
    record read has [deposited] 0, and of balance read, gas price read,
    transfer otherwise, each for the asset of the authorization. The
    balance is read after a deposit only if the deposit succeeded; the gas
    price is read, and the transfer, to the request's recipient and of the
    request's amount, is sent, only if the balance read covers that amount
    and the network of the authorization is one of the configured chains;
    and a deposit that succeeded leaves the record marked as deposited,
    also when a later step of the run fails. *)
Theorem settle_chain_discipline env record body d :
  let '(d', resp, tr) := settle env record body d in
  filter isChainCall tr = []
  \/ exists parsed t addr need n,
       let dep := ChainDeposit (Signature.asset t) in
       let bal := ChainBalanceOf (Signature.asset t) addr in
       let xfer := ChainTransfer (Signature.asset t) (q_payTo parsed)
                     (q_amount parsed) in
       let depositOk := exists res, executeERC3009Settlement env = Return res
                                    /\ c_success res = true in
       let balanceOk :=
         exists b,
           readBalanceOf env = Return b
           /\ need <= b
           /\ chainConfigs (networkToChainId (Signature.network t)) = true in
       body = Some parsed
       /\ getMultiSettleSignatureById d (q_authorizationId parsed) = Some t
       /\ BigInt (q_amount parsed) = Some need
       /\ filter isChainCall tr
          = firstn n (if Signature.deposited t =? 0
                      then [dep; bal; ChainGasPrice; xfer]
                      else [bal; ChainGasPrice; xfer])
       /\ (In bal tr -> Signature.deposited t = 0 -> depositOk)
       /\ (In xfer tr -> balanceOk)
       /\ (In dep tr -> depositOk ->
           exists r,
             getMultiSettleSignatureById d' (q_authorizationId parsed) = Some r
             /\ Signature.deposited r = 1)
       /\ (In ChainGasPrice tr -> balanceOk).
Proof.
  pose proof (settle_chain_calls env record body d) as H.
  destruct (settle env record body d) as [[d' resp] tr].
  destruct H as [H | (parsed & t & addr & need & after & -> & G & Hneed & H & Hafter)];
    [now left | right].
  exists parsed, t, addr, need, (List.length (filter isChainCall tr)).
  assert (Hin : forall calls e,
            filter isChainCall tr = calls -> In e tr ->
            isChainCall e = true -> In e calls)
    by (intros calls e <- Hi He; now apply in_chain_calls).
  cbn zeta.
  split; [reflexivity|]. split; [exact G|]. split; [exact Hneed|].
  destruct H as [(Hz & Hc & Hm & Hok) | (Hnz & Hc)].
  - assert (Ez : (Signature.deposited t =? 0) = true) by now apply Z.eqb_eq.
    rewrite Ez.
    destruct Hafter as [-> | [-> | (Hb & [-> | ->])]]; rewrite Hc;
      (split; [reflexivity|]);
      (split; [|split; [|split]]);
      first [ solve [intros Hi; apply (Hin _ _ Hc) in Hi; [|reflexivity];
                     in_trace Hi]
            | solve [intros _ _; apply Hok; discriminate]
            | solve [intros _; exact Hb]
            | solve [intros _; exact Hm] ].
  - assert (Ez : (Signature.deposited t =? 0) = false) by now apply Z.eqb_neq.
    rewrite Ez.
    destruct Hafter as [-> | [-> | (Hb & [-> | ->])]]; rewrite Hc;
      (split; [reflexivity|]);
      (split; [|split; [|split]]);
      first [ solve [intros Hi; apply (Hin _ _ Hc) in Hi; [|reflexivity];
                     in_trace Hi]
            | solve [intros _ Hz; contradiction]
            | solve [intros _; exact Hb] ].
Qed.

Lemma settle_chain_discipline_witness :
  exists b,
    readBalanceOf
      (sampleSettleEnv (Return (mkChainResult true (Some "0xdep") None))
         (Return 1000) (Return (mkReceipt "0xpaid" true))) = Return b
    /\ 50 <= b
    /\ chainConfigs (networkToChainId "base") = true.
Proof.
  pose proof (settle_chain_discipline
    (sampleSettleEnv (Return (mkChainResult true (Some "0xdep") None))
       (Return 1000) (Return (mkReceipt "0xpaid" true)))
    sampleRecord (Some (mkSettleRequest "auth_1" "0xAlice" "50"))
    (sampleDatabase (sampleSignature "auth_1" "0xn1" "200" "120" 1000 active 0)))
    as H.
  remember (settle _ _ _ _) as run eqn:Hrun.
  vm_compute in Hrun. subst run.
  destruct H as [H | (parsed & t & addr & need & n & Hb & G & Hneed & _ & _ & Hx & _)].
  - vm_compute in H. discriminate H.
  - injection Hb as <-.
    vm_compute in G. injection G as <-.
    vm_compute in Hneed. injection Hneed as <-.
    apply Hx. cbn. tauto.
Defined.

(* ================================================================== *)
(** ** Sequences of requests *)
(* ================================================================== *)

Lemma applyOp_deposited d op id r :
  getMultiSettleSignatureById d id = Some r ->
  exists r',
    getMultiSettleSignatureById (applyOp d op) id = Some r'
    /\ (Signature.deposited r <> 0 -> Signature.deposited r' <> 0).
Proof.
  intros G. destruct op; cbn [applyOp].
  - exists r. split; [now apply getSignature_after_createSignature | auto].
  - destruct (decrementRemainingAmount_outcome d now signatureId amount)
      as [[E _] | [(r0 & _ & _ & E) | (r0 & rem & a0 & _ & _ & _ & _ & _ & E)]];
      rewrite E; cbn [fst].
    + exists r. auto.
    + rewrite getSignature_update, G by reflexivity. cbn [option_map].
      eexists. split; [reflexivity|].
      now destruct (String.eqb (Signature.id r) signatureId).
    + rewrite getSignature_update, G by apply reservedRow_id. cbn [option_map].
      eexists. split; [reflexivity|].
      destruct (String.eqb (Signature.id r) signatureId); [|auto].
      unfold reservedRow. now destruct (rem - a0 =? 0).
  - unfold revokeMultiSettleSignature. cbn [fst].
    rewrite getSignature_updateWhere, G by reflexivity. cbn [option_map].
    eexists. split; [reflexivity|].
    now destruct (_ && _).
  - unfold revokeMultiSettleSignatureByNonce. cbn [fst].
    rewrite getSignature_updateWhere, G by reflexivity. cbn [option_map].
    eexists. split; [reflexivity|].
    now destruct (_ && _).
  - rewrite getSignature_after_markDeposited, G. cbn [option_map].
    eexists. split; [reflexivity|].
    destruct (String.eqb (Signature.id r) signatureId); [|auto].
    intros _. discriminate.
  - unfold cleanupExpiredSignatures. cbn [fst].
    rewrite getSignature_updateWhere, G by reflexivity. cbn [option_map].
    eexists. split; [reflexivity|].
    now destruct (_ && _).
Qed.

Lemma applyOps_deposited ops : forall d id r,
  getMultiSettleSignatureById d id = Some r ->
  exists r',
    getMultiSettleSignatureById (applyOps d ops) id = Some r'
    /\ (Signature.deposited r <> 0 -> Signature.deposited r' <> 0).
Proof.
  induction ops as [|op ops IH]; intros d id r G.
  - exists r. auto.
  - destruct (applyOp_deposited d op id r G) as (r1 & G1 & H1).
    destruct (IH (applyOp d op) id r1 G1) as (r2 & G2 & H2).
    exists r2. split; [exact G2 | auto].
Qed.

(** The writes of any request to the authorizations, as calls of the data
    layer. *)
Lemma serve_signature_ops d q :
  exists ops,
    multisettle_signatures (serve d q) = multisettle_signatures (applyOps d ops).
Proof.
  destruct q as [env record body | env record body | record body]; cbn [serve].
  - pose proof (authorize_effect env record body d) as H.
    destruct (authorize env record body d) as [[d' resp] tr]. cbn [fst].
    destruct H as [(-> & _) | (parsed & v & details & created & _ & _ & _ & _ & _
                               & _ & _ & Hc & _)].
    + now exists [].
    + eexists [OpCreate _ _]. simpl. now rewrite Hc.
  - destruct (settle_signature_ops env record body d) as (ops & H & _).
    now exists ops.
  - pose proof (revoke_effect record body d) as H.
    destruct (revoke record body d) as [[d' resp] tr]. cbn [fst].
    destruct H as [(-> & _) | (id & t & _ & _ & _ & _ & -> & _)].
    + now exists [].
    + now exists [OpRevoke id].
Qed.

Lemma serveAll_deposited qs : forall d id r,
  getMultiSettleSignatureById d id = Some r ->
  Signature.deposited r <> 0 ->
  exists r',
    getMultiSettleSignatureById (serveAll d qs) id = Some r'
    /\ Signature.deposited r' <> 0.
Proof.
  induction qs as [|q qs IH]; intros d id r G Hdep.
  - exists r. auto.
  - destruct (serve_signature_ops d q) as (ops & Htab).
    destruct (applyOps_deposited ops d id r G) as (r1 & G1 & H1).
    rewrite <- (getSignature_same_table _ _ id Htab) in G1.
    exact (IH (serve d q) id r1 G1 (H1 Hdep)).
Qed.

(** X14: the deposit is made at most once. After a run of [/settle] whose
    deposit call succeeded, and whatever requests are served in between,
    no later run of [/settle] on the same authorization calls the deposit
    again. *)
Theorem deposit_at_most_once env1 record1 parsed d qs env2 record2 payTo2 amount2 :
  (exists asset,
     In (ChainDeposit asset) (snd (settle env1 record1 (Some parsed) d))) ->
  (exists res, executeERC3009Settlement env1 = Return res /\ c_success res = true) ->
  forall asset,
    ~ In (ChainDeposit asset)
        (snd (settle env2 record2
                (Some (mkSettleRequest (q_authorizationId parsed) payTo2 amount2))
                (serveAll (fst (fst (settle env1 record1 (Some parsed) d))) qs))).
Proof.
  intros (asset1 & Hin1) Hok asset Hin2.
  pose proof (settle_chain_calls env1 record1 (Some parsed) d) as H1.
  destruct (settle env1 record1 (Some parsed) d) as [[d1 resp1] tr1].
  cbn [fst snd] in *.
  assert (Hmarked : exists r,
            getMultiSettleSignatureById d1 (q_authorizationId parsed) = Some r
            /\ Signature.deposited r = 1).
  { apply in_chain_calls in Hin1; [|reflexivity].
    destruct H1 as [H1 | (p & t & addr & need & after & [= <-] & G & _ & H1 & Ha)];
      [rewrite H1 in Hin1; contradiction|].
    destruct H1 as [(_ & _ & Hm & _) | (_ & Hc)]; [now apply Hm|].
    rewrite Hc in Hin1.
    destruct Ha as [-> | [-> | (_ & [-> | ->])]]; in_trace Hin1. }
  destruct Hmarked as (r & Gr & Hr).
  destruct (serveAll_deposited qs d1 _ r Gr) as (r' & Gr' & Hr'); [lia|].
  pose proof (settle_chain_calls env2 record2
                (Some (mkSettleRequest (q_authorizationId parsed) payTo2 amount2))
                (serveAll d1 qs)) as H2.
  destruct (settle env2 record2 _ (serveAll d1 qs)) as [[d2 resp2] tr2].
  cbn [snd] in Hin2.
  apply in_chain_calls in Hin2; [|reflexivity].
  destruct H2 as [H2 | (p & t & addr & need & after & [= <-] & G & _ & H2 & Ha)];
    [rewrite H2 in Hin2; contradiction|].
  cbn [q_authorizationId] in G. rewrite Gr' in G. injection G as <-.
  destruct H2 as [(Hz & _) | (_ & Hc)]; [contradiction|].
  rewrite Hc in Hin2.
  destruct Ha as [-> | [-> | (_ & [-> | ->])]]; in_trace Hin2.
Qed.

Lemma deposit_at_most_once_witness :
  (exists res,
     executeERC3009Settlement
       (sampleSettleEnv (Return (mkChainResult true (Some "0xdep") None))
          (Return 0) (Throw "unused")) = Return res
     /\ c_success res = true)
  /\ forall asset,
       ~ In (ChainDeposit asset)
           (snd (settle
                   (sampleSettleEnv (Throw "unused") (Return 1000)
                      (Return (mkReceipt "0xpaid2" true)))
                   sampleRecord (Some (mkSettleRequest "auth_1" "0xBob" "20"))
                   (serveAll
                      (fst (fst (settle
                         (sampleSettleEnv
                            (Return (mkChainResult true (Some "0xdep") None))
                            (Return 0) (Throw "unused"))
                         sampleRecord
                         (Some (mkSettleRequest "auth_1" "0xAlice" "50"))
                         (sampleDatabase
                            (sampleSignature "auth_1" "0xn1" "200" "120" 1000
                               active 0)))))
                      [PostRevoke sampleRecord (Some "auth_2")]))).
Proof.
  split; [eexists; split; reflexivity|].
  apply (deposit_at_most_once
           (sampleSettleEnv (Return (mkChainResult true (Some "0xdep") None))
              (Return 0) (Throw "unused"))
           sampleRecord (mkSettleRequest "auth_1" "0xAlice" "50")
           (sampleDatabase (sampleSignature "auth_1" "0xn1" "200" "120" 1000 active 0))
           [PostRevoke sampleRecord (Some "auth_2")]).
  - exists "0xusdc". vm_compute. tauto.
  - eexists. split; reflexivity.
Defined.

(** *** The ledger over sequences of requests *)

Lemma filter_none {Row} (key : Row -> bool) rows :
  (forall r, In r rows -> key r = false) -> filter key rows = [].
Proof.
  induction rows as [|x rows IH]; simpl; intros H; [reflexivity|].
  rewrite (H x) by now left. apply IH. intros r Hr. apply H. now right.
Qed.

Lemma sumAmounts_app l l' : sumAmounts (l ++ l') = sumAmounts l + sumAmounts l'.
Proof. induction l as [|x l IH]; simpl; [reflexivity|]. rewrite IH. lia. Qed.

Lemma sumAmounts_updateWhere p f rows :
  (forall r, settledAmount (f r) = settledAmount r) ->
  sumAmounts (updateWhere p f rows) = sumAmounts rows.
Proof.
  intros Hf. unfold updateWhere.
  induction rows as [|x rows IH]; simpl; [reflexivity|].
  rewrite IH. destruct (p x); [now rewrite Hf | reflexivity].
Qed.

Lemma sumAmounts_success rows :
  (forall s, In s rows -> 0 <= settledAmount s) ->
  0 <= sumAmounts (filter isSuccess rows) <= sumAmounts rows.
Proof.
  induction rows as [|x rows IH]; simpl; intros H; [lia|].
  assert (Hx : 0 <= settledAmount x) by (apply H; now left).
  assert (IH' : 0 <= sumAmounts (filter isSuccess rows) <= sumAmounts rows)
    by (apply IH; intros s Hs; apply H; now right).
  destruct (isSuccess x); simpl; lia.
Qed.

Lemma recordedTotal_same_table d d' id :
  multisettle_settlements d' = multisettle_settlements d ->
  recordedTotal d' id = recordedTotal d id.
Proof. unfold recordedTotal, getSettlementsBySignatureId. now intros ->. Qed.

(** Nothing is recorded for an id without a record. *)
Lemma recordedTotal_missing d id :
  capLedger d ->
  getMultiSettleSignatureById d id = None ->
  recordedTotal d id = 0.
Proof.
  intros [Hs _] G. unfold recordedTotal, getSettlementsBySignatureId.
  rewrite filter_none; [reflexivity|].
  intros s Hin. destruct (String.eqb (Settlement.signature_id s) id) eqn:E;
    [|reflexivity].
  apply String.eqb_eq in E. destruct (Hs s Hin) as [_ Hg].
  rewrite E in Hg. contradiction.
Qed.

Lemma rowWithinCap_step r r' recorded :
  rowSafeStep r r' -> rowWithinCap r recorded -> rowWithinCap r' recorded.
Proof.
  intros [Hcap Hrem] Hin. unfold rowWithinCap in *. rewrite Hcap.
  destruct Hrem as [-> | (rem & rem' & Hr & Hr' & Hb)]; [exact Hin|].
  right. destruct Hin as [[E ->] | (cap & rem0 & Hc & Hr0 & H0 & Hle)].
  - exists rem, rem'. rewrite <- E. repeat split; auto; lia.
  - rewrite Hr in Hr0. injection Hr0 as <-.
    exists cap, rem'. repeat split; auto; lia.
Qed.

(** Writes that keep the settlements and move every row by a safe step
    keep the ledger. *)
Lemma capLedger_rows d d' :
  capLedger d ->
  multisettle_settlements d' = multisettle_settlements d ->
  (forall id r,
     getMultiSettleSignatureById d id = Some r ->
     exists r', getMultiSettleSignatureById d' id = Some r' /\ rowSafeStep r r') ->
  (forall id r',
     getMultiSettleSignatureById d id = None ->
     getMultiSettleSignatureById d' id = Some r' ->
     Signature.remaining_amount r' = Signature.cap_amount r') ->
  capLedger d'.
Proof.
  intros Hd Hset Hrows Hnew. pose proof Hd as [Hs Hr]. split.
  - intros s Hin. rewrite Hset in Hin. destruct (Hs s Hin) as [Ha Hg].
    split; [exact Ha|].
    destruct (getMultiSettleSignatureById d (Settlement.signature_id s))
      as [r|] eqn:G; [|contradiction].
    destruct (Hrows _ _ G) as (r' & G' & _). now rewrite G'.
  - intros id r' G'. rewrite (recordedTotal_same_table _ _ id Hset).
    destruct (getMultiSettleSignatureById d id) as [r|] eqn:G.
    + destruct (Hrows _ _ G) as (r'' & G'' & Hstep).
      rewrite G' in G''. injection G'' as <-.
      exact (rowWithinCap_step _ _ _ Hstep (Hr _ _ G)).
    + left. split; [exact (Hnew _ _ G G')|].
      now apply recordedTotal_missing.
Qed.

Lemma rowStep_safe r r' x : 0 <= x -> rowStep r r' x -> rowSafeStep r r'.
Proof.
  intros Hx [(_ & _ & Hcap) Hstep]. split; [exact Hcap|].
  destruct Hstep as [(E & _) | (_ & rem & Hr & Hle & Hr')]; [now left|].
  right. exists rem, (rem - x). repeat split; auto; lia.
Qed.

(** One call of the data layer that reserves nothing negative keeps the
    ledger, when the settlements are left as they were. *)
Lemma capLedger_applyOp d op d' :
  capLedger d ->
  (forall id, 0 <= reservedBy d op id) ->
  multisettle_settlements d' = multisettle_settlements d ->
  multisettle_signatures d' = multisettle_signatures (applyOp d op) ->
  capLedger d'.
Proof.
  intros Hd Hx Hset Hsig. apply (capLedger_rows d d' Hd Hset).
  - intros id r G. rewrite (getSignature_same_table _ _ id Hsig).
    destruct (applyOp_row d op id r G) as (r' & G' & Hstep).
    exists r'. split; [exact G'|]. exact (rowStep_safe _ _ _ (Hx id) Hstep).
  - intros id r' G G'. rewrite (getSignature_same_table _ _ id Hsig) in G'.
    destruct (applyOp_missing d op id G) as (_ & [Hn | (data & row & _ & Hg & Hc & Hr & _)]).
    + rewrite Hn in G'. discriminate.
    + rewrite Hg in G'. injection G' as <-. now rewrite Hc, Hr.
Qed.

Lemma reservedBy_positive_amount d now sid amount a id :
  BigInt amount = Some a -> 0 < a ->
  0 <= reservedBy d (OpReserve now sid amount) id.
Proof.
  intros Ha Hpos. simpl. rewrite Ha.
  destruct (String.eqb sid id); [|lia].
  destruct (snd (decrementRemainingAmount d now sid amount)) as [[u|]|]; lia.
Qed.

Lemma createMultiSettleSettlement_refused d nano data d1 :
  createMultiSettleSettlement d nano data = (d1, None) -> d1 = d.
Proof.
  unfold createMultiSettleSettlement.
  destruct (settlementInsertViolates d nano) eqn:Ev; [now intros [= <-]|].
  intros [= _ Hg]. exfalso.
  unfold getMultiSettleSettlementById in Hg. simpl in Hg.
  rewrite find_append in Hg.
  destruct (find _ (multisettle_settlements d)); [discriminate|].
  simpl in Hg. rewrite String.eqb_refl in Hg. discriminate.
Qed.

Lemma capLedger_markDeposited d id :
  capLedger d -> capLedger (fst (markSignatureDeposited d id)).
Proof.
  intros Hd. apply (capLedger_rows d _ Hd); [reflexivity | |].
  - intros id' r G. rewrite getSignature_after_markDeposited, G. cbn [option_map].
    eexists. split; [reflexivity|].
    destruct (String.eqb (Signature.id r) id); split; auto.
  - intros id' r' G. rewrite getSignature_after_markDeposited, G. discriminate.
Qed.

Lemma settlementFields_amount st h e r :
  Settlement.amount (settlementFields st h e r) = Settlement.amount r
  /\ Settlement.signature_id (settlementFields st h e r) = Settlement.signature_id r.
Proof. unfold settlementFields. destruct h, e; split; reflexivity. Qed.

Lemma recordedTotal_after_updateSettlement d nano st h e id :
  recordedTotal (fst (updateMultiSettleSettlementStatus d nano st h e)) id
  = recordedTotal d id.
Proof.
  unfold recordedTotal, getSettlementsBySignatureId.
  replace (multisettle_settlements
             (fst (updateMultiSettleSettlementStatus d nano st h e)))
    with (updateWhere (fun r => String.eqb (Settlement.id r) nano)
            (settlementFields st h e) (multisettle_settlements d))
    by (unfold updateMultiSettleSettlementStatus;
        now destruct (changes _ _ =? 0)%nat).
  rewrite filter_updateWhere_key.
  - apply sumAmounts_updateWhere. intros r. unfold settledAmount.
    now rewrite (proj1 (settlementFields_amount st h e r)).
  - intros r. now rewrite (proj2 (settlementFields_amount st h e r)).
Qed.

Lemma capLedger_updateSettlement d nano st h e :
  capLedger d -> capLedger (fst (updateMultiSettleSettlementStatus d nano st h e)).
Proof.
  intros [Hs Hr]. split.
  - intros s Hin.
    assert (Hin' : In s (updateWhere (fun r => String.eqb (Settlement.id r) nano)
                           (settlementFields st h e) (multisettle_settlements d)))
      by (revert Hin; unfold updateMultiSettleSettlementStatus;
          now destruct (changes _ _ =? 0)%nat).
    apply in_updateWhere in Hin' as (x & Hx & ->).
    rewrite getSignature_after_updateSettlement.
    destruct (Hs x Hx) as [Ha Hg].
    destruct (String.eqb (Settlement.id x) nano); [|now split].
    destruct (settlementFields_amount st h e x) as [-> ->]. now split.
  - intros id r G. rewrite getSignature_after_updateSettlement in G.
    rewrite recordedTotal_after_updateSettlement. now apply Hr.
Qed.

(** A granted reservation followed by the creation of its settlement row
    keeps the ledger: what is taken off the remaining amount is what the
    new row records. *)
Lemma capLedger_reserve_record d now id amount a d0 u nano fac payTo d1 row :
  capLedger d ->
  decrementRemainingAmount d now id amount = (d0, Return (Some u)) ->
  BigInt amount = Some a ->
  0 < a ->
  createMultiSettleSettlement d0 nano
    (mkCreateSettlementData id fac payTo amount None pending None)
  = (d1, Some row) ->
  capLedger d1.
Proof.
  intros [Hs Hr] Hdec Ha Hpos Hc.
  pose proof (settlements_after_decrement d now id amount) as Hset0.
  rewrite Hdec in Hset0. cbn [fst] in Hset0.
  apply decrementRemainingAmount_returned in Hdec
    as (r & rem & a' & G & _ & _ & Hrem & Ha' & Hle & -> & ->).
  rewrite Ha in Ha'. injection Ha' as <-.
  apply createMultiSettleSettlement_table in Hc as (Hrow & Hset1 & Hsig1).
  cbn [s_signature_id s_facilitator_id s_pay_to s_amount s_transaction_hash
       s_status s_error_message orNull] in Hrow.
  rewrite Hset0 in Hset1.
  assert (Hget : forall id',
            getMultiSettleSignatureById d1 id'
            = option_map (fun x => if String.eqb (Signature.id x) id
                                   then reservedRow rem a x else x)
                (getMultiSettleSignatureById d id')).
  { intros id'. rewrite (getSignature_same_table _ _ id' Hsig1).
    apply getSignature_update. intros x. apply reservedRow_id. }
  assert (Hrec : forall id',
            recordedTotal d1 id'
            = recordedTotal d id' + (if String.eqb id id' then a else 0)).
  { intros id'. unfold recordedTotal, getSettlementsBySignatureId.
    rewrite Hset1, filter_app, sumAmounts_app. f_equal.
    simpl. rewrite Hrow. cbn [Settlement.signature_id].
    destruct (String.eqb id id'); simpl; [|reflexivity].
    unfold settledAmount. cbn [Settlement.amount]. rewrite Ha. lia. }
  split.
  - intros s Hin. rewrite Hset1 in Hin. apply in_app_or in Hin as [Hin | Hin].
    + destruct (Hs s Hin) as [Hamt Hg]. split; [exact Hamt|].
      rewrite Hget.
      destruct (getMultiSettleSignatureById d (Settlement.signature_id s));
        [discriminate | contradiction].
    + destruct Hin as [<- | []]. rewrite Hrow.
      cbn [Settlement.amount Settlement.signature_id].
      split; [now exists a|]. rewrite Hget, G. discriminate.
  - intros id' r' G'. rewrite Hget in G'. rewrite Hrec.
    destruct (getMultiSettleSignatureById d id') as [r0|] eqn:G0; [|discriminate].
    cbn [option_map] in G'. injection G' as <-.
    pose proof (getSignature_id _ _ _ G0) as Hid0.
    pose proof (Hr _ _ G0) as Hin0.
    rewrite Hid0, String.eqb_sym. clear Hid0.
    destruct (String.eqb id id') eqn:E.
    + apply String.eqb_eq in E. subst id'.
      rewrite G in G0. injection G0 as <-.
      right. unfold rowWithinCap in Hin0.
      assert (Hnew : BigInt (Signature.remaining_amount (reservedRow rem a r))
                     = Some (rem - a)
                     /\ Signature.cap_amount (reservedRow rem a r)
                        = Signature.cap_amount r).
      { unfold reservedRow. destruct (rem - a =? 0); simpl;
          now rewrite BigInt_toString. }
      destruct Hnew as [Hnr Hnc]. rewrite Hnc.
      destruct Hin0 as [[E0 E1] | (cap & rem0 & Hcap & Hrem0 & H0 & Hsum)].
      * exists rem, (rem - a). rewrite <- E0.
        repeat split; auto; lia.
      * rewrite Hrem in Hrem0. injection Hrem0 as <-.
        exists cap, (rem - a). repeat split; auto; lia.
    + now rewrite Z.add_0_r.
Qed.

(** Every request keeps the ledger. *)
Lemma capLedger_serve d q : capLedger d -> capLedger (serve d q).
Proof.
  intros Hd.
  destruct q as [env record body | env record body | record body]; cbn [serve].
  - pose proof (authorize_effect env record body d) as H.
    destruct (authorize env record body d) as [[d' resp] tr]. cbn [fst].
    destruct H as [(-> & _) | (parsed & v & details & created & _ & _ & _ & _ & _
                               & _ & _ & Hc & _)]; [exact Hd|].
    match type of Hc with
    | createMultiSettleSignature _ ?nano ?data = _ =>
        apply (capLedger_applyOp d (OpCreate nano data) d' Hd)
    end.
    + intros id. simpl. lia.
    + revert Hc. unfold createMultiSettleSignature.
      destruct (signatureInsertViolates _ _ _); now intros [= <- _].
    + cbn [applyOp]. now rewrite Hc.
  - pose proof (settle_effect env record body d) as H.
    destruct (settle env record body d) as [[d' resp] tr]. cbn [fst].
    destruct H as [(-> & _) | (parsed & t & remaining & a & d0 & res & -> & G & Hown
                               & Hst & Hnr & Hrem & Ha & Hbound & Hdec & Hrest)];
      [exact Hd|].
    assert (Hd0 : capLedger d0).
    { apply (capLedger_applyOp d (OpReserve (now_reserve env)
                                    (q_authorizationId parsed) (q_amount parsed))
               d0 Hd).
      - intros id. apply (reservedBy_positive_amount _ _ _ _ a); [exact Ha | lia].
      - pose proof (settlements_after_decrement d (now_reserve env)
                      (q_authorizationId parsed) (q_amount parsed)) as E.
        now rewrite Hdec in E.
      - cbn [applyOp]. now rewrite Hdec. }
    destruct Hrest as [(_ & -> & _) | (u & d1 & created & -> & Hc & Hrest)];
      [exact Hd0|].
    destruct Hrest as [(-> & -> & _)
                      | (row & dX & st & h & e & rest & rsp & -> & -> & HdX & _)].
    + apply createMultiSettleSettlement_refused in Hc. now subst d1.
    + apply capLedger_updateSettlement.
      assert (Hd1 : capLedger d1).
      { eapply (capLedger_reserve_record d); [exact Hd | exact Hdec | exact Ha | lia |].
        exact Hc. }
      destruct HdX as [-> | (-> & _)]; [exact Hd1|].
      now apply capLedger_markDeposited.
  - pose proof (revoke_effect record body d) as H.
    destruct (revoke record body d) as [[d' resp] tr]. cbn [fst].
    destruct H as [(-> & _) | (id & t & _ & _ & _ & _ & -> & _)]; [exact Hd|].
    apply (capLedger_applyOp d (OpRevoke id) _ Hd).
    + intros id'. simpl. lia.
    + reflexivity.
    + reflexivity.
Qed.

Lemma capLedger_serveAll qs : forall d, capLedger d -> capLedger (serveAll d qs).
Proof.
  induction qs as [|q qs IH]; intros d Hd; [exact Hd|].
  apply (IH (serve d q)). now apply capLedger_serve.
Qed.

Lemma capLedger_empty : capLedger emptyDatabase.
Proof. split; [intros s [] | intros id r; discriminate]. Qed.

(** X15: the cap holds over the routes. Starting from an empty database
    and whatever requests to [/authorize], [/settle] and [/revoke] are
    served, with whatever answers of the outside world, every settlement
    row has a positive amount, and for every authorization id the amounts
    of its settlements that ended [success] are within the amounts of all
    its settlement rows, which together with the remaining amount never
    exceed the cap (nothing being recorded for an id without a record, or
    as long as the remaining amount is the cap as written). So either
    nothing was paid out under an authorization, or its cap reads as an
    integer and what was paid out is at most that cap. *)
Theorem settled_within_cap qs :
  let d := serveAll emptyDatabase qs in
  (forall s,
     In s (multisettle_settlements d) ->
     exists a, BigInt (Settlement.amount s) = Some a /\ 0 < a)
  /\ forall id,
       0 <= settledTotal d id <= recordedTotal d id
       /\ match getMultiSettleSignatureById d id with
          | None => recordedTotal d id = 0
          | Some r =>
              (Signature.remaining_amount r = Signature.cap_amount r
               /\ recordedTotal d id = 0)
              \/ exists cap remaining,
                   BigInt (Signature.cap_amount r) = Some cap
                   /\ BigInt (Signature.remaining_amount r) = Some remaining
                   /\ 0 <= remaining
                   /\ recordedTotal d id + remaining <= cap
          end
       /\ (settledTotal d id = 0
           \/ exists r cap,
                getMultiSettleSignatureById d id = Some r
                /\ BigInt (Signature.cap_amount r) = Some cap
                /\ 0 < settledTotal d id <= cap).
Proof.
  cbn zeta.
  pose proof (capLedger_serveAll qs emptyDatabase capLedger_empty) as Hd.
  pose proof Hd as [Hs Hr].
  split; [intros s Hin; exact (proj1 (Hs s Hin))|].
  intros id.
  assert (Hsum : 0 <= settledTotal (serveAll emptyDatabase qs) id
                   <= recordedTotal (serveAll emptyDatabase qs) id).
  { unfold settledTotal, recordedTotal, getSettlementsBySignatureId.
    apply sumAmounts_success. intros s Hin.
    apply filter_In in Hin as [Hin _].
    destruct (Hs s Hin) as [(a & Ha & Hpos) _].
    unfold settledAmount. rewrite Ha. lia. }
  split; [exact Hsum|].
  destruct (getMultiSettleSignatureById (serveAll emptyDatabase qs) id)
    as [r|] eqn:G.
  - pose proof (Hr id r G) as Hin. unfold rowWithinCap in Hin.
    split; [exact Hin|].
    destruct Hin as [[_ E] | (cap & rem & Hcap & _ & H0 & Hle)];
      [left; lia|].
    destruct (Z.eq_dec (settledTotal (serveAll emptyDatabase qs) id) 0)
      as [E | Hne]; [now left|].
    right. exists r, cap. split; [reflexivity|]. split; [exact Hcap | lia].
  - pose proof (recordedTotal_missing _ id Hd G) as E.
    split; [exact E|]. left. lia.
Qed.

(** One authorization of 200 and one settlement of 50: within the cap. *)
Lemma settled_within_cap_witness :
  settledTotal
    (serveAll emptyDatabase
       [PostAuthorize (sampleAuthorizeEnv 500 "auth_1") sampleRecord
          (Some (sampleAuthorizeRequest "200" 1000));
        PostSettle
          (sampleSettleEnv (Return (mkChainResult true (Some "0xdep") None))
             (Return 1000) (Return (mkReceipt "0xpaid" true)))
          sampleRecord (Some (mkSettleRequest "auth_1" "0xAlice" "50"))])
    "auth_1" <= 200.
Proof.
  destruct (proj2 (proj2 (proj2 (settled_within_cap
    [PostAuthorize (sampleAuthorizeEnv 500 "auth_1") sampleRecord
       (Some (sampleAuthorizeRequest "200" 1000));
     PostSettle
       (sampleSettleEnv (Return (mkChainResult true (Some "0xdep") None))
          (Return 1000) (Return (mkReceipt "0xpaid" true)))
       sampleRecord (Some (mkSettleRequest "auth_1" "0xAlice" "50"))])
    "auth_1"))) as [E | (r & cap & G & Hcap & Hle)].
  - rewrite E. lia.
  - vm_compute in G. injection G as <-.
    vm_compute in Hcap. injection Hcap as <-. lia.
Defined.

(** *** The answers of [/authorize] and [/revoke] *)

Lemma createMultiSettleSignature_refused d nano data d' :
  createMultiSettleSignature d nano data = (d', None) -> d' = d.
Proof.
  unfold createMultiSettleSignature.
  destruct (signatureInsertViolates d nano data) eqn:Ev; [now intros [= <-]|].
  intros [= _ Hg]. exfalso.
  unfold getMultiSettleSignatureById in Hg. simpl in Hg.
  rewrite find_append in Hg.
  destruct (find _ (multisettle_signatures d)); [discriminate|].
  simpl in Hg. rewrite String.eqb_refl in Hg. discriminate.
Qed.

(** X16: what an answer of [/authorize] means. A run always answers and
    never touches the settlements. A failure is not a 200, names no
    authorization and has written nothing.
    A success is a 200 for a payload that verified and decoded, and it
    describes the record now stored under the payload's nonce for this
    facilitator, which is active: either the record that was already
    there, the database being unchanged, or a record just appended with
    the request's terms, the remaining amount equal to the cap, which is
    the signed value, a [validUntil] in the future and [deposited] 0. *)
Theorem authorize_response_sound env record body d :
  let '(d', resp, tr) := authorize env record body d in
  multisettle_settlements d' = multisettle_settlements d
  /\ exists rsp,
    resp = Some rsp
    /\ ((r_success rsp = false /\ statusCode rsp <> 200
         /\ authorizationId rsp = None /\ d' = d)
        \/ (r_success rsp = true /\ statusCode rsp = 200
            /\ exists parsed v details row,
                 body = Some parsed
                 /\ verify env (normalizePaymentPayload (q_paymentPayload parsed))
                      (with_maxAmountRequired (q_paymentRequirements parsed)
                         (q_capAmount parsed)) = Return v
                 /\ valid v = true
                 /\ extractAuthorizationFromPayload env
                      (normalizePaymentPayload (q_paymentPayload parsed))
                    = Some details
                 /\ getMultiSettleSignatureByNonce d' (fr_id record)
                      (a_nonce details) = Some row
                 /\ Signature.facilitator_id row = fr_id record
                 /\ Signature.nonce row = a_nonce details
                 /\ Signature.status row = active
                 /\ rsp = authorized row (Signature.deposited row =? 1)
                 /\ (d' = d
                     \/ (getMultiSettleSignatureByNonce d (fr_id record)
                           (a_nonce details) = None
                         /\ getMultiSettleSignatureById d (signature_nanoid env) = None
                         /\ now_authorize env < q_validUntil parsed
                         /\ a_value details = q_capAmount parsed
                         /\ row = Signature.mk (signature_nanoid env) (fr_id record)
                                    (pr_network (q_paymentRequirements parsed))
                                    (pr_asset (q_paymentRequirements parsed))
                                    (toLowerCase (a_from details))
                                    (q_capAmount parsed) (q_capAmount parsed)
                                    (q_validUntil parsed) (a_nonce details)
                                    (a_signature details)
                                    (normalizePaymentPayload (q_paymentPayload parsed))
                                    active 0
                         /\ multisettle_signatures d'
                            = (multisettle_signatures d ++ [row])%list
                         /\ getMultiSettleSignatureById d' (signature_nanoid env)
                            = Some row)))).
Proof.
  pose proof (authorize_effect env record body d) as H.
  destruct (authorize env record body d) as [[d' resp] tr].
  destruct H as [(-> & _ & rsp & -> & H)
                | (parsed & v & details & created & -> & Hv & Hvalid & Hx & Hn
                   & Hnow & Hval & Hc & _ & ->)].
  - split; [reflexivity|]. exists rsp. split; [reflexivity|].
    destruct H as [(Hf & Hcode & Hid) | (parsed & v & details & existing & -> & Hv
                                         & Hvalid & Hx & Hn & Hst & ->)].
    + left. auto.
    + right. split; [reflexivity|]. split; [reflexivity|].
      exists parsed, v, details, existing.
      destruct (getByNonce_facts _ _ _ _ Hn) as [Hfac Hnonce].
      repeat (split; [assumption || reflexivity|]). now left.
  - assert (Hset : multisettle_settlements d' = multisettle_settlements d)
      by (revert Hc; unfold createMultiSettleSignature;
          destruct (signatureInsertViolates _ _ _); now intros [= <- _]).
    split; [exact Hset|]. clear Hset.
    destruct created as [s|].
    + eexists. split; [reflexivity|]. right.
      split; [reflexivity|]. split; [reflexivity|].
      destruct (createMultiSettleSignature_created _ _ _ _ _ Hc) as [Gid Gn].
      cbn [d_facilitator_id d_nonce] in Gn.
      match type of Hc with
      | createMultiSettleSignature _ _ ?data = _ =>
          pose proof (createMultiSettleSignature_fresh d (signature_nanoid env)
                        data Gid Gn) as (Hc' & Gid' & Gn')
      end.
      rewrite Hc in Hc'. injection Hc' as -> ->.
      cbn [d_facilitator_id d_network d_asset d_from_address d_cap_amount
           d_valid_until d_nonce d_signature d_payment_payload] in *.
      exists parsed, v, details. eexists.
      split; [reflexivity|]. split; [exact Hv|]. split; [exact Hvalid|].
      split; [exact Hx|]. split; [exact Gn'|].
      split; [reflexivity|]. split; [reflexivity|]. split; [reflexivity|].
      split; [reflexivity|]. right.
      split; [exact Gn|]. split; [exact Gid|]. split; [exact Hnow|].
      split; [exact Hval|]. split; [reflexivity|]. split; [reflexivity|].
      exact Gid'.
    + apply createMultiSettleSignature_refused in Hc. subst d'.
      eexists. split; [reflexivity|]. left.
      split; [reflexivity|]. split; [discriminate|]. split; reflexivity.
Qed.

(** X17: what an answer of [/revoke] means. A run always answers, and
    never with a 500: the route's "Failed to revoke" branch cannot be
    taken. A failure has written nothing and carries no remaining amount.
    A success was given to the owner of an active record; it reports the
    remaining amount and the deposit flag the record had, leaves that
    record [revoked] and otherwise the same, every other record and the
    settlements as they were, and the same request sent again is answered
    400 "Authorization is already revoked" without any effect. *)
Theorem revoke_response_sound record body d :
  let '(d', resp, tr) := revoke record body d in
  exists rsp,
    resp = Some rsp
    /\ statusCode rsp <> 500
    /\ ((r_success rsp = false /\ d' = d /\ tr = []
         /\ remainingAmount rsp = None)
        \/ (r_success rsp = true
            /\ exists id t,
                 body = Some id
                 /\ getMultiSettleSignatureById d id = Some t
                 /\ Signature.facilitator_id t = fr_id record
                 /\ Signature.status t = active
                 /\ statusCode rsp = 200
                 /\ remainingAmount rsp = Some (Signature.remaining_amount t)
                 /\ r_deposited rsp = Some (Signature.deposited t =? 1)
                 /\ getMultiSettleSignatureById d' id
                    = Some (Signature.set_status revoked t)
                 /\ (forall id', id' <> id ->
                       getMultiSettleSignatureById d' id'
                       = getMultiSettleSignatureById d id')
                 /\ multisettle_settlements d' = multisettle_settlements d
                 /\ revoke record body d'
                    = (d', Some (failure 400
                                   (Some "Authorization is already revoked")
                                   None None), []))).
Proof.
  pose proof (revoke_effect record body d) as H.
  destruct (revoke record body d) as [[d' resp] tr].
  destruct H as [(-> & -> & rsp & -> & Hf & _ & H500 & Hrem)
                | (id & t & -> & G & Hown & Hst & -> & -> & ->)].
  - exists rsp. split; [reflexivity|]. split; [exact H500|]. left. auto.
  - eexists. split; [reflexivity|]. split; [discriminate|]. right.
    split; [reflexivity|]. exists id, t.
    assert (G' : getMultiSettleSignatureById (fst (revokeMultiSettleSignature d id)) id
                 = Some (Signature.set_status revoked t)).
    { unfold revokeMultiSettleSignature. cbn [fst].
      rewrite getSignature_updateWhere, G by reflexivity. cbn [option_map].
      now rewrite (getSignature_id _ _ _ G), String.eqb_refl, Hst. }
    split; [reflexivity|]. split; [exact G|]. split; [exact Hown|].
    split; [exact Hst|]. split; [reflexivity|]. split; [reflexivity|].
    split; [reflexivity|]. split; [exact G'|].
    split; [intros id' Hne; now apply getSignature_after_revoke|].
    split; [reflexivity|].
    handler_norm. rewrite G'. cbn [Signature.set_status Signature.facilitator_id
                                   Signature.status].
    apply String.eqb_eq in Hown. now rewrite Hown.
Qed.

(** *** The chain helpers *)

Ltac break_hyps :=
  repeat match goal with
         | H : _ /\ _ |- _ => destruct H
         | H : exists _, _ |- _ => destruct H
         end.

(** Settles one side of an equivalence between facts that are decided by
    the answers at hand. *)
Ltac decided :=
  first
    [ solve [cbn [In]; tauto]
    | solve [repeat first [split | eexists]; first [reflexivity | eassumption]]
    | solve [intros; break_hyps; cbn [In] in *; first [discriminate | congruence | tauto]] ].

(** X18: [transferTokens] never throws and never touches the database.
    On a chain that is not configured it reports "Unsupported chain ID"
    with the chain id and makes no request. Otherwise it reads the gas
    price once the account, the amount and the call data are computed,
    and sends the transfer once the gas price is read and the request
    passes its check, in that order and each at most once. It reports
    success exactly when the transfer was sent and the receipt it waited
    for has status success, with the hash of that receipt; and every
    failure it reports carries a message. *)
Theorem transferTokens_reports env chainId tokenAddress to amount key w :
  let computed :=
    chainConfigs chainId = true
    /\ (exists account, privateKeyToAccount env key = Return account)
    /\ (exists value data,
          BigInt amount = Some value
          /\ encodeFunctionData env to value = Return data) in
  let sent :=
    computed
    /\ (exists gasPrice, getGasPrice env = Return gasPrice)
    /\ prepareSendTransaction env tokenAddress = Return tt in
  let '(w', step) := transferTokens env chainId tokenAddress to amount key w in
  Handler.db w' = Handler.db w
  /\ exists result calls,
       step = Handler.Next result
       /\ Handler.trace w' = (Handler.trace w ++ calls)%list
       /\ (calls = []
           \/ calls = [ChainGasPrice]
           \/ calls = [ChainGasPrice; ChainTransfer tokenAddress to amount])
       /\ (In ChainGasPrice calls <-> computed)
       /\ (In (ChainTransfer tokenAddress to amount) calls <-> sent)
       /\ (c_success result = true
           <-> sent
               /\ exists receipt,
                    sendAndWait env = Return receipt
                    /\ receipt_success receipt = true)
       /\ (c_success result = true ->
           exists receipt,
             sendAndWait env = Return receipt
             /\ c_transactionHash result = Some (receipt_hash receipt))
       /\ (c_success result = false ->
           exists message, c_errorMessage result = Some message)
       /\ (chainConfigs chainId = false ->
           result = mkChainResult false None
                      (Some ("Unsupported chain ID: " ++ chainIdText env chainId))).
Proof.
  cbn zeta. unfold transferTokens.
  destruct (chainConfigs chainId) eqn:Hcfg; cbn [negb].
  - unfold Handler.tryCatch, Handler.bind, Handler.emit, Handler.ofCompletion,
      Handler.bigInt, Handler.ret, Handler.throw.
    cbn [Handler.db Handler.trace].
    destruct (privateKeyToAccount env key) as [account | e1] eqn:Hacc;
      [destruct (BigInt amount) as [value|] eqn:Hval;
       [destruct (encodeFunctionData env to value) as [data | e3] eqn:Henc;
        [destruct (getGasPrice env) as [gasPrice | e4] eqn:Hgas;
         [destruct (prepareSendTransaction env tokenAddress) as [[] | e5] eqn:Hprep;
          [destruct (sendAndWait env) as [receipt | e6] eqn:Hsend;
           [destruct (receipt_success receipt) eqn:Hrc|]|]|]|]|]|].
    all: cbn [Handler.db Handler.trace].
    all: split; [reflexivity|]; do 2 eexists; split; [reflexivity|].
    all: split;
      [first [symmetry; apply app_nil_r | rewrite <- ?app_assoc; reflexivity]|].
    all: cbn [Datatypes.app c_success c_transactionHash c_errorMessage].
    all: split; [tauto|].
    all: repeat match goal with
                | |- _ /\ _ => split
                | |- _ <-> _ => split
                end.
    all: try decided.
    all: intros; break_hyps; try discriminate.
    all: try (cbn [In] in *;
              repeat match goal with
                     | H : _ \/ _ |- _ => destruct H
                     | H : False |- _ => destruct H
                     end; discriminate).
    all: try (repeat match goal with
                     | H : Return _ = Return _ |- _ =>
                         injection H as H; try subst
                     end; congruence).
  - unfold Handler.ret. split; [reflexivity|].
    do 2 eexists. split; [reflexivity|].
    split; [symmetry; apply app_nil_r|].
    cbn [c_success c_transactionHash c_errorMessage].
    split; [tauto|].
    repeat match goal with
           | |- _ /\ _ => split
           | |- _ <-> _ => split
           end.
    all: try decided.
Qed.

(** X19: [checkFacilitatorBalance] never throws and never touches the
    database. It sends the balance read, once, exactly when the chain is
    configured and the call passes its check; it answers sufficient
    exactly when that read returned, the required amount reads as an
    integer and the balance is at least that amount, and then reports
    that balance; when the chain is not configured, the check, the read
    or the conversion fails, it answers insufficient with balance "0". *)
Theorem checkFacilitatorBalance_reports env chainId tokenAddress owner required w :
  let requested :=
    chainConfigs chainId = true
    /\ prepareReadContract env tokenAddress owner = Return tt in
  let '(w', step) :=
    checkFacilitatorBalance env chainId tokenAddress owner required w in
  Handler.db w' = Handler.db w
  /\ exists sufficient balance calls,
       step = Handler.Next (sufficient, balance)
       /\ Handler.trace w' = (Handler.trace w ++ calls)%list
       /\ (calls = [] \/ calls = [ChainBalanceOf tokenAddress owner])
       /\ (In (ChainBalanceOf tokenAddress owner) calls <-> requested)
       /\ (sufficient = true
           <-> requested
               /\ exists b need,
                    readBalanceOf env = Return b
                    /\ BigInt required = Some need
                    /\ need <= b)
       /\ (forall b need,
             requested ->
             readBalanceOf env = Return b ->
             BigInt required = Some need ->
             balance = toString b)
       /\ (~ requested
           \/ (forall b, readBalanceOf env <> Return b)
           \/ BigInt required = None ->
           sufficient = false /\ balance = "0").
Proof.
  cbn zeta. unfold checkFacilitatorBalance.
  destruct (chainConfigs chainId) eqn:Hcfg; cbn [negb].
  - unfold Handler.tryCatch, Handler.bind, Handler.emit, Handler.ofCompletion,
      Handler.bigInt, Handler.ret, Handler.throw.
    cbn [Handler.db Handler.trace].
    destruct (prepareReadContract env tokenAddress owner) as [[] | e1] eqn:Hprep;
      [destruct (readBalanceOf env) as [b | e2] eqn:Hread;
       [rewrite BigInt_toString;
        destruct (BigInt required) as [need|] eqn:Hneed|]|].
    all: cbn [Handler.db Handler.trace].
    all: split; [reflexivity|]; do 3 eexists; split; [reflexivity|].
    all: split;
      [first [symmetry; apply app_nil_r | rewrite <- ?app_assoc; reflexivity]|].
    all: split; [tauto|].
    all: repeat match goal with
                | |- _ /\ _ => split
                | |- _ <-> _ => split
                end.
    all: try decided.
    all: try (intros; break_hyps; try discriminate;
              repeat match goal with
                     | H : Return _ = Return _ |- _ =>
                         injection H as H; try subst
                     | H : Some _ = Some _ |- _ =>
                         injection H as H; try subst
                     end;
              first [ reflexivity | congruence
                    | rewrite Z.geb_leb, Z.leb_le in *; lia ]).
    all: try (intros [Hn | [Hn | Hn]];
              first [ discriminate Hn
                    | exfalso; apply Hn; now split
                    | exfalso; now apply (Hn b) ]).
    all: try (rewrite Z.geb_leb, Z.leb_le; intros Hle;
              split; [now split|]; now exists b, need).
  - unfold Handler.ret. split; [reflexivity|].
    do 3 eexists. split; [reflexivity|].
    split; [symmetry; apply app_nil_r|].
    split; [tauto|].
    repeat match goal with
           | |- _ /\ _ => split
           | |- _ <-> _ => split
           end.
    all: try decided.
Qed.

(** A balance read that fails on the network: insufficient, balance "0". *)
Lemma checkFacilitatorBalance_reports_witness :
  snd (checkFacilitatorBalance
         (sampleSettleEnv (Throw "unused") (Throw "rpc down") (Throw "unused"))
         (OwnChainId 8453) "0xusdc" "0xfacilitator" "50"
         (Handler.mkWorld emptyDatabase []))
  = Handler.Next (false, "0").
Proof.
  pose proof (checkFacilitatorBalance_reports
    (sampleSettleEnv (Throw "unused") (Throw "rpc down") (Throw "unused"))
    (OwnChainId 8453) "0xusdc" "0xfacilitator" "50"
    (Handler.mkWorld emptyDatabase [])) as H.
  cbn zeta in H.
  destruct (checkFacilitatorBalance _ _ _ _ _ _) as [w' step].
  destruct H as (_ & sufficient & balance & calls & -> & _ & _ & _ & _ & _ & H).
  destruct H as [-> ->]; [|reflexivity].
  right. left. intros b. discriminate.
Defined.

(** A transfer whose receipt is a revert: a failure with a message. *)
Lemma transferTokens_reports_witness :
  exists message,
    c_errorMessage
      (match snd (transferTokens
                    (sampleSettleEnv (Throw "unused") (Throw "unused")
                       (Return (mkReceipt "0xreverted" false)))
                    (OwnChainId 8453) "0xusdc" "0xAlice" "50" "0xkey"
                    (Handler.mkWorld emptyDatabase [])) with
       | Handler.Next result => result
       | _ => mkChainResult true None None
       end) = Some message.
Proof.
  pose proof (transferTokens_reports
    (sampleSettleEnv (Throw "unused") (Throw "unused")
       (Return (mkReceipt "0xreverted" false)))
    (OwnChainId 8453) "0xusdc" "0xAlice" "50" "0xkey"
    (Handler.mkWorld emptyDatabase [])) as H.
  cbn zeta in H.
  remember (transferTokens _ _ _ _ _ _ _) as run eqn:Hrun.
  vm_compute in Hrun. subst run.
  destruct H as (_ & result & calls & [= <-] & _ & _ & _ & _ & _ & _ & H & _).
  cbn [snd]. apply H. reflexivity.
Defined.

(** *** Networks without a chain *)

(** X20: a [/settle] on an authorization whose network has no chain id,
    the three Solana names among them, never reserves: it has no effect
    and answers with a failure, which is "Unsupported network" with the
    network's name when every earlier check passes. The route's message
    for Solana is never sent for such a record. *)
Theorem settle_unsupported_network env record parsed d t :
  getMultiSettleSignatureById d (q_authorizationId parsed) = Some t ->
  In (Signature.network t) ["solana"; "solana-mainnet"; "solana-devnet"]
  \/ networkToChainId (Signature.network t) = Undefined ->
  let '(d', resp, tr) := settle env record (Some parsed) d in
  d' = d /\ tr = []
  /\ exists rsp,
       resp = Some rsp
       /\ r_success rsp = false
       /\ errorMessage rsp <> Some "Multi-settle for Solana is not yet supported"
       /\ (Signature.facilitator_id t = fr_id record ->
           Signature.status t = active ->
           now_route env <= Signature.valid_until t ->
           (exists remaining a,
              BigInt (Signature.remaining_amount t) = Some remaining
              /\ BigInt (q_amount parsed) = Some a
              /\ 0 < a <= remaining) ->
           rsp = failure 400
                   (Some ("Unsupported network: " ++ Signature.network t))
                   None None).
Proof.
  intros G Hnet.
  assert (Hundef : networkToChainId (Signature.network t) = Undefined).
  { destruct Hnet as [Hin | H]; [|exact H].
    cbn [In] in Hin.
    destruct Hin as [<- | [<- | [<- | []]]]; reflexivity. }
  clear Hnet.
  handler_norm. rewrite G.
  repeat handler_step.
  all: passed_tests.
  all: try congruence.
  all: split; [reflexivity|]; split; [reflexivity|].
  all: eexists; split; [reflexivity|]; split; [reflexivity|].
  all: split; [cbn [errorMessage failure]; simpl; discriminate|].
  all: intros Hown Hst Hnow (remaining & a & Hrem & Ha & Hbound).
  all: try (rewrite Hown, String.eqb_refl in *; discriminate).
  all: try congruence.
  all: try (rewrite Hst in *; discriminate).
  all: try lia.
  all: try reflexivity.
  all: injection Hrem as <-; injection Ha as <-.
  all: passed_tests.
  all: try (rewrite Z.gtb_ltb in *).
  all: repeat match goal with
              | H : (_ <? _) = true |- _ => apply Z.ltb_lt in H
              | H : (_ <=? _) = true |- _ => apply Z.leb_le in H
              end.
  all: lia.
Qed.

Lemma settle_unsupported_network_witness :
  snd (fst (settle
              (sampleSettleEnv (Throw "unused") (Throw "unused") (Throw "unused"))
              sampleRecord (Some (mkSettleRequest "auth_1" "0xAlice" "50"))
              (sampleDatabase
                 (Signature.mk "auth_1" "fac_1" "solana" "0xusdc" "0xpayer" "200"
                    "120" 1000 "0xn1" "0xsig" "payload" active 0))))
  = Some (failure 400 (Some "Unsupported network: solana") None None).
Proof.
  pose proof (settle_unsupported_network
    (sampleSettleEnv (Throw "unused") (Throw "unused") (Throw "unused"))
    sampleRecord (mkSettleRequest "auth_1" "0xAlice" "50")
    (sampleDatabase
       (Signature.mk "auth_1" "fac_1" "solana" "0xusdc" "0xpayer" "200"
          "120" 1000 "0xn1" "0xsig" "payload" active 0))
    (Signature.mk "auth_1" "fac_1" "solana" "0xusdc" "0xpayer" "200"
       "120" 1000 "0xn1" "0xsig" "payload" active 0)
    eq_refl (or_introl (or_introl eq_refl))) as H.
  destruct (settle _ _ _ _) as [[d' resp] tr].
  destruct H as (_ & _ & rsp & -> & _ & _ & Hmsg).
  cbn [fst snd]. f_equal.
  refine (Hmsg eq_refl eq_refl _ _).
  - cbn. lia.
  - exists 120, 50. split; [vm_compute; reflexivity|].
    split; [vm_compute; reflexivity | lia].
Defined.

(** *** Statuses that are final *)

Lemma serve_inactive_row d q id r :
  getMultiSettleSignatureById d id = Some r ->
  Signature.status r <> active ->
  exists r',
    getMultiSettleSignatureById (serve d q) id = Some r'
    /\ Signature.status r' = Signature.status r
    /\ Signature.remaining_amount r' = Signature.remaining_amount r.
Proof.
  intros G Hst.
  destruct (serve_signature_ops d q) as (ops & Htab).
  destruct (inactive_row_frozen ops d id r G Hst) as (r' & G' & Hs & Hr & _).
  exists r'. rewrite (getSignature_same_table _ _ id Htab). auto.
Qed.

(** X21: [exhausted], [expired] and [revoked] are final. Once the record
    of an authorization is not active, whatever requests to the routes
    are served, it keeps its status and its remaining amount; and every
    [/settle] that names it then is answered with a failure and has no
    effect: nothing is written and no chain call is made. *)
Theorem inactive_is_final qs d id r :
  getMultiSettleSignatureById d id = Some r ->
  Signature.status r <> active ->
  exists r',
    getMultiSettleSignatureById (serveAll d qs) id = Some r'
    /\ Signature.status r' = Signature.status r
    /\ Signature.remaining_amount r' = Signature.remaining_amount r
    /\ forall env record payTo amount,
         exists rsp,
           settle env record (Some (mkSettleRequest id payTo amount))
             (serveAll d qs)
           = (serveAll d qs, Some rsp, [])
           /\ r_success rsp = false.
Proof.
  revert d r. induction qs as [|q qs IH]; intros d r G Hst.
  - exists r. split; [exact G|]. split; [reflexivity|]. split; [reflexivity|].
    intros env record payTo amount. cbn [serveAll fold_left].
    pose proof (settle_effect env record
                  (Some (mkSettleRequest id payTo amount)) d) as H.
    destruct (settle env record _ d) as [[d' resp] tr].
    destruct H as [(-> & -> & rsp & -> & Hf)
                  | (parsed & t & _ & _ & _ & _ & [= <-] & G' & _ & Hact & _)].
    + now exists rsp.
    + cbn [q_authorizationId] in G'. rewrite G in G'. injection G' as <-.
      contradiction.
  - destruct (serve_inactive_row d q id r G Hst) as (r1 & G1 & Hs1 & Hr1).
    destruct (IH (serve d q) r1 G1) as (r' & G' & Hs' & Hr' & Hsettle);
      [now rewrite Hs1|].
    exists r'. split; [exact G'|]. split; [now rewrite Hs'|].
    split; [now rewrite Hr'|]. exact Hsettle.
Qed.

Lemma inactive_is_final_witness :
  exists r',
    getMultiSettleSignatureById
      (serveAll
         (sampleDatabase (sampleSignature "auth_1" "0xn1" "200" "0" 1000 exhausted 1))
         [PostRevoke sampleRecord (Some "auth_1");
          PostAuthorize (sampleAuthorizeEnv 500 "auth_2") sampleRecord
            (Some (sampleAuthorizeRequest "200" 1000))])
      "auth_1" = Some r'
    /\ Signature.status r' = exhausted
    /\ Signature.remaining_amount r' = "0".
Proof.
  destruct (inactive_is_final
              [PostRevoke sampleRecord (Some "auth_1");
               PostAuthorize (sampleAuthorizeEnv 500 "auth_2") sampleRecord
                 (Some (sampleAuthorizeRequest "200" 1000))]
              (sampleDatabase
                 (sampleSignature "auth_1" "0xn1" "200" "0" 1000 exhausted 1))
              "auth_1"
              (sampleSignature "auth_1" "0xn1" "200" "0" 1000 exhausted 1)
              eq_refl ltac:(discriminate))
    as (r' & G & Hs & Hr & _).
  exists r'. split; [exact G|]. split; [exact Hs | exact Hr].
Defined.
